(** * ADRES scraper: the fetch / extract / retry pipeline and its content analyzer

    A shallow embedding of [adres_scraper/core/content_analyzer.py] and
    [adres_scraper/core/scraper.py] (with the defaults of
    [adres_scraper/config/settings.py]), and the properties proved about it.

    Conventions of the embedding:
    - a Python [str] is the list of its Unicode code points;
    - a Python [int] is a [Z] (a [nat] where the value is a length or a count);
    - a Python [float] is the rational number it denotes, and arithmetic on
      floats is exact rational arithmetic: rounding is not modelled, and a
      configuration holds no infinity and no nan; a product beyond the
      largest float, which Python makes an infinity, is told by its size;
    - a [dict] with a fixed set of keys is a record, a key that some code paths
      leave out is an [option] field, a [dict] used as a map is a [gmap];
    - an exception is a value of [exception], and code that can raise returns
      in [result];
    - [time.sleep] and [session.get] act on an explicit [world]; what the
      clock and the operating system refuse is part of the environment. *)

From Stdlib Require Import ZArith QArith Lqa List String Ascii Lia Bool Sorted.
From stdpp Require Import gmap list.

Open Scope Z_scope.

(** ** Exceptions *)

Inductive exception : Type :=
  | KeyError            (* a missing dictionary key *)
  | ValueError
  | OverflowError       (* a number that does not fit: an ArithmeticError *)
  | HTTPError           (* requests.exceptions.HTTPError, a RequestException *)
  | TransportError      (* any other requests.exceptions.RequestException *)
  | OtherException.     (* any other subclass of Exception *)

Definition is_RequestException (e : exception) : bool :=
  match e with HTTPError | TransportError => true | _ => false end.

Definition is_ValueError (e : exception) : bool :=
  match e with ValueError => true | _ => false end.

Abbreviation result A := (sum exception A).
Abbreviation Raise e := (@inl exception _ e).
Abbreviation Return a := (@inr exception _ a).

(** ** Python strings *)

Module PyStr.

Abbreviation str := (list N).

(** String literals of this file are UTF-8; [py] reads one as code points. *)
Fixpoint bytes_of (s : string) : list N :=
  match s with
  | EmptyString => []
  | String a s' => N_of_ascii a :: bytes_of s'
  end.

Fixpoint utf8_decode (acc : N) (pending : nat) (bs : list N) : str :=
  match bs with
  | [] => []
  | b :: bs' =>
      match pending with
      | O =>
          if (b <? 0x80)%N then b :: utf8_decode 0 0 bs'
          else if (b <? 0xE0)%N then utf8_decode (N.land b 0x1F) 1 bs'
          else if (b <? 0xF0)%N then utf8_decode (N.land b 0x0F) 2 bs'
          else utf8_decode (N.land b 0x07) 3 bs'
      | S O => (acc * 64 + N.land b 0x3F)%N :: utf8_decode 0 0 bs'
      | S n => utf8_decode (acc * 64 + N.land b 0x3F)%N n bs'
      end
  end.

Definition py (s : string) : str := utf8_decode 0 0 (bytes_of s).

#[global] Arguments py : simpl never.

Definition between (lo hi c : N) : bool := ((lo <=? c) && (c <=? hi))%N.

(** [str.isspace] on one character (Py_UNICODE_ISSPACE); the same table
    decides [\s] in a [str] pattern. *)
Definition isspace (c : N) : bool :=
  between 0x09 0x0D c || between 0x1C 0x1F c || (c =? 0x20)%N
  || (c =? 0x85)%N || (c =? 0xA0)%N || (c =? 0x1680)%N
  || between 0x2000 0x200A c || (c =? 0x2028)%N || (c =? 0x2029)%N
  || (c =? 0x202F)%N || (c =? 0x205F)%N || (c =? 0x3000)%N.

Fixpoint lstrip (s : str) : str :=
  match s with
  | c :: s' => if isspace c then lstrip s' else s
  | [] => []
  end.

Definition rstrip (s : str) : str := rev (lstrip (rev s)).

(** [s.strip()] *)
Definition strip (s : str) : str := rstrip (lstrip s).

(** [s.split()]: the maximal runs of non-whitespace characters. [word] holds
    the characters of the current run, last one first. *)
Fixpoint split_from (word : str) (s : str) : list str :=
  match s with
  | [] => match word with [] => [] | _ => [rev word] end
  | c :: s' =>
      if isspace c
      then match word with
           | [] => split_from [] s'
           | _ => rev word :: split_from [] s'
           end
      else split_from (c :: word) s'
  end.

Definition split (s : str) : list str := split_from [] s.

(** [s.split(sep)] for a one-character separator: empty pieces are kept. *)
Fixpoint split_on_from (sep : N) (piece : str) (s : str) : list str :=
  match s with
  | [] => [rev piece]
  | c :: s' =>
      if (c =? sep)%N then rev piece :: split_on_from sep [] s'
      else split_on_from sep (c :: piece) s'
  end.

Definition split_on (sep : N) (s : str) : list str := split_on_from sep [] s.

(** [sep.join(pieces)] *)
Fixpoint join (sep : str) (pieces : list str) : str :=
  match pieces with
  | [] => []
  | [p] => p
  | p :: ps => p ++ sep ++ join sep ps
  end.

Fixpoint startswith (s p : str) : bool :=
  match p, s with
  | [], _ => true
  | c :: p', d :: s' => (c =? d)%N && startswith s' p'
  | _ :: _, [] => false
  end.

(** [p in s] *)
Fixpoint contains (p s : str) : bool :=
  startswith s p || match s with [] => false | _ :: s' => contains p s' end.

(** Truth value of a string: [bool(s)]. *)
Definition truthy (s : str) : bool :=
  match s with [] => false | _ => true end.

(** [s.replace(old, '')] for a one-character [old]. *)
Definition remove_char (old : N) (s : str) : str :=
  List.filter (fun c => negb (c =? old)%N) s.

(** The pieces that the matches of a pattern leave, as [str.split(sep)] and
    [re.split] return them. [match_length s] is the length of the match that
    begins at the head of [s], 0 when there is none; a match is never empty.
    [skip] counts the characters still covered by the last match, [piece]
    holds the current piece, last character first. *)
Fixpoint split_matches (match_length : str -> nat) (skip : nat) (piece : str)
    (s : str) : list str :=
  match s with
  | [] => [rev piece]
  | c :: s' =>
      match skip with
      | S n => split_matches match_length n piece s'
      | O =>
          match match_length s with
          | O => split_matches match_length 0 (c :: piece) s'
          | S n => rev piece :: split_matches match_length n [] s'
          end
      end
  end.

(** [s.split(sep)] for a separator that is not empty. *)
Definition split_str (sep : str) (s : str) : list str :=
  split_matches (fun s => if startswith s sep then length sep else 0%nat)
    0 [] s.

(** The length of the longest prefix of characters that satisfy [p]. *)
Fixpoint run_length (p : N -> bool) (s : str) : nat :=
  match s with
  | c :: s' => if p c then S (run_length p s') else 0%nat
  | [] => 0%nat
  end.

(** *** Character properties

    For code points below 256 the properties are written out; above, they
    come from the Unicode character database, which is a parameter. *)

Class UCD : Type := {
  (* s.lower() for a string with a code point >= 256 *)
  ucd_lower : str -> str;
  (* Py_UNICODE_ISALNUM for a code point >= 256 *)
  ucd_isalnum : N -> bool;
  (* Py_UNICODE_ISDECIMAL for a code point >= 256 *)
  ucd_isdecimal : N -> bool
}.

Definition latin1_lower (c : N) : N :=
  if between 0x41 0x5A c then (c + 32)%N
  else if between 0xC0 0xDE c && negb (c =? 0xD7)%N then (c + 32)%N
  else c.

Definition latin1_isalnum (c : N) : bool :=
  between 0x30 0x39 c || between 0x41 0x5A c || between 0x61 0x7A c
  || (c =? 0xAA)%N || (c =? 0xB2)%N || (c =? 0xB3)%N || (c =? 0xB5)%N
  || (c =? 0xB9)%N || (c =? 0xBA)%N || between 0xBC 0xBE c
  || between 0xC0 0xD6 c || between 0xD8 0xF6 c || between 0xF8 0xFF c.

Section Unicode.
Context `{UCD}.

(** [s.lower()] *)
Definition lower (s : str) : str :=
  if forallb (fun c => c <? 256)%N s then map latin1_lower s
  else ucd_lower s.

(** [\w] in a [str] pattern: alphanumeric or underscore. *)
Definition is_word (c : N) : bool :=
  (c =? 0x5F)%N || (if (c <? 256)%N then latin1_isalnum c else ucd_isalnum c).

(** [\d] in a [str] pattern: a decimal digit. *)
Definition is_digit (c : N) : bool :=
  if (c <? 256)%N then between 0x30 0x39 c else ucd_isdecimal c.
End Unicode.

End PyStr.

(** ** The fragment of [re] that the analyzer uses *)

Module Re.
Import PyStr.

Inductive cls : Type := ClsSpace | ClsDigit.

(** Patterns. [Plus] and [Opt] are greedy; there is at most one group. *)
Inductive regex : Type :=
  | Eps
  | Chr (c : N)              (* a character that stands for itself *)
  | WordBoundary             (* \b *)
  | Seq (r1 r2 : regex)
  | Plus (k : cls)           (* \s+ and \d+ *)
  | Opt (r : regex)          (* (?:r)? *)
  | Group (r : regex).       (* (r) *)

(** [re.escape(s)] compiles to the pattern that matches [s] literally. *)
Fixpoint literal (s : str) : regex :=
  match s with
  | [] => Eps
  | c :: s' => Seq (Chr c) (literal s')
  end.

(** A position in the subject: the character before it and what follows;
    [group] is the text captured so far. *)
Record mstate : Type := MState {
  before : option N;
  rest : str;
  group : option str
}.

Definition consumed (s s' : str) : str := firstn (length s - length s') s.

Section Matcher.
Context `{UCD}.

Definition in_cls (k : cls) (c : N) : bool :=
  match k with ClsSpace => isspace c | ClsDigit => is_digit c end.

Definition word_at (o : option N) : bool :=
  match o with Some c => is_word c | None => false end.

(** [\b]: exactly one of the two neighbours is a word character. *)
Definition at_boundary (st : mstate) : bool :=
  xorb (word_at (before st)) (word_at (head (rest st))).

(** One or more characters of class [k], longest run first. *)
Fixpoint plus_from {R} (k : cls) (g : option str) (s : str)
    (cont : mstate -> option R) : option R :=
  match s with
  | c :: s' =>
      if in_cls k c then
        match plus_from k g s' cont with
        | Some r => Some r
        | None => cont (MState (Some c) s' g)
        end
      else None
  | [] => None
  end.

(** Backtracking match of [r] at [st]; [cont] is the rest of the pattern. *)
Fixpoint exec {R} (r : regex) (st : mstate) (cont : mstate -> option R)
    : option R :=
  match r with
  | Eps => cont st
  | Chr c =>
      match rest st with
      | d :: s' =>
          if (c =? d)%N then cont (MState (Some d) s' (group st)) else None
      | [] => None
      end
  | WordBoundary => if at_boundary st then cont st else None
  | Seq r1 r2 => exec r1 st (fun st' => exec r2 st' cont)
  | Plus k => plus_from k (group st) (rest st) cont
  | Opt r1 =>
      match exec r1 st cont with
      | Some x => Some x
      | None => cont st
      end
  | Group r1 =>
      exec r1 st (fun st' =>
        cont (MState (before st') (rest st')
                     (Some (consumed (rest st) (rest st')))))
  end.

(** [pattern.match] at one position: the state after the match. *)
Definition match_at (r : regex) (prev : option N) (s : str) : option mstate :=
  exec r (MState prev s None) Some.

(** A match: the matched text and the captured group. *)
Record found : Type := Found { whole : str; captured : option str }.

(** The scan of [re.findall]: matches are taken left to right and do not
    overlap. [skip] counts the characters still covered by the last match. *)
Fixpoint scan (r : regex) (skip : nat) (prev : option N) (s : str)
    {struct s} : list found :=
  match skip with
  | S n =>
      match s with
      | [] => []
      | c :: s' => scan r n (Some c) s'
      end
  | O =>
      match match_at r prev s with
      | Some st =>
          let m := consumed s (rest st) in
          Found m (group st) ::
            match s with
            | [] => []
            | c :: s' => scan r (pred (length m)) (Some c) s'
            end
      | None =>
          match s with
          | [] => []
          | c :: s' => scan r 0 (Some c) s'
          end
      end
  end.

Definition finditer (r : regex) (s : str) : list found := scan r 0 None s.

(** [re.findall(r, s)]: the group of each match when the pattern has one,
    the matched text otherwise. *)
Definition findall (r : regex) (s : str) : list str :=
  map (fun m => match captured m with Some g => g | None => whole m end)
      (finditer r s).
End Matcher.

End Re.

(** [x > y] on floats. *)
Definition Qgtb (x y : Q) : bool := negb (Qle_bool x y).

(** ** content_analyzer.py *)

Module ContentAnalyzer.
Import PyStr Re.

Inductive document_type : Type :=
  | documento_general
  | documento_normativo_adres
  | documento_adres
  | documento_legal
  | documento_vacio.

(** The value of [palabras_clave_adres]. [_create_empty_analysis] leaves the
    density out. *)
Record AdresKeywords : Type := {
  palabras_encontradas : gmap str nat;
  total_coincidencias : nat;
  densidad_keywords : option Q
}.

(** The value of [palabras_clave_legales]. *)
Record LegalKeywords : Type := {
  terminos_legales : gmap str nat;
  normas_identificadas : gmap str (gset str)
}.

Record Criterios : Type := {
  densidad_adres : Q;
  criterio_terminos_legales : nat;     (* key 'terminos_legales' *)
  tiene_normas : bool
}.

(** The value of [clasificacion]. [_create_empty_analysis] gives the first
    three keys only. *)
Record Classification : Type := {
  tipo_documento : document_type;
  confianza : Q;
  es_documento_adres : bool;
  es_documento_legal : option bool;
  criterios_clasificacion : option Criterios
}.

(** The analysis dictionary. The entries [estadisticas_basicas],
    [estructura_documento] and [metadata_extraccion] are left out:
    [_classify_document] reads none of them, and the functions that compute
    them take no part in the results below. [clasificacion] is absent until
    [analyze_content] stores it. *)
Record Analysis : Type := {
  palabras_clave_adres : AdresKeywords;
  palabras_clave_legales : LegalKeywords;
  clasificacion : option Classification
}.

Definition adres_keywords : list str :=
  map py [ "adres"; "administradora"; "recursos"; "seguridad social";
           "salud"; "resolución"; "concepto"; "normograma";
           "eps"; "ips"; "prestadores"; "afiliados"; "cobertura";
           "pago"; "reclamaciones"; "tutela"; "derecho"; "fundamental" ]%string.

Definition legal_keywords : list str :=
  map py [ "decreto"; "ley"; "resolución"; "circular"; "concepto";
           "jurisprudencia"; "normativa"; "reglamento"; "disposición";
           "artículo"; "parágrafo"; "inciso"; "literal" ]%string.

(** [r'\b' + re.escape(keyword) + r'\b'] *)
Definition keyword_pattern (keyword : str) : regex :=
  Seq WordBoundary (Seq (literal keyword) WordBoundary).

(** [keyword\s+(?:número\s+)?(\d+)] *)
Definition norm_pattern (keyword : str) : regex :=
  Seq (literal keyword)
    (Seq (Plus ClsSpace)
       (Seq (Opt (Seq (literal (py "número")) (Plus ClsSpace)))
          (Group (Plus ClsDigit)))).

Definition norm_patterns : list (str * regex) :=
  [ (py "resoluciones", norm_pattern (py "resolución"));
    (py "decretos", norm_pattern (py "decreto"));
    (py "leyes", norm_pattern (py "ley"));
    (py "articulos", norm_pattern (py "artículo")) ].

Section Analyzer.
Context `{UCD}.

(** [len(re.findall(r'\b' + re.escape(keyword.lower()) + r'\b', text_lower))] *)
Definition count_keyword (keyword text_lower : str) : nat :=
  length (findall (keyword_pattern (lower keyword)) text_lower).

(** One turn of the loop of [_find_adres_keywords]. *)
Definition count_adres (text_lower : str) (acc : gmap str nat * nat)
    (keyword : str) : gmap str nat * nat :=
  let '(found_keywords, total_matches) := acc in
  let count := count_keyword keyword text_lower in
  if (0 <? count)%nat
  then (<[keyword := count]> found_keywords, (total_matches + count)%nat)
  else (found_keywords, total_matches).

Definition _find_adres_keywords (text : str) : AdresKeywords :=
  let text_lower := lower text in
  let '(found_keywords, total_matches) :=
    fold_left (count_adres text_lower) adres_keywords (∅, 0%nat) in
  {| palabras_encontradas := found_keywords;
     total_coincidencias := total_matches;
     densidad_keywords :=
       Some (match split text with
             | [] => 0%Q
             | _ :: _ =>
                 (inject_Z (Z.of_nat total_matches)
                  / inject_Z (Z.of_nat (length (split text)))) * 100
             end)%Q |}.

(** One turn of the first loop of [_find_legal_keywords]. *)
Definition count_legal (text_lower : str) (found_keywords : gmap str nat)
    (keyword : str) : gmap str nat :=
  let count := count_keyword keyword text_lower in
  if (0 <? count)%nat then <[keyword := count]> found_keywords
  else found_keywords.

(** One turn of its second loop. *)
Definition find_norm (text_lower : str) (found_norms : gmap str (gset str))
    (entry : str * regex) : gmap str (gset str) :=
  let '(norm_type, pattern) := entry in
  let matches := findall pattern text_lower in
  match matches with
  | [] => found_norms
  | _ :: _ => <[norm_type := list_to_set matches]> found_norms
  end.

Definition _find_legal_keywords (text : str) : LegalKeywords :=
  let text_lower := lower text in
  {| terminos_legales := fold_left (count_legal text_lower) legal_keywords ∅;
     normas_identificadas := fold_left (find_norm text_lower) norm_patterns ∅ |}.
End Analyzer.

Definition _classify_document (analysis : Analysis) : result Classification :=
  match densidad_keywords (palabras_clave_adres analysis) with
  | None => Raise KeyError
  | Some adres_density =>
      let legal_terms := size (terminos_legales (palabras_clave_legales analysis)) in
      let has_norms :=
        bool_decide (normas_identificadas (palabras_clave_legales analysis) ≠ ∅) in
      let '(document_type, confidence) :=
        if Qgtb adres_density 2 && (3 <? legal_terms)%nat
        then (documento_normativo_adres, 0.9%Q)
        else if Qgtb adres_density 1
        then (documento_adres, 0.7%Q)
        else if (2 <? legal_terms)%nat || has_norms
        then (documento_legal, 0.6%Q)
        else (documento_general, 0.5%Q) in
      Return {| tipo_documento := document_type;
                confianza := confidence;
                es_documento_adres := Qgtb adres_density 0.5;
                es_documento_legal := Some ((1 <? legal_terms)%nat || has_norms);
                criterios_clasificacion :=
                  Some {| densidad_adres := adres_density;
                          criterio_terminos_legales := legal_terms;
                          tiene_normas := has_norms |} |}
  end.

Definition _create_empty_analysis : Analysis :=
  {| palabras_clave_adres :=
       {| palabras_encontradas := ∅;
          total_coincidencias := 0;
          densidad_keywords := None |};
     palabras_clave_legales :=
       {| terminos_legales := ∅; normas_identificadas := ∅ |};
     clasificacion :=
       Some {| tipo_documento := documento_vacio;
               confianza := 0.0%Q;
               es_documento_adres := false;
               es_documento_legal := None;
               criterios_clasificacion := None |} |}.

Section Analyze.
Context `{UCD}.

Definition analyze_content (text : str) (url : str) : result Analysis :=
  if negb (truthy text) || negb (truthy (strip text))
  then Return _create_empty_analysis
  else
    let analysis :=
      {| palabras_clave_adres := _find_adres_keywords text;
         palabras_clave_legales := _find_legal_keywords text;
         clasificacion := None |} in
    match _classify_document analysis with
    | inl e => Raise e
    | inr c =>
        Return {| palabras_clave_adres := palabras_clave_adres analysis;
                  palabras_clave_legales := palabras_clave_legales analysis;
                  clasificacion := Some c |}
    end.
End Analyze.

(** A database with nothing above Latin-1, to run the analyzer on texts
    that stay below code point 256. *)
Definition latin1_only : UCD :=
  {| ucd_lower := fun s => s;
     ucd_isalnum := fun _ => false;
     ucd_isdecimal := fun _ => false |}.

(** *** Statistics and key phrases

    [_analyze_basic_stats], whose result [analyze_content] stores under
    [estadisticas_basicas], with the two functions that it calls, and
    [extract_key_phrases]. *)

(** The class [[.!?]]. *)
Definition is_terminator (c : N) : bool :=
  (c =? 46)%N || (c =? 33)%N || (c =? 63)%N.

(** The length of the match of [[.!?]+\s+] at the head of [s], 0 when there
    is none. Both runs are greedy, and nothing is given back: a character
    of the first class is no space. *)
Definition sentence_end (s : str) : nat :=
  let marks := run_length is_terminator s in
  let spaces := run_length isspace (skipn marks s) in
  if (0 <? marks)%nat && (0 <? spaces)%nat then (marks + spaces)%nat
  else 0%nat.

Definition _split_sentences (text : str) : list str :=
  let sentences := split_matches sentence_end 0 [] text in
  map strip (List.filter (fun s => truthy (strip s)) sentences).

Definition _split_paragraphs (text : str) : list str :=
  let paragraphs := split_str [10%N; 10%N] text in
  map strip (List.filter (fun p => truthy (strip p)) paragraphs).

(** The value of [estadisticas_basicas]. *)
Record BasicStats : Type := {
  caracteres_total : nat;
  caracteres_sin_espacios : nat;
  palabras_total : nat;
  oraciones_total : nat;
  parrafos_total : nat;
  promedio_palabras_por_oracion : Q;
  promedio_caracteres_por_palabra : Q
}.

Definition _analyze_basic_stats (text : str) : BasicStats :=
  let words := split text in
  let sentences := _split_sentences text in
  let paragraphs := _split_paragraphs text in
  {| caracteres_total := length text;
     caracteres_sin_espacios := length (remove_char 32%N text);
     palabras_total := length words;
     oraciones_total := length sentences;
     parrafos_total := length paragraphs;
     promedio_palabras_por_oracion :=
       inject_Z (Z.of_nat (length words))
       / inject_Z (Z.of_nat (Nat.max (length sentences) 1));
     promedio_caracteres_por_palabra :=
       inject_Z (Z.of_nat (sum_list (map length words)))
       / inject_Z (Z.of_nat (Nat.max (length words) 1)) |}.

(** [Counter(items)]: the items with their counts, in the order in which
    each item first came. *)
Fixpoint counter_add (item : str) (counts : list (str * nat))
    : list (str * nat) :=
  match counts with
  | [] => [(item, 1%nat)]
  | (k, n) :: counts' =>
      if bool_decide (k = item) then (k, S n) :: counts'
      else (k, n) :: counter_add item counts'
  end.

Definition Counter (items : list str) : list (str * nat) :=
  fold_left (fun counts item => counter_add item counts) items [].

(** [l.sort(key=lambda x: x[1], reverse=True)]: by count, largest first;
    the sort is stable. *)
Fixpoint insert_by_count (x : str * nat) (sorted : list (str * nat))
    : list (str * nat) :=
  match sorted with
  | [] => [x]
  | y :: sorted' =>
      if (snd x <? snd y)%nat then y :: insert_by_count x sorted'
      else x :: sorted
  end.

Definition sort_by_count (l : list (str * nat)) : list (str * nat) :=
  fold_right insert_by_count [] l.

(** [l[:stop]] *)
Definition slice_to {A} (stop : Z) (l : list A) : list A :=
  if 0 <=? stop then firstn (Z.to_nat stop) l
  else firstn (length l - Z.to_nat (- stop)) l.

Section KeyPhrases.
Context `{UCD}.

(** [re.findall(r'\b\w+\b', s)]: the maximal runs of word characters.
    [word] holds the characters of the current run, last one first. *)
Fixpoint words_from (word : str) (s : str) : list str :=
  match s with
  | [] => match word with [] => [] | _ => [rev word] end
  | c :: s' =>
      if is_word c then words_from (c :: word) s'
      else match word with
           | [] => words_from [] s'
           | _ => rev word :: words_from [] s'
           end
  end.

Definition bigrams (words : list str) : list str :=
  map (fun i => nth i words [] ++ [32%N] ++ nth (S i) words [])
    (seq 0 (length words - 1)).

Definition trigrams (words : list str) : list str :=
  map (fun i => nth i words [] ++ [32%N] ++ nth (S i) words []
                ++ [32%N] ++ nth (S (S i)) words [])
    (seq 0 (length words - 2)).

(** The phrases that [extract_key_phrases] counts. *)
Definition phrases_of (text : str) : list str :=
  let words := words_from [] (lower text) in
  bigrams words ++ trigrams words.

Definition extract_key_phrases (text : str) (max_phrases : Z)
    : list (str * nat) :=
  if negb (truthy text) then []
  else
    let phrase_counts := Counter (phrases_of text) in
    let filtered_phrases :=
      List.filter (fun '(phrase, count) =>
                     (1 <? count)%nat && (5 <? length phrase)%nat)
        phrase_counts in
    slice_to max_phrases (sort_by_count filtered_phrases).
End KeyPhrases.

End ContentAnalyzer.

(** ** The part of BeautifulSoup that the scraper uses *)

Module Soup.
Import PyStr.

#[local] Set Warnings "-register-all".

(** A parsed document. Only the strings that [get_text] returns are nodes of
    the tree; an attribute holds the text written in the page. *)
Inductive node : Type :=
  | NavigableString (s : str)
  | Tag (name : str) (attrs : list (str * str)) (contents : list node).

(** The [BeautifulSoup] object: the top-level nodes of the document. *)
Abbreviation soup := (list node).

Definition contents_of (n : node) : list node :=
  match n with
  | NavigableString _ => []
  | Tag _ _ cs => cs
  end.

(** The tags of a subtree in document order, its root first. *)
Fixpoint tags (n : node) : list node :=
  match n with
  | NavigableString _ => []
  | Tag _ _ cs => n :: flat_map tags cs
  end.

(** [tag.descendants], tags only. *)
Definition descendant_tags (cs : list node) : list node := flat_map tags cs.

Fixpoint lookup_attr (key : str) (attrs : list (str * str)) : option str :=
  match attrs with
  | [] => None
  | (k, v) :: attrs' =>
      if bool_decide (k = key) then Some v else lookup_attr key attrs'
  end.

(** One entry of the [attrs] argument of [find]. The value of [class] is a
    list of names: one of them, or all of them joined, has to be the value
    asked for. *)
Definition attr_matches (attrs : list (str * str)) (wanted : str * str) : bool :=
  let '(key, value) := wanted in
  match lookup_attr key attrs with
  | None => false
  | Some v =>
      if bool_decide (key = py "class")
      then existsb (fun c => bool_decide (c = value)) (split v)
           || bool_decide (join (py " ") (split v) = value)
      else bool_decide (v = value)
  end.

Definition tag_matches (name : str) (wanted : list (str * str)) (n : node) : bool :=
  match n with
  | NavigableString _ => false
  | Tag name' attrs _ =>
      bool_decide (name' = name) && forallb (attr_matches attrs) wanted
  end.

(** [x.find_all(name, attrs)] and [x.find(name, attrs)], [cs] being the
    contents of [x]. *)
Definition find_all (name : str) (wanted : list (str * str)) (cs : list node)
    : list node :=
  List.filter (tag_matches name wanted) (descendant_tags cs).

Definition find (name : str) (wanted : list (str * str)) (cs : list node)
    : option node :=
  head (find_all name wanted cs).

(** The strings below a node, in document order. *)
Fixpoint strings (n : node) : list str :=
  match n with
  | NavigableString s => [s]
  | Tag _ _ cs => flat_map strings cs
  end.

(** [n.get_text(separator, strip=True)] *)
Definition get_text_strip (separator : str) (n : node) : str :=
  join separator (List.filter truthy (map strip (strings n))).

(** The effect of [element.decompose()] on every descendant called [name]. *)
Fixpoint decompose_all (name : str) (n : node) : node :=
  match n with
  | NavigableString s => NavigableString s
  | Tag name' attrs cs =>
      Tag name' attrs
        ((fix keep (cs : list node) : list node :=
            match cs with
            | [] => []
            | c :: cs' =>
                if tag_matches name [] c then keep cs'
                else decompose_all name c :: keep cs'
            end) cs)
  end.

(** The contents of a tag after [decompose_all]: the children called [name]
    are gone, the others have lost their own descendants called [name]. *)
Fixpoint prune (name : str) (cs : list node) : list node :=
  match cs with
  | [] => []
  | c :: cs' =>
      if tag_matches name [] c then prune name cs'
      else decompose_all name c :: prune name cs'
  end.

End Soup.

(** ** settings.py *)

Module Settings.
Import PyStr.

Record EthicalConfig : Type := {
  delay_between_requests : Q;
  max_retries : Z;
  request_timeout : Z
}.

Record ScrapingConfig : Type := {
  allowed_domains : list str;
  ssl_verify : bool;
  max_content_size : Z
}.

Record URLsConfig : Type := {
  default_document_url : str
}.

Record Config : Type := {
  ethical : EthicalConfig;
  scraping : ScrapingConfig;
  urls : URLsConfig
}.

(** [Config()] *)
Definition default_config : Config :=
  {| ethical :=
       {| delay_between_requests := 3.0%Q;
          max_retries := 3;
          request_timeout := 30 |};
     scraping :=
       {| allowed_domains := map py [ "normograma.adres.gov.co"; "adres.gov.co" ]%string;
          ssl_verify := false;
          max_content_size := 10 * 1024 * 1024 |};
     urls :=
       {| default_document_url :=
            py "https://normograma.adres.gov.co/compilacion/docs/concepto_adres_20241209688471_2024.html" |} |}.

End Settings.

(** ** scraper.py *)

Module Scraper.
Import PyStr Soup Settings ContentAnalyzer.

(** What the scraper reads of a [requests.Response]. *)
Record Response : Type := {
  status_code : Z;
  content_length : Z;      (* len(response.content) *)
  text : str;              (* response.text *)
  content_type : str;      (* response.headers.get('content-type', '') *)
  server : str             (* response.headers.get('server', '') *)
}.

(** [response.raise_for_status()] *)
Definition raise_for_status (response : Response) : result unit :=
  if (400 <=? status_code response) && (status_code response <? 600)
  then Raise HTTPError else Return tt.

(** [bool(response)], that is [response.ok]. *)
Definition Response_bool (response : Response) : bool :=
  match raise_for_status response with
  | inl _ => false
  | inr _ => true
  end.

(** What lies outside the repository: the standard library's [urlparse],
    the HTML parser, the servers and the clock. [session_get n url] is the
    outcome of the call of [session.get] on [url] that comes after [n]
    earlier calls. [sleep_overflow seconds] tells that a length of [seconds]
    does not fit the type in which the interpreter counts time (in CPython
    3.11, beyond 2^63 nanoseconds either way). [sleep_error n seconds] is
    the exception, if any, with which the operating system refuses a wait
    of [seconds] after [n] earlier events. *)
Class Environment : Type := {
  urlparse_netloc : str -> result str;       (* urlparse(url).netloc *)
  BeautifulSoup : str -> result soup;        (* BeautifulSoup(text, 'lxml') *)
  session_get : nat -> str -> result Response;
  sleep_overflow : Q -> bool;
  sleep_error : nat -> Q -> option exception
}.

(** The call sites of [time.sleep]. *)
Inductive sleep_site : Type :=
  | PreRequest            (* scrape_document, first attempt *)
  | Backoff               (* scrape_document, a retry *)
  | BetweenDocuments.     (* scrape_multiple_documents *)

Inductive event : Type :=
  | Sleep (site : sleep_site) (seconds : Q)
  | Get (url : str).

(** The number of calls of [session.get] so far, and everything that
    happened, oldest first. *)
Record world : Type := World {
  requests : nat;
  trace : list event
}.

Definition M (A : Type) : Type := world -> result A * world.

Definition ret {A} (a : A) : M A := fun w => (Return a, w).

Definition bind {A B} (m : M A) (k : A -> M B) : M B :=
  fun w =>
    match m w with
    | (inr a, w') => k a w'
    | (inl e, w') => (Raise e, w')
    end.

Notation "'do' x <- m ; k" := (bind m (fun x => k))
  (at level 10, x name, m at level 100, k at level 200).

(** [raise e] or [return a], with no other effect. *)
Definition lift {A} (r : result A) : M A := fun w => (r, w).

(** The largest float: [sys.float_info.max]. *)
Definition float_max : Q := inject_Z (2 ^ 1024 - 2 ^ 971).

(** [delay * (2 ** attempt)], for a float [delay]. The integer is made a
    float first, which is an [OverflowError] from [2 ** 1024] on; below, the
    power of two is a float and the product is exact, unless it lies beyond
    the floats: it is the infinity then, which is here the rational product
    itself, above [float_max] or below its opposite. *)
Definition backoff (delay : Q) (attempt : Z) : result Q :=
  if 1024 <=? attempt then Raise OverflowError
  else Return (delay * inject_Z (2 ^ attempt))%Q.

(** [time.sleep(seconds)] for a float. The length is converted to the type
    in which time is counted first: an infinity is an [OverflowError], and
    so is a length that does not fit that type; then a negative length is a
    [ValueError]; then the process sleeps, unless the operating system
    refuses the wait. A float that is no number is left out. *)
Definition time_sleep `{Environment} (site : sleep_site) (seconds : Q)
    : M unit :=
  fun w =>
    if Qgtb seconds float_max || Qgtb (- float_max) seconds
       || sleep_overflow seconds
    then (Raise OverflowError, w)
    else if negb (Qle_bool 0 seconds)
    then (Raise ValueError, w)
    else
      match sleep_error (length (trace w)) seconds with
      | Some e => (Raise e, w)
      | None =>
          (Return tt, World (requests w) (trace w ++ [Sleep site seconds]))
      end.

(** The values of [error_type]. *)
Definition validation_error : str := py "validation_error".
Definition extraction_error : str := py "extraction_error".
Definition unknown_error : str := py "unknown_error".
Definition parsing_error : str := py "parsing_error".
Definition processing_error : str := py "processing_error".

Inductive error_message : Type :=
  | URL_no_valida                               (* "URL no válida o dominio no permitido" *)
  | Fallo_despues_de (intentos : Z) (e : exception)
  | Error_desconocido
  | Sin_contenedor_principal
  | Error_en_procesamiento (e : exception).

Record HttpMetadata : Type := {
  meta_status_code : Z;
  meta_content_type : str;
  meta_server : str;
  meta_content_length : Z
}.

(** The dictionary that a scrape returns; the two time stamps are left out. *)
Inductive ScrapeResult : Type :=
  | OK (url_original : str) (texto_completo : str)
       (longitud_caracteres longitud_palabras : nat)
       (intentos_realizados : Z) (analisis_contenido : Analysis)
       (metadatos_http : HttpMetadata)
  | ERROR (url_original : str) (error_type : str) (message : error_message).

Definition error_type_of (r : ScrapeResult) : option str :=
  match r with
  | ERROR _ kind _ => Some kind
  | OK _ _ _ _ _ _ _ => None
  end.

Definition intentos_realizados_of (r : ScrapeResult) : option Z :=
  match r with
  | OK _ _ _ _ n _ _ => Some n
  | ERROR _ _ _ => None
  end.

Definition _create_error_response (url : str) (message : error_message)
    (error_type : str) : ScrapeResult :=
  ERROR url error_type message.

Record selector : Type := {
  sel_tag : str;
  sel_attrs : option (str * str)
}.

Definition selectors : list selector :=
  [ {| sel_tag := py "main"; sel_attrs := None |};
    {| sel_tag := py "article"; sel_attrs := None |};
    {| sel_tag := py "div"; sel_attrs := Some (py "id", py "content") |};
    {| sel_tag := py "div"; sel_attrs := Some (py "class", py "content") |};
    {| sel_tag := py "div"; sel_attrs := Some (py "class", py "main-content") |};
    {| sel_tag := py "div"; sel_attrs := Some (py "class", py "document-content") |};
    {| sel_tag := py "div"; sel_attrs := Some (py "class", py "texto-concepto") |};
    {| sel_tag := py "div"; sel_attrs := Some (py "class", py "contenido-normograma") |};
    {| sel_tag := py "section"; sel_attrs := None |};
    {| sel_tag := py "div"; sel_attrs := Some (py "id", py "container") |};
    {| sel_tag := py "div"; sel_attrs := Some (py "class", py "container") |} ].

(** [soup.find(selector['tag'], selector['attrs'])] or
    [soup.find(selector['tag'])] *)
Definition find_selector (document : soup) (sel : selector) : option node :=
  match sel_attrs sel with
  | Some kv => find (sel_tag sel) [kv] document
  | None => find (sel_tag sel) [] document
  end.

(** The loop of [_find_main_container]. A tag is true whatever it holds. *)
Fixpoint first_container (document : soup) (sels : list selector) : option node :=
  match sels with
  | [] => None
  | sel :: sels' =>
      match find_selector document sel with
      | Some container =>
          if truthy (get_text_strip [] container) then Some container
          else first_container document sels'
      | None => first_container document sels'
      end
  end.

Definition _find_main_container (document : soup) : option node :=
  match first_container document selectors with
  | Some container => Some container
  | None => find (py "body") [] document
  end.

Definition unwanted_elements : list str :=
  map py [ "script"; "style"; "nav"; "header"; "footer"; "aside"; "noscript" ]%string.

Definition _extract_clean_text (container : node) : str :=
  let container :=
    fold_left (fun c element_type => decompose_all element_type c)
      unwanted_elements container in
  let text := get_text_strip [10%N] container in
  let lines :=
    map strip (List.filter (fun line => truthy (strip line)) (split_on 10%N text)) in
  join [10%N] lines.

Section Scraper.
Context `{UCD} `{Environment} (config : Config).

Definition _validate_url (url : str) : bool :=
  match urlparse_netloc url with
  | inr netloc =>
      existsb (fun domain => contains domain netloc)
        (allowed_domains (scraping config))
  | inl _ => false
  end.

Definition _make_request (url : str) : M (option Response) :=
  fun w =>
    let w' := World (S (requests w)) (trace w ++ [Get url]) in
    let attempt : result Response :=
      match session_get (requests w) url with
      | inl e => Raise e
      | inr response =>
          match raise_for_status response with
          | inl e => Raise e
          | inr _ =>
              if max_content_size (scraping config) <? content_length response
              then Raise ValueError
              else Return response
          end
      end in
    match attempt with
    | inr response => (Return (Some response), w')
    | inl e =>
        if is_RequestException e then (Return None, w')
        else if is_ValueError e then (Return None, w')
        else (Raise e, w')
    end.

Definition _process_response (response : Response) (url : str)
    (attempts : Z) : ScrapeResult :=
  let outcome : result ScrapeResult :=
    match BeautifulSoup (text response) with
    | inl e => Raise e
    | inr document =>
        match _find_main_container document with
        | None =>
            Return (_create_error_response url Sin_contenedor_principal
                      parsing_error)
        | Some main_container =>
            let extracted_text := _extract_clean_text main_container in
            match analyze_content extracted_text url with
            | inl e => Raise e
            | inr analysis =>
                Return
                  (OK url extracted_text (length extracted_text)
                     (length (split extracted_text)) attempts analysis
                     {| meta_status_code := status_code response;
                        meta_content_type := content_type response;
                        meta_server := server response;
                        meta_content_length := content_length response |})
            end
        end
    end in
  match outcome with
  | inr record => record
  | inl e =>
      _create_error_response url (Error_en_procesamiento e) processing_error
  end.

(** The [try] block of the loop of [scrape_document]: [Some record] when
    it returns from the function, [None] when it falls through. *)
Definition attempt_body (target_url : str) (attempt : Z)
    : M (option ScrapeResult) :=
  let delay_between_requests := delay_between_requests (ethical config) in
  do _ <- (if 0 <? attempt
      then do delay <- lift (backoff delay_between_requests attempt);
           time_sleep Backoff delay
      else time_sleep PreRequest delay_between_requests);
  do response <- _make_request target_url;
  match response with
  | Some response =>
      if Response_bool response
      then ret (Some (_process_response response target_url (attempt + 1)))
      else ret None
  | None => ret None
  end.

(** The loop, with [remaining] turns to go and [attempt] the loop variable. *)
Fixpoint attempts_from (target_url : str) (remaining : nat) (attempt : Z)
    : M ScrapeResult :=
  match remaining with
  | O => ret (_create_error_response target_url Error_desconocido unknown_error)
  | S remaining' =>
      fun w =>
        match attempt_body target_url attempt w with
        | (inr (Some record), w') => (Return record, w')
        | (inr None, w') => attempts_from target_url remaining' (attempt + 1) w'
        | (inl e, w') =>
            if attempt =? max_retries (ethical config)
            then (Return
                    (_create_error_response target_url
                       (Fallo_despues_de (max_retries (ethical config) + 1) e)
                       extraction_error), w')
            else attempts_from target_url remaining' (attempt + 1) w'
        end
  end.

(** [url or self.config.urls.default_document_url] *)
Definition target_url_of (url : option str) : str :=
  match url with
  | Some u => if truthy u then u else default_document_url (urls config)
  | None => default_document_url (urls config)
  end.

Definition scrape_document (url : option str) : M ScrapeResult :=
  let target_url := target_url_of url in
  if negb (_validate_url target_url)
  then ret (_create_error_response target_url URL_no_valida validation_error)
  else attempts_from target_url
         (Z.to_nat (max_retries (ethical config) + 1)) 0.

(** The loop of [scrape_multiple_documents] from the [i]-th URL on. *)
Fixpoint documents_from (total_urls : nat) (i : nat) (urls : list str)
    : M (list ScrapeResult) :=
  match urls with
  | [] => ret []
  | url :: urls' =>
      do result <- scrape_document (Some url);
      do _ <- (if (i <? total_urls)%nat
          then time_sleep BetweenDocuments (delay_between_requests (ethical config))
          else ret tt);
      do results <- documents_from total_urls (S i) urls';
      ret (result :: results)
  end.

Definition scrape_multiple_documents (urls : list str) : M (list ScrapeResult) :=
  documents_from (length urls) 1 urls.
End Scraper.

(** The state before anything has happened. *)
Definition initial : world := World 0 [].

End Scraper.

(** ** Whole-word occurrences, stated without patterns

    What "word-boundary-exact" counting means, for comparison with what
    [re.findall] returns on [keyword_pattern]. *)

Module WholeWords.
Import PyStr Re.

Definition last_or (k : str) (prev : option N) : option N :=
  match last k with
  | Some c => Some c
  | None => prev
  end.

Section WholeWords.
Context `{UCD}.

(** [k] stands at the head of [s] as a whole word: the character before it
    ([prev]) and the character after it are not word characters. *)
Definition whole_word_at (k : str) (prev : option N) (s : str) : bool :=
  negb (word_at prev) && startswith s k
  && negb (word_at (head (drop (length k) s))).

(** The number of positions of [s] at which [k] stands as a whole word. *)
Fixpoint whole_word_occurrences (k : str) (prev : option N) (s : str) : nat :=
  ((if whole_word_at k prev s then 1 else 0)
   + match s with
     | [] => 0
     | c :: s' => whole_word_occurrences k (Some c) s'
     end)%nat.

(** No suffix [k2] of [k], taken after the character [prev] of [k], lets [k]
    start as a whole word inside an occurrence of itself. *)
Fixpoint overlap_free_from (k : str) (prev : N) (k2 : str) : bool :=
  match k2 with
  | [] => true
  | c :: k2' =>
      (is_word prev || negb (startswith k k2)) && overlap_free_from k c k2'
  end.

(** [k] begins and ends with a word character, and two whole-word
    occurrences of it never overlap. *)
Definition standalone (k : str) : bool :=
  match k with
  | [] => false
  | c :: k' => is_word c && word_at (last k) && overlap_free_from k c k'
  end.
End WholeWords.

End WholeWords.

(** ** Vocabulary for the statements about the scraper *)

Module ScraperSpec.
Import PyStr Soup Settings Scraper.

(** The outcomes of one call of [session.get], as [_make_request] sorts
    them. *)
Definition succeeds_with (config : Config) (o : result Response)
    (response : Response) : Prop :=
  o = Return response /\
  raise_for_status response = Return tt /\
  content_length response <= max_content_size (scraping config).

Definition oversized (config : Config) (o : result Response) : Prop :=
  exists response,
    o = Return response /\
    raise_for_status response = Return tt /\
    max_content_size (scraping config) < content_length response.

Definition http_status_failure (o : result Response) : Prop :=
  o = Raise HTTPError \/
  exists response, o = Return response /\ 400 <= status_code response < 600.

Definition transport_failure (o : result Response) : Prop :=
  o = Raise TransportError.

(** A failure that [_make_request] turns into [None]. *)
Definition handled_failure (config : Config) (o : result Response) : Prop :=
  http_status_failure o \/ transport_failure o \/ o = Raise ValueError
  \/ oversized config o.

Definition fails (config : Config) (o : result Response) : Prop :=
  forall response, ~ succeeds_with config o response.

(** What [_make_request] does with the outcome of its call of
    [session.get]. *)
Definition request_result (config : Config) (o : result Response)
    : result (option Response) :=
  match o with
  | inl e =>
      if is_RequestException e || is_ValueError e then Return None else Raise e
  | inr response =>
      if Response_bool response
         && (content_length response <=? max_content_size (scraping config))
      then Return (Some response)
      else Return None
  end.

(** What a turn of the loop of [scrape_document] does with it. *)
Definition turn_result (process : Response -> ScrapeResult)
    (x : result (option Response)) : result (option ScrapeResult) :=
  match x with
  | inr (Some response) => Return (Some (process response))
  | inr None => Return None
  | inl e => Raise e
  end.

(** What one turn of the loop of [scrape_document] leaves in the trace. *)
Definition attempt_events (config : Config) (url : str) (attempt : Z)
    : list event :=
  [ if 0 <? attempt
    then Sleep Backoff
           (delay_between_requests (ethical config) * inject_Z (2 ^ attempt))
    else Sleep PreRequest (delay_between_requests (ethical config));
    Get url ].

(** The length of the wait that opens turn [attempt]. *)
Definition turn_wait (config : Config) (attempt : Z) : Q :=
  if 0 <? attempt
  then delay_between_requests (ethical config) * inject_Z (2 ^ attempt)
  else delay_between_requests (ethical config).

(** A length that fits the type in which time is counted: [time.sleep]
    raises no [OverflowError] for it. *)
Definition fits_clock `{Environment} (seconds : Q) : Prop :=
  (- float_max <= seconds)%Q /\ (seconds <= float_max)%Q /\
  sleep_overflow seconds = false.

(** [time.sleep] takes a wait of [seconds], whenever it is asked. *)
Definition sleeps `{Environment} (seconds : Q) : Prop :=
  (0 <= seconds)%Q /\ fits_clock seconds /\
  forall n, sleep_error n seconds = None.

(** The waits of [count] turns in a row, from turn [attempt] on, are taken:
    the power of two of each is a float, and [time.sleep] takes each. *)
Definition waits_taken `{Environment} (config : Config) (attempt : Z)
    (count : nat) : Prop :=
  forall i, (i < count)%nat ->
    attempt + Z.of_nat i < 1024 /\
    sleeps (turn_wait config (attempt + Z.of_nat i)).

(** The traces of [count] turns in a row, from turn [attempt] on. *)
Fixpoint attempts_events (config : Config) (url : str) (count : nat)
    (attempt : Z) : list event :=
  match count with
  | O => []
  | S count' =>
      attempt_events config url attempt
      ++ attempts_events config url count' (attempt + 1)
  end.

Definition is_between_documents (e : event) : bool :=
  match e with
  | Sleep BetweenDocuments _ => true
  | _ => false
  end.

Definition is_get (e : event) : bool :=
  match e with
  | Get _ => true
  | Sleep _ _ => false
  end.

(** The five values that the scraper gives to [error_type]. *)
Definition error_types : list str :=
  [ validation_error; extraction_error; unknown_error; parsing_error;
    processing_error ].

Section ScraperSpec.
Context `{UCD} `{Environment} (config : Config).

(** The record of a scrape whose URL passes validation. *)
Definition loop_record (target : str) (record : ScrapeResult) : Prop :=
  (exists response attempts,
     record = _process_response response target attempts) \/
  record = _create_error_response target Error_desconocido unknown_error \/
  (exists e,
     record = _create_error_response target
                (Fallo_despues_de (max_retries (ethical config) + 1) e)
                extraction_error).

(** Batch scraping as the specification words it: scrape each URL in turn,
    wait between two consecutive URLs, return every record. *)
Fixpoint scrape_many_spec (urls : list str) : M (list ScrapeResult) :=
  match urls with
  | [] => ret []
  | url :: rest =>
      do record <- scrape_document config (Some url);
      match rest with
      | [] => ret [record]
      | _ :: _ =>
          do _ <- time_sleep BetweenDocuments
                    (delay_between_requests (ethical config));
          do records <- scrape_many_spec rest;
          ret (record :: records)
      end
  end.
End ScraperSpec.

(** Container resolution read as: rules in order, and for each rule the
    first element, among all that match it, whose stripped text is not
    empty. *)
Definition first_with_text (candidates : list node) : option node :=
  head (List.filter (fun e => truthy (get_text_strip [] e)) candidates).

Definition find_all_selector (document : soup) (sel : selector) : list node :=
  match sel_attrs sel with
  | Some kv => find_all (sel_tag sel) [kv] document
  | None => find_all (sel_tag sel) [] document
  end.

Fixpoint first_match_with_text (document : soup) (sels : list selector)
    : option node :=
  match sels with
  | [] => None
  | sel :: sels' =>
      match first_with_text (find_all_selector document sel) with
      | Some e => Some e
      | None => first_match_with_text document sels'
      end
  end.

(** A rule that the loop of [_find_main_container] passes over: its
    element, if [find] gives one, has no text. *)
Definition passed_over (document : soup) (sel : selector) : Prop :=
  match find_selector document sel with
  | Some e => get_text_strip [] e = []
  | None => True
  end.

Definition resolve_any_match (document : soup) : option node :=
  match first_match_with_text document selectors with
  | Some e => Some e
  | None => find (py "body") [] document
  end.

(** The seconds that a trace spends in [time.sleep]. *)
Fixpoint slept (evs : list event) : Q :=
  match evs with
  | [] => 0
  | Sleep _ seconds :: evs' => seconds + slept evs'
  | Get _ :: evs' => slept evs'
  end.

(** An event that a scrape of [target] may leave in the trace. *)
Definition scrape_event (target : str) (e : event) : Prop :=
  e = Get target \/
  exists seconds, e = Sleep PreRequest seconds \/ e = Sleep Backoff seconds.

Definition url_original_of (r : ScrapeResult) : str :=
  match r with
  | OK u _ _ _ _ _ _ => u
  | ERROR u _ _ => u
  end.

(** An exception that [_make_request] does not catch. *)
Definition escapes (e : exception) : Prop :=
  is_RequestException e = false /\ is_ValueError e = false.

(** The tag names that the rules of [_find_main_container] ask for, and the
    name of its fallback. *)
Definition container_names : list str :=
  map py [ "main"; "article"; "div"; "section"; "body" ]%string.

End ScraperSpec.

(** ** Vocabulary for the statements about the analyzer *)

Module AnalyzerSpec.
Import PyStr Re ContentAnalyzer.

(** [sum(found.values())] *)
Definition sum_values (found : gmap str nat) : nat :=
  map_fold (fun _ count total => (count + total)%nat) 0%nat found.

(** The keys that [_find_legal_keywords] gives to the norms it finds. *)
Definition norm_types : list str :=
  map py [ "resoluciones"; "decretos"; "leyes"; "articulos" ]%string.

(** How many times [item] occurs in [items]. *)
Definition occurrences (item : str) (items : list str) : nat :=
  length (List.filter (fun x => bool_decide (x = item)) items).

(** The count that goes with [item], 0 when it has none. *)
Fixpoint count_of (item : str) (counts : list (str * nat)) : nat :=
  match counts with
  | [] => 0%nat
  | (k, n) :: counts' =>
      if bool_decide (k = item) then n else count_of item counts'
  end.

End AnalyzerSpec.

(** ** Sample inputs *)

Module Samples.
Import PyStr.

(** Forty words: one keyword of ADRES and four legal terms. *)
Definition normative_text : str :=
  py "La ADRES expide un decreto y una ley con circular y normativa para que todos los actores del sistema conozcan las reglas que aplican a cada uno de ellos en el giro de los dineros del sistema durante este periodo".

(** Enough of [urlparse] for URLs written [scheme://netloc/path]. *)
Fixpoint after_colon (s : str) : option str :=
  match s with
  | [] => None
  | c :: s' => if (c =? 58)%N then Some s' else after_colon s'
  end.

Fixpoint until_delimiter (s : str) : str :=
  match s with
  | [] => []
  | c :: s' =>
      if (c =? 47)%N || (c =? 63)%N || (c =? 35)%N then []
      else c :: until_delimiter s'
  end.

Definition sample_netloc (url : str) : result str :=
  match after_colon url with
  | Some (47%N :: 47%N :: s) => Return (until_delimiter s)
  | _ => Return []
  end.

Import Soup Scraper.

(** A page with one [main] element. *)
Definition page : soup :=
  [ Tag (py "html") []
      [ Tag (py "body") []
          [ Tag (py "main") []
              [ NavigableString (py "Resolución 123 de la ADRES") ] ] ] ].

(** A page whose first [main] element is empty. *)
Definition page_two_mains : soup :=
  [ Tag (py "html") []
      [ Tag (py "body") []
          [ Tag (py "main") [] [];
            Tag (py "main") [] [ NavigableString (py "Texto principal") ];
            Tag (py "div") [ (py "class", py "content") ]
              [ NavigableString (py "Otro texto") ] ] ] ].

Definition response_of (status : Z) (size : Z) : Response :=
  {| status_code := status;
     content_length := size;
     text := py "<html><body><main>Resolución 123 de la ADRES</main></body></html>";
     content_type := py "text/html";
     server := py "nginx" |}.

(** A clock that counts nanoseconds on 64 bits: a length beyond
    9223372036 seconds either way does not fit. *)
Definition sample_overflow (seconds : Q) : bool :=
  Qgtb seconds 9223372036 || Qgtb (- 9223372036) seconds.

(** Servers described by the outcome of each call of [session.get]. *)
Definition served (script : nat -> result Response) : Environment :=
  {| urlparse_netloc := sample_netloc;
     BeautifulSoup := fun _ => Return page;
     session_get := fun n _ => script n;
     sleep_overflow := sample_overflow;
     sleep_error := fun _ _ => None |}.

(** The first request times out, the second is answered 503, the others
    are answered. *)
Definition flaky_server : Environment :=
  served (fun n =>
            match n with
            | O => Raise TransportError
            | S O => Return (response_of 503 512)
            | _ => Return (response_of 200 2048)
            end).

Definition healthy_server : Environment :=
  served (fun _ => Return (response_of 200 2048)).

(** Every answer is one byte above 10 MiB. *)
Definition oversized_server : Environment :=
  served (fun _ => Return (response_of 200 (10 * 1024 * 1024 + 1))).

Definition unavailable_server : Environment :=
  served (fun _ => Return (response_of 503 512)).

Definition unreachable_server : Environment :=
  served (fun _ => Raise TransportError).

Definition adres_url : str := py "https://normograma.adres.gov.co/docs/resolucion_1.htm".
Definition other_adres_url : str := py "https://www.adres.gov.co/normativa".
Definition evil_url : str := py "https://evil.example.com/docs/resolucion_1.htm".

Import Settings ContentAnalyzer.

(** The default configuration with another delay, and with another number
    of retries. *)
Definition with_delay (delay : Q) : Config :=
  {| ethical :=
       {| delay_between_requests := delay;
          max_retries := max_retries (ethical default_config);
          request_timeout := request_timeout (ethical default_config) |};
     scraping := scraping default_config;
     urls := urls default_config |}.

Definition with_max_retries (retries : Z) : Config :=
  {| ethical :=
       {| delay_between_requests := delay_between_requests (ethical default_config);
          max_retries := retries;
          request_timeout := request_timeout (ethical default_config) |};
     scraping := scraping default_config;
     urls := urls default_config |}.

(** Every request raises an exception that is no [RequestException]. *)
Definition broken_server : Environment :=
  served (fun _ => Raise OtherException).

(** A container with a script in it. *)
Definition main_with_script : node :=
  Tag (py "main") []
    [ Tag (py "script") [] [ NavigableString (py "var x = 1;") ];
      Tag (py "p") [] [ NavigableString (py "  Texto  ") ] ].

Definition law_text : str := py "La Ley 100 y el decreto 1438".

(** An analysis with a density of 1.5 and no legal term. *)
Definition sample_analysis : Analysis :=
  {| palabras_clave_adres :=
       {| palabras_encontradas := ∅;
          total_coincidencias := 3;
          densidad_keywords := Some 1.5%Q |};
     palabras_clave_legales :=
       {| terminos_legales := ∅; normas_identificadas := ∅ |};
     clasificacion := None |}.

Definition sample_classification : Classification :=
  {| tipo_documento := documento_adres;
     confianza := 0.7%Q;
     es_documento_adres := true;
     es_documento_legal := Some false;
     criterios_clasificacion :=
       Some {| densidad_adres := 1.5%Q;
               criterio_terminos_legales := 0;
               tiene_normas := false |} |}.

(** A page whose body holds spaces only. *)
Definition blank_page : soup :=
  [ Tag (py "html") []
      [ Tag (py "body") [] [ NavigableString (py "   ") ] ] ].

Definition blank_server : Environment :=
  {| urlparse_netloc := sample_netloc;
     BeautifulSoup := fun _ => Return blank_page;
     session_get := fun _ _ => Return (response_of 200 2048);
     sleep_overflow := sample_overflow;
     sleep_error := fun _ _ => None |}.

End Samples.

(** * Properties *)

Import PyStr Re ContentAnalyzer WholeWords Soup Settings Scraper ScraperSpec Samples.
Import AnalyzerSpec.

(** ** Strings *)

Lemma Qgtb_true (x y : Q) : Qgtb x y = true <-> (y < x)%Q.
Proof.
  unfold Qgtb. rewrite negb_true_iff, <- not_true_iff_false, Qle_bool_iff.
  split; [apply Qnot_le_lt | apply Qlt_not_le].
Qed.

Lemma Qgtb_false (x y : Q) : Qgtb x y = false <-> (x <= y)%Q.
Proof. unfold Qgtb. rewrite negb_false_iff. apply Qle_bool_iff. Qed.

Lemma lstrip_blank (s : str) : forallb isspace s = true -> lstrip s = [].
Proof.
  induction s as [|c s IH]; simpl; [reflexivity|].
  intros [Hc Hs]%andb_true_iff. rewrite Hc. auto.
Qed.

Lemma lstrip_cons (s : str) (c : N) (s' : str) :
  lstrip s = c :: s' -> isspace c = false.
Proof.
  induction s as [|d s IH]; simpl; [discriminate|].
  destruct (isspace d) eqn:Hd; [assumption|].
  intros [= <- _]. assumption.
Qed.

Lemma lstrip_nil (s : str) : lstrip s = [] -> forallb isspace s = true.
Proof.
  induction s as [|c s IH]; simpl; [reflexivity|].
  destruct (isspace c); [assumption | discriminate].
Qed.

Lemma forallb_rev {A} (f : A -> bool) (l : list A) :
  forallb f (rev l) = forallb f l.
Proof.
  induction l as [|a l IH]; simpl; [reflexivity|].
  rewrite forallb_app, IH. simpl. rewrite andb_true_r. apply andb_comm.
Qed.

(** [s.strip()] is empty exactly when [s] holds nothing but whitespace. *)
Lemma strip_nil_iff (s : str) : strip s = [] <-> forallb isspace s = true.
Proof.
  unfold strip, rstrip. split.
  - intros Hs. destruct (lstrip s) as [|c t] eqn:Hl; [now apply lstrip_nil|].
    exfalso.
    assert (Hr : lstrip (rev (c :: t)) = []).
    { destruct (lstrip (rev (c :: t))) as [|h u]; [reflexivity|].
      simpl in Hs. destruct (rev u); discriminate. }
    apply lstrip_nil in Hr. rewrite forallb_rev in Hr. simpl in Hr.
    apply lstrip_cons in Hl. rewrite Hl in Hr. discriminate.
  - intros Hs. now rewrite (lstrip_blank s Hs).
Qed.

Lemma Forall_forallb {A} (f : A -> bool) (l : list A) :
  Forall (fun x => f x = true) l <-> forallb f l = true.
Proof.
  induction l as [|a l IH]; simpl.
  - split; [reflexivity | constructor].
  - rewrite andb_true_iff, <- IH. split.
    + intros Hl. inversion Hl; subst. now split.
    + intros [Ha Hl]. now constructor.
Qed.

(** The guard [not text or not text.strip()]. *)
Lemma empty_guard (s : str) :
  negb (truthy s) || negb (truthy (strip s)) = forallb isspace s.
Proof.
  destruct (forallb isspace s) eqn:Hs.
  - apply strip_nil_iff in Hs. rewrite Hs. simpl. apply orb_true_r.
  - destruct s as [|c s]; [discriminate|].
    destruct (strip (c :: s)) eqn:Ht; [|reflexivity].
    apply strip_nil_iff in Ht. congruence.
Qed.

(** ** Patterns *)

Lemma startswith_nil (s : str) : startswith s [] = true.
Proof. now destruct s. Qed.

Lemma startswith_app (s k : str) :
  startswith s k = true <-> exists post, s = k ++ post.
Proof.
  revert s. induction k as [|c k IH]; intros s.
  - rewrite startswith_nil. split; [intros _; now exists s | reflexivity].
  - destruct s as [|d s]; simpl;
      [split; [discriminate | intros [post Hp]; discriminate]|].
    rewrite andb_true_iff, N.eqb_eq, IH. split.
    + intros [-> [post ->]]. now exists post.
    + intros [post [= -> ->]]. split; [reflexivity | now exists post].
Qed.

Lemma startswith_self_app (k post : str) : startswith (k ++ post) k = true.
Proof. apply startswith_app. now exists post. Qed.

(** A prefix of [a ++ b] that is at least as long as [a] starts with [a]. *)
Lemma startswith_app_l (a b k : str) :
  startswith (a ++ b) k = true -> (length a <= length k)%nat ->
  startswith k a = true.
Proof.
  revert k. induction a as [|c a IH]; intros k Hs Hl;
    [apply startswith_nil|].
  destruct k as [|d k]; [simpl in Hl; lia|].
  simpl in Hs, Hl |- *. apply andb_true_iff in Hs as [Hc Hs].
  apply N.eqb_eq in Hc. subst d. rewrite N.eqb_refl. simpl.
  apply IH; [assumption | lia].
Qed.

Lemma last_or_cons (c : N) (k : str) (prev : option N) :
  last_or (c :: k) prev = last_or k (Some c).
Proof. unfold last_or. rewrite last_cons. now destruct (last k). Qed.

Section PatternFacts.
Context `{UCD}.

(** A literal matches exactly its own text. *)
Lemma exec_literal {R} (k : str) (st : mstate) (cont : mstate -> option R) :
  exec (literal k) st cont =
    if startswith (rest st) k
    then cont (MState (last_or k (before st)) (drop (length k) (rest st))
                 (group st))
    else None.
Proof.
  revert st. induction k as [|c k IH]; intros [prev s g]; simpl.
  - now rewrite startswith_nil.
  - destruct s as [|d s]; [reflexivity|]. simpl.
    destruct (N.eqb_spec c d) as [->|Hne]; [|reflexivity].
    rewrite IH. simpl. now rewrite last_or_cons.
Qed.

(** [\b k \b] matches at a position exactly when [k] stands there as a
    whole word, and the match is [k] itself. *)
Lemma match_at_keyword (k : str) (prev : option N) (s : str) :
  word_at (head k) = true -> word_at (last k) = true ->
  match_at (keyword_pattern k) prev s =
    if whole_word_at k prev s
    then Some (MState (last k) (drop (length k) s) None)
    else None.
Proof.
  intros Hh Hl. unfold match_at, keyword_pattern, whole_word_at.
  cbn [exec]. rewrite exec_literal. cbn [rest before group exec].
  destruct (startswith s k) eqn:Hs.
  - apply startswith_app in Hs as [post ->].
    destruct k as [|c k]; [discriminate|].
    unfold at_boundary. cbn [before rest].
    replace (head ((c :: k) ++ post)) with (head (c :: k)) by reflexivity.
    rewrite Hh, drop_app_length.
    unfold last_or. destruct (last (c :: k)) as [e|] eqn:He; [|discriminate].
    cbn [word_at] in Hl |- *. rewrite Hl.
    rewrite ?xorb_true_r, ?xorb_true_l, ?andb_true_r.
    now destruct (word_at prev), (word_at (head post)).
  - rewrite andb_false_r. cbn [andb]. now destruct (at_boundary _).
Qed.

Lemma scan_0 (r : regex) (prev : option N) (s : str) :
  scan r 0 prev s =
    match match_at r prev s with
    | Some st =>
        Found (consumed s (rest st)) (group st) ::
          match s with
          | [] => []
          | c :: s' => scan r (pred (length (consumed s (rest st)))) (Some c) s'
          end
    | None =>
        match s with
        | [] => []
        | c :: s' => scan r 0 (Some c) s'
        end
    end.
Proof. now destruct s. Qed.

(** The characters covered by the last match are passed over. *)
Lemma scan_skip (r : regex) (t : str) (post : str) (c : N) :
  scan r (length t) (Some c) (t ++ post) = scan r 0 (last_or t (Some c)) post.
Proof.
  revert c. induction t as [|a t IH]; intros c; [reflexivity|].
  cbn [length app scan]. now rewrite IH, last_or_cons.
Qed.

(** Inside a whole-word occurrence of a standalone keyword no other one
    starts. *)
Lemma no_occurrence_inside (k : str) (p : N) (k2 post : str) :
  overlap_free_from k p k2 = true -> (length k2 < length k)%nat ->
  whole_word_occurrences k (Some p) (k2 ++ post) =
  whole_word_occurrences k (last_or k2 (Some p)) post.
Proof.
  revert p. induction k2 as [|a k2 IH]; intros p Hf Hl; [reflexivity|].
  cbn [overlap_free_from] in Hf. apply andb_true_iff in Hf as [Hp Hf].
  cbn [app whole_word_occurrences].
  assert (Hw : whole_word_at k (Some p) (a :: k2 ++ post) = false).
  { unfold whole_word_at. cbn [word_at].
    destruct (is_word p); [reflexivity|]. cbn [orb negb andb] in Hp |- *.
    destruct (startswith (a :: k2 ++ post) k) eqn:Hs; [|reflexivity].
    apply (startswith_app_l (a :: k2) post k) in Hs; [|lia].
    rewrite Hs in Hp. discriminate. }
  rewrite Hw, last_or_cons. cbn [length] in Hl.
  rewrite IH; [reflexivity | assumption | lia].
Qed.

(** What [finditer] finds for [\b k \b] are the whole-word occurrences of
    [k], each once. *)
Lemma scan_keyword_count (k : str) (n : nat) :
  standalone k = true ->
  forall (prev : option N) (s : str), (length s <= n)%nat ->
    length (scan (keyword_pattern k) 0 prev s) = whole_word_occurrences k prev s.
Proof.
  intros Hk. destruct k as [|c k]; [discriminate|].
  cbn [standalone] in Hk.
  apply andb_true_iff in Hk as [Hk Hf]. apply andb_true_iff in Hk as [Hh Hl].
  assert (Hnil : forall prev, whole_word_at (c :: k) prev [] = false).
  { intros prev. unfold whole_word_at. simpl. now rewrite andb_false_r. }
  induction n as [|n IH]; intros prev s Hn.
  - destruct s; [|simpl in Hn; lia].
    rewrite scan_0, match_at_keyword by assumption.
    cbn [whole_word_occurrences]. now rewrite Hnil.
  - rewrite scan_0, match_at_keyword by assumption.
    destruct s as [|d s].
    + cbn [whole_word_occurrences]. now rewrite Hnil.
    + cbn [whole_word_occurrences].
      destruct (whole_word_at (c :: k) prev (d :: s)) eqn:Hw.
      * cbn [rest length]. f_equal.
        unfold whole_word_at in Hw.
        apply andb_true_iff in Hw as [Hw _].
        apply andb_true_iff in Hw as [_ Hs].
        apply startswith_app in Hs as [post Hs].
        injection Hs as -> ->.
        assert (Hc : consumed (c :: k ++ post)
                       (drop (S (length k)) (c :: k ++ post)) = c :: k).
        { unfold consumed.
          change (drop (S (length k)) (c :: k ++ post))
            with (drop (length k) (k ++ post)).
          rewrite drop_app_length.
          replace (length (c :: k ++ post) - length post)%nat
            with (length (c :: k)) by (simpl; rewrite length_app; lia).
          change (c :: k ++ post) with ((c :: k) ++ post).
          apply take_app_length. }
        rewrite Hc.
        cbn [length Nat.pred].
        rewrite scan_skip, IH.
        2:{ simpl in Hn. rewrite length_app in Hn. lia. }
        symmetry. apply no_occurrence_inside; [assumption | simpl; lia].
      * cbn [Nat.add]. apply IH. simpl in Hn. lia.
Qed.

(** The count of a standalone keyword is the number of its whole-word
    occurrences in the lower-cased text. *)
Lemma count_keyword_whole_words (keyword text_lower : str) :
  standalone (lower keyword) = true ->
  count_keyword keyword text_lower =
    whole_word_occurrences (lower keyword) None text_lower.
Proof.
  intros Hk. unfold count_keyword, findall, finditer.
  rewrite length_map.
  now apply (scan_keyword_count (lower keyword) (length text_lower)).
Qed.

(** Every keyword of the two vocabularies is in lower case and standalone. *)
Lemma vocabulary_standalone :
  forallb (fun k => bool_decide (lower k = k) && standalone k)
    (adres_keywords ++ legal_keywords) = true.
Proof. vm_compute. reflexivity. Qed.
End PatternFacts.

(** ** The analyzer *)

Section AnalyzerFacts.
Context `{UCD}.

Lemma analyze_content_blank_eq (text url : str) :
  forallb isspace text = true ->
  analyze_content text url = Return _create_empty_analysis.
Proof. intros Hb. unfold analyze_content. now rewrite empty_guard, Hb. Qed.

Lemma analyze_content_text_eq (text url : str) :
  forallb isspace text = false ->
  analyze_content text url =
    match _classify_document
            {| palabras_clave_adres := _find_adres_keywords text;
               palabras_clave_legales := _find_legal_keywords text;
               clasificacion := None |} with
    | inl e => Raise e
    | inr c =>
        Return {| palabras_clave_adres := _find_adres_keywords text;
                  palabras_clave_legales := _find_legal_keywords text;
                  clasificacion := Some c |}
    end.
Proof. intros Hb. unfold analyze_content. now rewrite empty_guard, Hb. Qed.

Lemma find_adres_keywords_density (text : str) :
  exists d, densidad_keywords (_find_adres_keywords text) = Some d.
Proof.
  unfold _find_adres_keywords.
  destruct (fold_left _ _ _) as [found total]. simpl. eauto.
Qed.

Lemma first_row_iff (d : Q) (n : nat) :
  Qgtb d 2 && (3 <? n)%nat = true <-> (2 < d)%Q /\ (3 < n)%nat.
Proof. now rewrite andb_true_iff, Qgtb_true, Nat.ltb_lt. Qed.

Lemma third_row_iff (n : nat) (norms : gmap str (gset str)) :
  (2 <? n)%nat || bool_decide (norms <> ∅) = true <->
  (2 < n)%nat \/ norms <> ∅.
Proof. now rewrite orb_true_iff, Nat.ltb_lt, bool_decide_eq_true. Qed.

#[local] Instance Qlt_decision (x y : Q) : Decision (x < y)%Q.
Proof.
  destruct (Qlt_le_dec x y) as [Hlt|Hle]; [left | right]; [assumption|].
  now apply Qle_not_lt.
Defined.

Ltac pick_disjunct :=
  first [ reflexivity | left; reflexivity | right; pick_disjunct ].

(** The conditions of the table are decidable. *)
Definition classic_row (P : Prop) `{Decision P} : P \/ ~ P :=
  match decide P with left p => or_introl p | right n => or_intror n end.

(** The table of [_classify_document], row by row. *)
Lemma classify_document_table (analysis : Analysis) (d : Q) :
  densidad_keywords (palabras_clave_adres analysis) = Some d ->
  exists c,
    _classify_document analysis = Return c /\
    let n := size (terminos_legales (palabras_clave_legales analysis)) in
    let norms := normas_identificadas (palabras_clave_legales analysis) in
    ((2 < d)%Q /\ (3 < n)%nat ->
       tipo_documento c = documento_normativo_adres /\ confianza c = 0.9%Q) /\
    (~ ((2 < d)%Q /\ (3 < n)%nat) -> (1 < d)%Q ->
       tipo_documento c = documento_adres /\ confianza c = 0.7%Q) /\
    (~ ((2 < d)%Q /\ (3 < n)%nat) -> ~ (1 < d)%Q ->
     (2 < n)%nat \/ norms <> ∅ ->
       tipo_documento c = documento_legal /\ confianza c = 0.6%Q) /\
    (~ ((2 < d)%Q /\ (3 < n)%nat) -> ~ (1 < d)%Q ->
     ~ ((2 < n)%nat \/ norms <> ∅) ->
       tipo_documento c = documento_general /\ confianza c = 0.5%Q).
Proof.
  intros Hd. unfold _classify_document. rewrite Hd.
  set (n := size _). set (norms := normas_identificadas _).
  pose proof (first_row_iff d n) as R1.
  pose proof (Qgtb_true d 1) as R2.
  pose proof (third_row_iff n norms) as R3.
  destruct (Qgtb d 2 && (3 <? n)%nat);
    destruct (Qgtb d 1);
    destruct ((2 <? n)%nat || bool_decide (norms <> ∅));
    eexists; (split; [reflexivity|]); cbn [tipo_documento confianza];
    repeat match goal with |- _ /\ _ => split end;
    intros;
    first [ split; reflexivity | exfalso; intuition discriminate ].
Qed.

(** C1: for a text that [analyze_content] does not take for empty
    ([text.strip()] is not empty) the classification is read off the table
    in this order: density above 2 with more than 3 legal terms gives
    [documento_normativo_adres] at 0.9; otherwise density above 1 gives
    [documento_adres] at 0.7; otherwise more than 2 legal terms or an
    identified norm gives [documento_legal] at 0.6; otherwise
    [documento_general] at 0.5. Density and terms are those that
    [_find_adres_keywords] and [_find_legal_keywords] compute on the text.
    A density of 2.5 with 4 legal terms gives [documento_normativo_adres]
    at 0.9. *)
Theorem classification_decision_table (text url : str) :
  strip text <> [] ->
  exists a c d,
    analyze_content text url = Return a /\
    palabras_clave_adres a = _find_adres_keywords text /\
    palabras_clave_legales a = _find_legal_keywords text /\
    clasificacion a = Some c /\
    densidad_keywords (_find_adres_keywords text) = Some d /\
    let n := size (terminos_legales (_find_legal_keywords text)) in
    let norms := normas_identificadas (_find_legal_keywords text) in
    ((2 < d)%Q /\ (3 < n)%nat ->
       tipo_documento c = documento_normativo_adres /\ confianza c = 0.9%Q) /\
    (~ ((2 < d)%Q /\ (3 < n)%nat) -> (1 < d)%Q ->
       tipo_documento c = documento_adres /\ confianza c = 0.7%Q) /\
    (~ ((2 < d)%Q /\ (3 < n)%nat) -> ~ (1 < d)%Q ->
     (2 < n)%nat \/ norms <> ∅ ->
       tipo_documento c = documento_legal /\ confianza c = 0.6%Q) /\
    (~ ((2 < d)%Q /\ (3 < n)%nat) -> ~ (1 < d)%Q ->
     ~ ((2 < n)%nat \/ norms <> ∅) ->
       tipo_documento c = documento_general /\ confianza c = 0.5%Q) /\
    ((d == 2.5)%Q -> n = 4%nat ->
       tipo_documento c = documento_normativo_adres /\ confianza c = 0.9%Q).
Proof.
  intros Hne.
  assert (Hb : forallb isspace text = false).
  { destruct (forallb isspace text) eqn:Hb; [|reflexivity].
    apply strip_nil_iff in Hb. contradiction. }
  destruct (find_adres_keywords_density text) as [d Hd].
  rewrite (analyze_content_text_eq text url Hb).
  revert Hd.
  generalize (_find_adres_keywords text) (_find_legal_keywords text).
  intros ak lk Hd.
  destruct (classify_document_table
              {| palabras_clave_adres := ak;
                 palabras_clave_legales := lk;
                 clasificacion := None |} d Hd)
    as (c & Hc & R1 & R2 & R3 & R4).
  cbn [palabras_clave_adres palabras_clave_legales] in R1, R2, R3, R4.
  rewrite Hc.
  eexists _, c, d.
  split; [reflexivity|].
  cbn [palabras_clave_adres palabras_clave_legales clasificacion].
  repeat (split; [first [reflexivity | assumption]|]).
  intros Hd25 Hn. apply R1. split; [rewrite Hd25; reflexivity | lia].
Qed.

(** C10: whatever the text, the confidence of the classification is one of
    0.0, 0.5, 0.6, 0.7 and 0.9, hence between 0 and 1, and it is 0.0 exactly
    when the text is empty or holds only whitespace. *)
Theorem confidence_values (text url : str) :
  exists a c,
    analyze_content text url = Return a /\
    clasificacion a = Some c /\
    (confianza c = 0.0%Q \/ confianza c = 0.5%Q \/ confianza c = 0.6%Q \/
     confianza c = 0.7%Q \/ confianza c = 0.9%Q) /\
    (0 <= confianza c)%Q /\ (confianza c <= 1)%Q /\
    (confianza c = 0.0%Q <-> Forall (fun ch => isspace ch = true) text).
Proof.
  destruct (forallb isspace text) eqn:Hb.
  - exists _create_empty_analysis. eexists.
    split; [now apply analyze_content_blank_eq|].
    split; [reflexivity|]. cbn [confianza].
    split; [now left|]. split; [discriminate|]. split; [discriminate|].
    split; [intros _; now apply Forall_forallb | reflexivity].
  - destruct (find_adres_keywords_density text) as [d Hd].
    rewrite (analyze_content_text_eq text url Hb).
    revert Hd.
    generalize (_find_adres_keywords text) (_find_legal_keywords text).
    intros ak lk Hd.
    destruct (classify_document_table
                {| palabras_clave_adres := ak;
                   palabras_clave_legales := lk;
                   clasificacion := None |} d Hd)
      as (c & Hc & R1 & R2 & R3 & R4).
    cbn [palabras_clave_adres palabras_clave_legales] in R1, R2, R3, R4.
    rewrite Hc. eexists _, c.
    split; [reflexivity|]. split; [reflexivity|].
    assert (Hv : confianza c = 0.5%Q \/ confianza c = 0.6%Q \/
                 confianza c = 0.7%Q \/ confianza c = 0.9%Q).
    { destruct (classic_row ((2 < d)%Q /\ (3 < size (terminos_legales lk))%nat))
        as [H1|H1]; [destruct (R1 H1) as [_ ->]; pick_disjunct|].
      destruct (classic_row (1 < d)%Q) as [H2|H2];
        [destruct (R2 H1 H2) as [_ ->]; pick_disjunct|].
      destruct (classic_row ((2 < size (terminos_legales lk))%nat \/
                             normas_identificadas lk <> ∅)) as [H3|H3];
        [destruct (R3 H1 H2 H3) as [_ ->]; pick_disjunct
        |destruct (R4 H1 H2 H3) as [_ ->]; pick_disjunct]. }
    clear R1 R2 R3 R4 Hc Hd.
    split; [now right|].
    split; [destruct Hv as [-> | [-> | [-> | ->]]]; discriminate|].
    split; [destruct Hv as [-> | [-> | [-> | ->]]]; discriminate|].
    split.
    + intros H0. destruct Hv as [Hv | [Hv | [Hv | Hv]]];
        rewrite Hv in H0; discriminate.
    + intros Hall. apply Forall_forallb in Hall. congruence.
Qed.

Lemma count_adres_step (text_lower : str) (found : gmap str nat)
    (total : nat) (k0 : str) :
  count_adres text_lower (found, total) k0 =
    (if (0 <? count_keyword k0 text_lower)%nat
     then <[k0:=count_keyword k0 text_lower]> found else found,
     (total + count_keyword k0 text_lower)%nat).
Proof.
  unfold count_adres.
  destruct (Nat.ltb_spec 0 (count_keyword k0 text_lower)); [reflexivity|].
  f_equal. lia.
Qed.

Lemma bool_decide_elem_of_cons_ne (k k0 : str) (kws : list str) :
  k <> k0 -> bool_decide (k ∈ k0 :: kws) = bool_decide (k ∈ kws).
Proof.
  intros Hne. apply bool_decide_ext. rewrite elem_of_cons. tauto.
Qed.

Lemma bool_decide_elem_of_cons_eq (k0 : str) (kws : list str) :
  bool_decide (k0 ∈ k0 :: kws) = true.
Proof. apply bool_decide_eq_true_2. now left. Qed.

(** The dictionary and the total that the loop of [_find_adres_keywords]
    builds. *)
Lemma fold_count_adres (text_lower : str) (kws : list str)
    (found : gmap str nat) (total : nat) :
  let count := fun k => count_keyword k text_lower in
  let r := fold_left (count_adres text_lower) kws (found, total) in
  r.2 = (total + sum_list (map count kws))%nat /\
  forall k, r.1 !! k =
    if bool_decide (k ∈ kws) && (0 <? count k)%nat then Some (count k)
    else found !! k.
Proof.
  cbv zeta. revert found total.
  induction kws as [|k0 kws IH]; intros found total.
  - split; [simpl; lia | reflexivity].
  - cbn [fold_left map sum_list]. rewrite count_adres_step.
    destruct (IH (if (0 <? count_keyword k0 text_lower)%nat
                  then <[k0:=count_keyword k0 text_lower]> found else found)
                 (total + count_keyword k0 text_lower)%nat) as [IHt IHf].
    split; [rewrite IHt; unfold id; lia|].
    intros k. rewrite IHf. destruct (decide (k = k0)) as [->|Hne].
    + rewrite bool_decide_elem_of_cons_eq. cbn [andb].
      destruct (0 <? count_keyword k0 text_lower)%nat.
      * rewrite lookup_insert_eq. now destruct (bool_decide _).
      * now rewrite andb_false_r.
    + rewrite (bool_decide_elem_of_cons_ne k k0 kws Hne).
      destruct (0 <? count_keyword k0 text_lower)%nat; [|reflexivity].
      now rewrite lookup_insert_ne by congruence.
Qed.

(** The dictionary that the first loop of [_find_legal_keywords] builds. *)
Lemma fold_count_legal (text_lower : str) (kws : list str)
    (found : gmap str nat) :
  let count := fun k => count_keyword k text_lower in
  forall k, fold_left (count_legal text_lower) kws found !! k =
    if bool_decide (k ∈ kws) && (0 <? count k)%nat then Some (count k)
    else found !! k.
Proof.
  cbv zeta. revert found.
  induction kws as [|k0 kws IH]; intros found k; [reflexivity|].
  cbn [fold_left]. rewrite IH. unfold count_legal.
  destruct (decide (k = k0)) as [->|Hne].
  - rewrite bool_decide_elem_of_cons_eq. cbn [andb].
    destruct (0 <? count_keyword k0 text_lower)%nat.
    + rewrite lookup_insert_eq. now destruct (bool_decide _).
    + now rewrite andb_false_r.
  - rewrite (bool_decide_elem_of_cons_ne k k0 kws Hne).
    destruct (0 <? count_keyword k0 text_lower)%nat; [|reflexivity].
    now rewrite lookup_insert_ne by congruence.
Qed.

Lemma find_adres_keywords_fold (text : str) :
  palabras_encontradas (_find_adres_keywords text) =
    (fold_left (count_adres (lower text)) adres_keywords (∅, 0%nat)).1 /\
  total_coincidencias (_find_adres_keywords text) =
    (fold_left (count_adres (lower text)) adres_keywords (∅, 0%nat)).2 /\
  densidad_keywords (_find_adres_keywords text) =
    Some (if (length (split text) =? 0)%nat then 0
          else inject_Z (Z.of_nat (total_coincidencias (_find_adres_keywords text)))
               / inject_Z (Z.of_nat (length (split text))) * 100)%Q.
Proof.
  unfold _find_adres_keywords.
  destruct (fold_left _ _ _) as [found total].
  cbn [palabras_encontradas total_coincidencias densidad_keywords fst snd].
  repeat split. now destruct (split text).
Qed.

(** C8: the count of a keyword is the number of places where it stands as a
    whole word in the lower-cased text; a keyword is in the per-keyword
    result exactly when its count is positive, with that count; the total is
    the sum of the counts; the density is the total divided by the number
    of whitespace-separated words, times 100 (0 without words); texts that
    differ in case only have the same counts; ["eps"] is counted once in
    ["eps"] and in ["EPS"], and not at all in ["epsilon"]. *)
Theorem keyword_counting (text : str) :
  let found := _find_adres_keywords text in
  let legal := _find_legal_keywords text in
  let count := fun k => count_keyword k (lower text) in
  (forall k, k ∈ adres_keywords ++ legal_keywords ->
     count k = whole_word_occurrences k None (lower text)) /\
  (forall k, palabras_encontradas found !! k =
     if bool_decide (k ∈ adres_keywords) && (0 <? count k)%nat
     then Some (count k) else None) /\
  (forall k, terminos_legales legal !! k =
     if bool_decide (k ∈ legal_keywords) && (0 <? count k)%nat
     then Some (count k) else None) /\
  total_coincidencias found = sum_list (map count adres_keywords) /\
  densidad_keywords found =
    Some (if (length (split text) =? 0)%nat then 0
          else inject_Z (Z.of_nat (total_coincidencias found))
               / inject_Z (Z.of_nat (length (split text))) * 100)%Q /\
  (forall text', lower text' = lower text ->
     palabras_encontradas (_find_adres_keywords text')
       = palabras_encontradas found /\
     total_coincidencias (_find_adres_keywords text')
       = total_coincidencias found /\
     terminos_legales (_find_legal_keywords text') = terminos_legales legal) /\
  count_keyword (py "eps") (lower (py "eps")) = 1%nat /\
  count_keyword (py "eps") (lower (py "EPS")) = 1%nat /\
  count_keyword (py "eps") (lower (py "epsilon")) = 0%nat /\
  palabras_encontradas (_find_adres_keywords (py "eps")) !! py "eps" = Some 1%nat /\
  palabras_encontradas (_find_adres_keywords (py "epsilon")) !! py "eps" = None.
Proof.
  cbv zeta.
  destruct (find_adres_keywords_fold text) as (Hf & Ht & Hd).
  destruct (fold_count_adres (lower text) adres_keywords ∅ 0) as [Hsum Hlook].
  cbv zeta in Hsum, Hlook.
  split.
  { intros k Hk.
    pose proof vocabulary_standalone as Hv.
    rewrite forallb_forall in Hv.
    apply list_elem_of_In, Hv in Hk.
    apply andb_true_iff in Hk as [Hlow Hst].
    apply bool_decide_eq_true in Hlow.
    rewrite count_keyword_whole_words by now rewrite Hlow.
    now rewrite Hlow. }
  split.
  { intros k. rewrite Hf, Hlook. now rewrite lookup_empty. }
  split.
  { intros k. unfold _find_legal_keywords. cbn [terminos_legales].
    rewrite fold_count_legal. now rewrite lookup_empty. }
  split; [now rewrite Ht, Hsum|].
  split; [exact Hd|].
  split.
  { intros text' Hl.
    destruct (find_adres_keywords_fold text') as (Hf' & Ht' & _).
    rewrite Hf', Ht', Hf, Ht, Hl.
    repeat split. unfold _find_legal_keywords. cbn [terminos_legales].
    now rewrite Hl. }
  repeat split; vm_compute; reflexivity.
Qed.

(** C7: for a text that is empty or holds only whitespace,
    [analyze_content] raises nothing and returns the analysis of
    [_create_empty_analysis], whose classification is [documento_vacio]
    with confidence 0.0. *)
Theorem analyze_content_empty (text url : str) :
  Forall (fun c => isspace c = true) text ->
  exists a c,
    analyze_content text url = Return a /\
    a = _create_empty_analysis /\
    clasificacion a = Some c /\
    tipo_documento c = documento_vacio /\
    confianza c = 0.0%Q.
Proof.
  intros Hb. apply Forall_forallb in Hb.
  eexists _, _. split; [now apply analyze_content_blank_eq|].
  repeat split.
Qed.
End AnalyzerFacts.

Lemma analyze_content_empty_witness :
  Forall (fun c => isspace c = true) [32%N; 9%N; 10%N; 160%N] /\
  exists a c,
    @analyze_content latin1_only [32%N; 9%N; 10%N; 160%N] (py "https://adres.gov.co/")
      = Return a /\
    a = _create_empty_analysis /\
    clasificacion a = Some c /\
    tipo_documento c = documento_vacio /\
    confianza c = 0.0%Q.
Proof.
  assert (Hb : Forall (fun c => isspace c = true) [32%N; 9%N; 10%N; 160%N])
    by (repeat constructor).
  split; [exact Hb|].
  exact (@analyze_content_empty latin1_only _ _ Hb).
Defined.

Lemma classification_decision_table_witness :
  strip normative_text <> [] /\
  exists a c,
    @analyze_content latin1_only normative_text (py "https://adres.gov.co/") = Return a /\
    clasificacion a = Some c /\
    densidad_keywords (palabras_clave_adres a) = Some (100 # 40)%Q /\
    size (terminos_legales (palabras_clave_legales a)) = 4%nat /\
    tipo_documento c = documento_normativo_adres /\
    confianza c = 0.9%Q.
Proof.
  assert (Hne : strip normative_text <> []) by (vm_compute; discriminate).
  split; [exact Hne|].
  destruct (@classification_decision_table latin1_only normative_text
              (py "https://adres.gov.co/") Hne)
    as (a & c & d & Ha & Hak & Hlk & Hc & Hd & _ & _ & _ & _ & Hex).
  exists a, c.
  split; [exact Ha|]. split; [exact Hc|].
  assert (Hd' : @densidad_keywords (@_find_adres_keywords latin1_only normative_text)
                = Some (100 # 40)%Q) by (vm_compute; reflexivity).
  assert (Hn : size (terminos_legales (@_find_legal_keywords latin1_only normative_text))
               = 4%nat) by (vm_compute; reflexivity).
  rewrite Hak, Hlk.
  split; [exact Hd'|]. split; [exact Hn|].
  rewrite Hd' in Hd. injection Hd as <-.
  apply Hex; [reflexivity | exact Hn].
Defined.

Lemma keyword_counting_witness :
  palabras_encontradas (@_find_adres_keywords latin1_only (py "La EPS y la epsilon"))
    !! py "eps" = Some 1%nat.
Proof.
  destruct (@keyword_counting latin1_only (py "La EPS y la epsilon"))
    as (_ & Hfound & _).
  rewrite Hfound. vm_compute. reflexivity.
Defined.

(** ** The scraper *)

Lemma time_sleep_ok `{Environment} (site : sleep_site) (seconds : Q)
    (w : world) :
  sleeps seconds ->
  time_sleep site seconds w =
    (Return tt, World (requests w) (trace w ++ [Sleep site seconds])).
Proof.
  intros (Hs & (Hlo & Hhi & Hov) & Herr). unfold time_sleep, Qgtb.
  rewrite (proj2 (Qle_bool_iff _ _) Hhi), (proj2 (Qle_bool_iff _ _) Hlo), Hov,
    (proj2 (Qle_bool_iff 0 seconds) Hs), Herr.
  reflexivity.
Qed.

(** Whatever the length, [time.sleep] sends no request and leaves at most
    its own wait in the trace. *)
Lemma time_sleep_world `{Environment} (site : sleep_site) (seconds : Q)
    (w : world) :
  exists x evs,
    time_sleep site seconds w = (x, World (requests w) (trace w ++ evs)) /\
    (evs = [] \/ evs = [Sleep site seconds]).
Proof.
  unfold time_sleep.
  destruct (_ || _ || _);
    [exists (Raise OverflowError), []; rewrite app_nil_r; destruct w; auto|].
  destruct (negb _);
    [exists (Raise ValueError), []; rewrite app_nil_r; destruct w; auto|].
  destruct (sleep_error _ _) as [e|];
    [exists (Raise e), []; rewrite app_nil_r; destruct w; auto|].
  eexists _, _. split; [reflexivity|]. now right.
Qed.

(** A negative length is refused, and the world is left as it was; the
    exception is the [ValueError] when the length fits the clock. *)
Lemma time_sleep_negative `{Environment} (site : sleep_site) (seconds : Q)
    (w : world) :
  (seconds < 0)%Q ->
  exists e,
    time_sleep site seconds w = (Raise e, w) /\
    (e = ValueError \/ e = OverflowError) /\
    (fits_clock seconds -> e = ValueError).
Proof.
  intros Hs. unfold time_sleep.
  assert (Hb : Qle_bool 0 seconds = false).
  { destruct (Qle_bool 0 seconds) eqn:Hb; [|reflexivity].
    apply Qle_bool_iff in Hb. now apply Qle_not_lt in Hb. }
  rewrite Hb. cbn [negb].
  destruct (_ || _ || _) eqn:Ho.
  - exists OverflowError. split; [reflexivity|]. split; [now right|].
    intros (Hlo & Hhi & Hov). unfold Qgtb in Ho.
    rewrite (proj2 (Qle_bool_iff _ _) Hhi), (proj2 (Qle_bool_iff _ _) Hlo), Hov
      in Ho.
    discriminate.
  - exists ValueError. split; [reflexivity|]. split; [now left | reflexivity].
Qed.

Lemma waits_taken_head `{Environment} (config : Config) (attempt : Z)
    (count : nat) :
  waits_taken config attempt (S count) ->
  attempt < 1024 /\ sleeps (turn_wait config attempt).
Proof.
  intros Hw. specialize (Hw 0%nat ltac:(lia)).
  now rewrite Z.add_0_r in Hw.
Qed.

Lemma waits_taken_tail `{Environment} (config : Config) (attempt : Z)
    (count : nat) :
  waits_taken config attempt (S count) ->
  waits_taken config (attempt + 1) count.
Proof.
  intros Hw i Hi. specialize (Hw (S i) ltac:(lia)).
  now replace (attempt + 1 + Z.of_nat i) with (attempt + Z.of_nat (S i)) by lia.
Qed.

Lemma waits_taken_le `{Environment} (config : Config) (attempt : Z)
    (count k : nat) :
  (k <= count)%nat ->
  waits_taken config attempt count -> waits_taken config attempt k.
Proof. intros Hk Hw i Hi. apply Hw. lia. Qed.

Lemma Response_bool_status (response : Response) :
  Response_bool response = true <-> raise_for_status response = Return tt.
Proof.
  unfold Response_bool, raise_for_status.
  destruct ((400 <=? status_code response) && (status_code response <? 600));
    split; intros; (reflexivity || discriminate).
Qed.

Lemma raise_for_status_error (response : Response) :
  400 <= status_code response < 600 <->
  raise_for_status response = Raise HTTPError.
Proof.
  unfold raise_for_status.
  destruct (Z.leb_spec 400 (status_code response));
    destruct (Z.ltb_spec (status_code response) 600); cbn [andb];
    split; intros; first [reflexivity | discriminate | lia].
Qed.

Lemma raise_for_status_cases (response : Response) :
  raise_for_status response = Return tt \/
  raise_for_status response = Raise HTTPError.
Proof. unfold raise_for_status. destruct (_ && _); auto. Qed.

Section RequestFacts.
Context (config : Config).

Lemma request_result_succeeds (o : result Response) (response : Response) :
  succeeds_with config o response ->
  request_result config o = Return (Some response).
Proof.
  intros (-> & Hs & Hl). unfold request_result.
  rewrite (proj2 (Response_bool_status response) Hs).
  now rewrite (proj2 (Z.leb_le _ _) Hl).
Qed.

Lemma request_result_some (o : result Response) (response : Response) :
  request_result config o = Return (Some response) ->
  succeeds_with config o response.
Proof.
  unfold request_result, succeeds_with. destruct o as [e|r].
  - destruct (_ || _); discriminate.
  - destruct (Response_bool r) eqn:Hb; [|discriminate].
    destruct (Z.leb_spec (content_length r) (max_content_size (scraping config)));
      [|discriminate].
    intros [= ->]. apply Response_bool_status in Hb. auto.
Qed.

Lemma request_result_handled (o : result Response) :
  handled_failure config o -> request_result config o = Return None.
Proof.
  unfold request_result.
  intros [[-> | (r & -> & Hst)] | [-> | [-> | (r & -> & Hs & Hl)]]];
    try reflexivity.
  - apply raise_for_status_error in Hst.
    destruct (Response_bool r) eqn:Hb; [|reflexivity].
    apply Response_bool_status in Hb. congruence.
  - destruct (Z.leb_spec (content_length r) (max_content_size (scraping config)));
      [lia|]. now rewrite andb_false_r.
Qed.

Lemma request_result_fails (o : result Response) :
  fails config o ->
  request_result config o = Return None \/
  exists e, request_result config o = Raise e.
Proof.
  intros Hf. destruct (request_result config o) as [e|[r|]] eqn:Hr; eauto.
  apply request_result_some in Hr. now apply Hf in Hr.
Qed.
End RequestFacts.

Section ScraperFacts.
Context `{UCD} `{Environment} (config : Config).

Let delay := delay_between_requests (ethical config).

Lemma make_request_eq (url : str) (w : world) :
  _make_request config url w =
    (request_result config (session_get (requests w) url),
     World (S (requests w)) (trace w ++ [Get url])).
Proof.
  unfold _make_request, request_result.
  destruct (session_get (requests w) url) as [e|r].
  - destruct e; reflexivity.
  - unfold Response_bool.
    destruct (raise_for_status_cases r) as [-> | ->]; [|reflexivity].
    cbn [andb].
    rewrite Z.leb_antisym.
    now destruct (max_content_size (scraping config) <? content_length r).
Qed.

(** One turn of the loop: the wait, the request, and what comes of it. *)
Lemma attempt_body_eq (target : str) (attempt : Z) (w : world) :
  attempt < 1024 ->
  sleeps (turn_wait config attempt) ->
  attempt_body config target attempt w =
    (turn_result (fun r => _process_response r target (attempt + 1))
       (request_result config (session_get (requests w) target)),
     World (S (requests w)) (trace w ++ attempt_events config target attempt)).
Proof.
  intros Ha Hd.
  unfold attempt_body, bind, attempt_events, lift, backoff.
  unfold turn_wait in Hd.
  assert (Hw : forall site seconds u,
             trace w ++ [Sleep site seconds; Get u]
             = (trace w ++ [Sleep site seconds]) ++ [Get u])
    by (intros; now rewrite <- app_assoc).
  rewrite (proj2 (Z.leb_gt 1024 attempt)) by lia.
  destruct (0 <? attempt);
    rewrite time_sleep_ok by assumption;
    rewrite make_request_eq; cbn [requests trace]; rewrite Hw;
    (destruct (request_result config (session_get (requests w) target))
       as [e|[r|]] eqn:Hr; [reflexivity| |reflexivity]);
    apply request_result_some in Hr as (_ & Hs & _);
    apply Response_bool_status in Hs; rewrite Hs; reflexivity.
Qed.

(** A record that leaves the loop early was made by [_process_response]. *)
Lemma attempt_body_some (target : str) (attempt : Z) (w w' : world)
    (record : ScrapeResult) :
  attempt_body config target attempt w = (Return (Some record), w') ->
  exists response, record = _process_response response target (attempt + 1).
Proof.
  unfold attempt_body, bind, lift, backoff.
  destruct (0 <? attempt);
    [destruct (1024 <=? attempt); [discriminate|]|];
    (destruct (time_sleep _ _ w) as [[e|[]] w1]; [discriminate|]);
    (destruct (_make_request config target w1) as [[e|[r|]] w2];
     [discriminate| |discriminate]);
    (destruct (Response_bool r); [|discriminate]);
    intros [= <- _]; now exists r.
Qed.

Lemma attempts_from_step (target : str) (remaining : nat) (attempt : Z)
    (w : world) :
  attempt < 1024 ->
  sleeps (turn_wait config attempt) ->
  attempts_from config target (S remaining) attempt w =
    let w' := World (S (requests w))
                (trace w ++ attempt_events config target attempt) in
    match request_result config (session_get (requests w) target) with
    | inr (Some r) => (Return (_process_response r target (attempt + 1)), w')
    | inr None => attempts_from config target remaining (attempt + 1) w'
    | inl e =>
        if attempt =? max_retries (ethical config)
        then (Return
                (_create_error_response target
                   (Fallo_despues_de (max_retries (ethical config) + 1) e)
                   extraction_error), w')
        else attempts_from config target remaining (attempt + 1) w'
    end.
Proof.
  intros Ha Hd. cbn [attempts_from]. rewrite attempt_body_eq by assumption.
  now destruct (request_result config (session_get (requests w) target))
    as [e|[r|]].
Qed.

(** A turn whose request fails, and that is not the last one, leads to the
    next turn. *)
Lemma attempts_from_failed_turn (target : str) (remaining : nat)
    (attempt : Z) (w : world) :
  attempt < 1024 ->
  sleeps (turn_wait config attempt) ->
  fails config (session_get (requests w) target) ->
  attempt <> max_retries (ethical config) ->
  attempts_from config target (S remaining) attempt w =
    attempts_from config target remaining (attempt + 1)
      (World (S (requests w))
         (trace w ++ attempt_events config target attempt)).
Proof.
  intros Ha Hd Hf Hlast. rewrite attempts_from_step by assumption. cbv zeta.
  destruct (request_result_fails config _ Hf) as [-> | [e ->]]; [reflexivity|].
  now rewrite (proj2 (Z.eqb_neq _ _) Hlast).
Qed.

(** A turn whose request succeeds ends the loop. *)
Lemma attempts_from_success_turn (target : str) (remaining : nat)
    (attempt : Z) (w : world) (response : Response) :
  attempt < 1024 ->
  sleeps (turn_wait config attempt) ->
  succeeds_with config (session_get (requests w) target) response ->
  attempts_from config target (S remaining) attempt w =
    (Return (_process_response response target (attempt + 1)),
     World (S (requests w))
       (trace w ++ attempt_events config target attempt)).
Proof.
  intros Ha Hd Hs. rewrite attempts_from_step by assumption. cbv zeta.
  now rewrite (request_result_succeeds config _ _ Hs).
Qed.

(** When every request meets a failure that [_make_request] handles, and
    the waits are taken, all the turns are used and the record is the one
    after the loop. *)
Lemma attempts_from_all_handled (target : str) (remaining : nat) :
  forall (attempt : Z) (w : world),
    waits_taken config attempt remaining ->
    (forall i, (i < remaining)%nat ->
       handled_failure config (session_get (requests w + i) target)) ->
    attempts_from config target remaining attempt w =
      (Return (_create_error_response target Error_desconocido unknown_error),
       World (requests w + remaining)
         (trace w ++ attempts_events config target remaining attempt)).
Proof.
  induction remaining as [|n IH]; intros attempt w Hw Hall.
  - cbn [attempts_from attempts_events ret].
    rewrite Nat.add_0_r, app_nil_r. now destruct w.
  - destruct (waits_taken_head _ _ _ Hw) as [Ha Hd].
    rewrite attempts_from_step by assumption. cbv zeta.
    assert (Hfirst := Hall 0%nat ltac:(lia)). rewrite Nat.add_0_r in Hfirst.
    rewrite (request_result_handled config _ Hfirst).
    rewrite IH.
    + cbn [requests trace attempts_events].
      rewrite <- app_assoc. do 2 f_equal. lia.
    + now apply waits_taken_tail.
    + intros i Hi. cbn [requests].
      replace (S (requests w) + i)%nat with (requests w + S i)%nat by lia.
      apply Hall. lia.
Qed.

(** The loop always ends with a record. *)
Lemma attempts_from_returns (target : str) (remaining : nat) :
  forall (attempt : Z) (w : world),
  exists record w',
    attempts_from config target remaining attempt w = (Return record, w') /\
    loop_record config target record.
Proof.
  induction remaining as [|n IH]; intros attempt w.
  - eexists _, _. split; [reflexivity|]. right. now left.
  - cbn [attempts_from].
    destruct (attempt_body config target attempt w) as [[e|[record|]] w1] eqn:Hb.
    + destruct (attempt =? max_retries (ethical config)).
      * eexists _, _. split; [reflexivity|]. right. right. now exists e.
      * apply IH.
    + apply attempt_body_some in Hb as [r ->].
      eexists _, _. split; [reflexivity|]. left. eauto.
    + apply IH.
Qed.

Lemma existsb_none {A} (f : A -> bool) (l : list A) :
  (forall x, In x l -> f x = false) -> existsb f l = false.
Proof.
  induction l as [|a l IH]; intros Hl; [reflexivity|].
  cbn [existsb]. rewrite (Hl a) by now left.
  apply IH. intros x Hx. apply Hl. now right.
Qed.

Lemma analyze_content_returns (text url : str) :
  exists a, analyze_content text url = Return a.
Proof.
  destruct (forallb isspace text) eqn:Hb.
  - rewrite analyze_content_blank_eq by assumption. eauto.
  - rewrite analyze_content_text_eq by assumption.
    destruct (find_adres_keywords_density text) as [d Hd].
    destruct (classify_document_table
                {| palabras_clave_adres := _find_adres_keywords text;
                   palabras_clave_legales := _find_legal_keywords text;
                   clasificacion := None |} d Hd) as (c & -> & _).
    eauto.
Qed.

(** A record of [_process_response] carries the number of attempts that it
    was given, or one of its own two errors. *)
Lemma process_response_record (response : Response) (url : str) (attempts : Z) :
  match _process_response response url attempts with
  | OK u _ _ _ n _ _ => u = url /\ n = attempts
  | ERROR u kind _ => u = url /\ (kind = parsing_error \/ kind = processing_error)
  end.
Proof.
  unfold _process_response.
  destruct (BeautifulSoup (text response)) as [e|document]; [now split; [|right]|].
  destruct (_find_main_container document) as [container|];
    [|now split; [|left]].
  destruct (analyze_content (_extract_clean_text container) url) as [e|a];
    [now split; [|right] | now split].
Qed.

Lemma process_response_ok (response : Response) (url : str) (attempts : Z)
    (document : soup) (container : node) :
  BeautifulSoup (text response) = Return document ->
  _find_main_container document = Some container ->
  intentos_realizados_of (_process_response response url attempts)
    = Some attempts.
Proof.
  intros Hd Hc. unfold _process_response. rewrite Hd, Hc.
  destruct (analyze_content_returns (_extract_clean_text container) url)
    as [a ->]. reflexivity.
Qed.

(** C4: when the network location of the URL to scrape holds none of the
    allowed domains, [scrape_document] returns the [validation_error] record
    and leaves the world as it was: no request, no wait, whatever
    [max_retries] is. The URL to scrape is the one given, or the default
    document when none (or an empty one) is given. *)
Theorem scrape_document_foreign_domain (url : option str) (w : world) :
  (forall netloc,
     urlparse_netloc (target_url_of config url) = Return netloc ->
     forall domain, In domain (allowed_domains (scraping config)) ->
       contains domain netloc = false) ->
  scrape_document config url w =
    (Return (ERROR (target_url_of config url) validation_error URL_no_valida), w)
  /\ (forall u, url = Some u -> u <> [] -> target_url_of config url = u).
Proof.
  intros Hforeign. split.
  - unfold scrape_document, _validate_url.
    destruct (urlparse_netloc (target_url_of config url)) as [e|netloc] eqn:Hn;
      [reflexivity|].
    rewrite existsb_none; [reflexivity|].
    intros domain Hin. now apply (Hforeign netloc).
  - intros u -> Hu. unfold target_url_of.
    destruct u; [contradiction | reflexivity].
Qed.

(** C5: with [max_retries = 3], a delay whose three waits [time.sleep]
    takes (lengths that are not negative, that fit the clock, and that the
    operating system does not refuse), a URL that passes validation, and
    requests that fail twice and then succeed, [scrape_document] hands the
    third response to [_process_response] with 3 attempts, having made
    exactly the wait before the first request and the waits [delay * 2^1]
    and [delay * 2^2] before the two retries. The record is the one for that
    response: when it is an [OK] record its [intentos_realizados] is 3, and
    it is an [OK] record as soon as the page parses and has a container. *)
Theorem retry_twice_then_succeed (url : option str) (w : world)
    (response : Response) :
  let target := target_url_of config url in
  max_retries (ethical config) = 3 ->
  sleeps delay ->
  sleeps (delay * inject_Z (2 ^ 1)) ->
  sleeps (delay * inject_Z (2 ^ 2)) ->
  _validate_url config target = true ->
  fails config (session_get (requests w) target) ->
  fails config (session_get (S (requests w)) target) ->
  succeeds_with config (session_get (S (S (requests w))) target) response ->
  exists w',
    scrape_document config url w =
      (Return (_process_response response target 3), w') /\
    requests w' = (requests w + 3)%nat /\
    trace w' = trace w ++
      [ Sleep PreRequest delay; Get target;
        Sleep Backoff (delay * inject_Z (2 ^ 1)); Get target;
        Sleep Backoff (delay * inject_Z (2 ^ 2)); Get target ] /\
    (forall n,
       intentos_realizados_of (_process_response response target 3)
         = Some n -> n = 3) /\
    (forall document container,
       BeautifulSoup (text response) = Return document ->
       _find_main_container document = Some container ->
       intentos_realizados_of (_process_response response target 3)
         = Some 3).
Proof.
  intros target Hmax Hd0 Hd1 Hd2 Hvalid Hf0 Hf1 Hok.
  eexists. split; [|split; [|split; [|split]]].
  - unfold scrape_document. fold target. rewrite Hvalid, Hmax. cbn [negb].
    change (Z.to_nat (3 + 1)) with 4%nat.
    rewrite attempts_from_failed_turn by (assumption || lia).
    rewrite attempts_from_failed_turn by (assumption || lia).
    rewrite attempts_from_success_turn with (response := response)
      by (assumption || lia).
    reflexivity.
  - cbn [requests]. lia.
  - cbn [trace]. unfold attempt_events. fold delay.
    rewrite <- !app_assoc. reflexivity.
  - intros n Hn.
    pose proof (process_response_record response target 3) as Hrec.
    destruct (_process_response response target 3); [|discriminate].
    cbn [intentos_realizados_of] in Hn. injection Hn as <-. tauto.
  - intros document container. apply process_response_ok.
Qed.

(** C2 as the code has it: a response above [max_content_size] (10 MiB by
    default) makes [_make_request] return [None], as any failed request
    does, and [scrape_document] goes on to the next attempt. With every
    response oversized, and waits that [time.sleep] takes at every turn
    (lengths that are not negative, that fit the clock, and that the
    operating system does not refuse), it makes all of its
    [max_retries + 1] requests, with their waits, and returns the
    [unknown_error] record. *)
Theorem oversized_response_is_retried (url : option str) (w : world) :
  let target := target_url_of config url in
  let turns := Z.to_nat (max_retries (ethical config) + 1) in
  waits_taken config 0 turns ->
  _validate_url config target = true ->
  (forall i, (i < turns)%nat ->
     oversized config (session_get (requests w + i) target)) ->
  scrape_document config url w =
    (Return (ERROR target unknown_error Error_desconocido),
     World (requests w + turns)
       (trace w ++ attempts_events config target turns 0)) /\
  (forall u w0, oversized config (session_get (requests w0) u) ->
     _make_request config u w0 =
       (Return None, World (S (requests w0)) (trace w0 ++ [Get u]))) /\
  max_content_size (scraping default_config) = 10 * 1024 * 1024.
Proof.
  intros target turns Hd Hvalid Hall. split; [|split; [|reflexivity]].
  - unfold scrape_document. fold target turns. rewrite Hvalid. cbn [negb].
    apply attempts_from_all_handled; [assumption|].
    intros i Hi. right. right. right. now apply Hall.
  - intros u w0 Ho. rewrite make_request_eq.
    rewrite request_result_handled; [reflexivity|]. now do 3 right.
Qed.

(** C3 as the code has it: when every attempt meets an HTTP-status failure
    or a transport failure, and [time.sleep] takes the wait of every turn
    (lengths that are not negative, that fit the clock, and that the
    operating system does not refuse), the record has [error_type]
    [unknown_error], the same for both kinds of failure. No scrape gives
    another [error_type] than the five of [error_types], whatever the waits;
    [http_error] and [network_error] are not among them. *)
Theorem exhausted_retries_unknown_error (url : option str) (w : world) :
  let target := target_url_of config url in
  let turns := Z.to_nat (max_retries (ethical config) + 1) in
  (waits_taken config 0 turns ->
   _validate_url config target = true ->
   (forall i, (i < turns)%nat ->
      http_status_failure (session_get (requests w + i) target) \/
      transport_failure (session_get (requests w + i) target)) ->
   scrape_document config url w =
     (Return (ERROR target unknown_error Error_desconocido),
      World (requests w + turns)
        (trace w ++ attempts_events config target turns 0))) /\
  (exists record w',
     scrape_document config url w = (Return record, w') /\
     forall kind, error_type_of record = Some kind -> In kind error_types) /\
  ~ In (py "http_error") error_types /\
  ~ In (py "network_error") error_types.
Proof.
  intros target turns. split; [|split; [|split]].
  - intros Hd Hvalid Hall.
    unfold scrape_document. fold target turns. rewrite Hvalid. cbn [negb].
    apply attempts_from_all_handled; [assumption|].
    intros i Hi. destruct (Hall i Hi) as [Hh|Ht]; [now left | right; now left].
  - unfold scrape_document. fold target turns.
    destruct (_validate_url config target); cbn [negb].
    + destruct (attempts_from_returns target turns 0 w)
        as (record & w' & Hrun & Hshape).
      exists record, w'. split; [assumption|].
      intros kind Hk.
      destruct Hshape as [(r & n & ->) | [-> | (e & ->)]].
      * pose proof (process_response_record r target n) as Hrec.
        destruct (_process_response r target n); [discriminate|].
        injection Hk as ->. unfold error_types.
        destruct Hrec as [_ [-> | ->]]; cbn [In]; tauto.
      * injection Hk as <-. unfold error_types. cbn [In]. tauto.
      * injection Hk as <-. unfold error_types. cbn [In]. tauto.
    + eexists _, _. split; [reflexivity|].
      intros kind [= <-]. unfold error_types. cbn [In]. tauto.
  - vm_compute. intros Hin. decompose [or] Hin; discriminate || contradiction.
  - vm_compute. intros Hin. decompose [or] Hin; discriminate || contradiction.
Qed.

(** What one turn of the loop can leave behind, whatever the delay. *)
Lemma attempt_body_world (target : str) (attempt : Z) (w : world) :
  exists x evs,
    attempt_body config target attempt w
      = (x, World (requests w + length (List.filter is_get evs))
              (trace w ++ evs)) /\
    Forall (scrape_event target) evs /\
    (length (List.filter is_get evs) <= 1)%nat.
Proof.
  assert (Hsleep : forall site seconds,
             site = PreRequest \/ site = Backoff ->
             exists x evs,
               (do _ <- time_sleep site seconds;
                do response <- _make_request config target;
                match response with
                | Some response =>
                    if Response_bool response
                    then ret (Some (_process_response response target (attempt + 1)))
                    else ret None
                | None => ret None
                end) w
               = (x, World (requests w + length (List.filter is_get evs))
                       (trace w ++ evs)) /\
               Forall (scrape_event target) evs /\
               (length (List.filter is_get evs) <= 1)%nat).
  { intros site seconds Hsite. unfold bind.
    assert (Hev : scrape_event target (Sleep site seconds)).
    { right. exists seconds. destruct Hsite as [-> | ->]; auto. }
    destruct (time_sleep_world site seconds w) as (x & evs & -> & [-> | ->]).
    - destruct x as [e|[]].
      + exists (Raise e), []. cbn [List.filter length].
        rewrite Nat.add_0_r.
        split; [reflexivity | split; [constructor | lia]].
      + rewrite make_request_eq. cbn [requests trace].
        rewrite app_nil_r.
        exists (turn_result (fun r => _process_response r target (attempt + 1))
                  (request_result config (session_get (requests w) target))),
          [Get target].
        cbn [List.filter is_get length].
        replace (requests w + 1)%nat with (S (requests w)) by lia.
        split; [|split; [constructor; [now left | constructor] | lia]].
        destruct (request_result config (session_get (requests w) target))
          as [e|[r|]] eqn:Hr; [reflexivity| |reflexivity].
        apply request_result_some in Hr as (_ & Hs & _).
        apply Response_bool_status in Hs. now rewrite Hs.
    - destruct x as [e|[]].
      + exists (Raise e), [Sleep site seconds]. cbn [List.filter is_get length].
        rewrite Nat.add_0_r.
        split; [reflexivity | split; [now constructor | lia]].
      + rewrite make_request_eq. cbn [requests trace].
        rewrite <- app_assoc. cbn [app].
        exists (turn_result (fun r => _process_response r target (attempt + 1))
                  (request_result config (session_get (requests w) target))),
          [Sleep site seconds; Get target].
        cbn [List.filter is_get length].
        replace (requests w + 1)%nat with (S (requests w)) by lia.
        split; [|split; [constructor; [assumption|]; constructor; [now left | constructor] | lia]].
        destruct (request_result config (session_get (requests w) target))
          as [e|[r|]] eqn:Hr; [reflexivity| |reflexivity].
        apply request_result_some in Hr as (_ & Hs & _).
        apply Response_bool_status in Hs. now rewrite Hs. }
  unfold attempt_body. destruct (0 <? attempt); [|apply Hsleep; auto].
  unfold backoff. destruct (1024 <=? attempt).
  - exists (Raise OverflowError), []. cbn [List.filter length].
    rewrite Nat.add_0_r, app_nil_r. destruct w.
    split; [reflexivity | split; [constructor | lia]].
  - exact (Hsleep Backoff _ (or_intror eq_refl)).
Qed.

(** The loop always ends with a record for [target]; it sends at most one
    request a turn, each to [target]. *)
Lemma attempts_from_run (target : str) (remaining : nat) :
  forall (attempt : Z) (w : world),
  exists record evs,
    attempts_from config target remaining attempt w
      = (Return record,
         World (requests w + length (List.filter is_get evs)) (trace w ++ evs)) /\
    url_original_of record = target /\
    Forall (scrape_event target) evs /\
    (length (List.filter is_get evs) <= remaining)%nat.
Proof.
  induction remaining as [|n IH]; intros attempt w.
  - eexists _, []. cbn [attempts_from ret List.filter length].
    rewrite Nat.add_0_r, app_nil_r. destruct w.
    repeat split; [constructor | lia].
  - cbn [attempts_from].
    destruct (attempt_body_world target attempt w)
      as (x & evs & Hb & Hevs & Hone).
    rewrite Hb.
    set (w1 := World _ _).
    assert (Hstop : forall record,
               url_original_of record = target ->
               exists record' evs',
                 (Return record, w1)
                 = (Return record',
                    World (requests w + length (List.filter is_get evs'))
                      (trace w ++ evs')) /\
                 url_original_of record' = target /\
                 Forall (scrape_event target) evs' /\
                 (length (List.filter is_get evs') <= S n)%nat).
    { intros record Hu. exists record, evs. repeat split; try assumption. lia. }
    assert (Hnext : exists record evs',
               attempts_from config target n (attempt + 1) w1
               = (Return record,
                  World (requests w + length (List.filter is_get evs'))
                    (trace w ++ evs')) /\
               url_original_of record = target /\
               Forall (scrape_event target) evs' /\
               (length (List.filter is_get evs') <= S n)%nat).
    { destruct (IH (attempt + 1) w1) as (record & evs' & Hr & Hu & Hf & Hl).
      exists record, (evs ++ evs'). rewrite Hr. subst w1.
      cbn [requests trace].
      rewrite List.filter_app, length_app, <- app_assoc, Nat.add_assoc.
      repeat split; try assumption; [now apply Forall_app | lia]. }
    destruct x as [e|[record|]].
    + destruct (attempt =? max_retries (ethical config));
        [now apply Hstop | apply Hnext].
    + apply Hstop.
      destruct (attempt_body_some target attempt w w1 record Hb) as [r ->].
      pose proof (process_response_record r target (attempt + 1)) as Hp.
      destruct (_process_response r target (attempt + 1)); now destruct Hp.
    + apply Hnext.
Qed.

Lemma scrape_document_run (url : option str) (w : world) :
  let target := target_url_of config url in
  exists record evs,
    scrape_document config url w
      = (Return record,
         World (requests w + length (List.filter is_get evs)) (trace w ++ evs)) /\
    url_original_of record = target /\
    Forall (scrape_event target) evs /\
    (length (List.filter is_get evs)
     <= Z.to_nat (max_retries (ethical config) + 1))%nat.
Proof.
  cbv zeta. unfold scrape_document.
  destruct (_validate_url config (target_url_of config url)).
  - apply attempts_from_run.
  - eexists _, []. cbn [negb ret List.filter length].
    rewrite Nat.add_0_r, app_nil_r. destruct w.
    repeat split; [constructor | lia].
Qed.

Lemma scrape_events_not_between (target : str) (evs : list event) :
  Forall (scrape_event target) evs ->
  List.filter is_between_documents evs = [].
Proof.
  induction 1 as [|ev evs Hev _ IH]; [reflexivity|].
  cbn [List.filter]. rewrite IH.
  destruct Hev as [-> | (seconds & [-> | ->])]; reflexivity.
Qed.

(** A scrape always ends with a record, and waits at its own two call
    sites only. *)
Lemma scrape_document_returns (url : option str) (w : world) :
  exists record w' evs,
    scrape_document config url w = (Return record, w') /\
    trace w' = trace w ++ evs /\
    List.filter is_between_documents evs = [] /\
    (_validate_url config (target_url_of config url) = false ->
     record = ERROR (target_url_of config url) validation_error URL_no_valida).
Proof.
  destruct (scrape_document_run url w) as (record & evs & Hr & _ & Hf & _).
  exists record,
    (World (requests w + length (List.filter is_get evs)) (trace w ++ evs)),
    evs.
  split; [exact Hr|]. cbn [trace].
  split; [reflexivity|].
  split; [now apply (scrape_events_not_between (target_url_of config url))|].
  intros Hv. unfold scrape_document in Hr. rewrite Hv in Hr.
  cbn [negb ret] in Hr. now injection Hr as <-.
Qed.

(** The loop of [scrape_multiple_documents] is the batch of the
    specification. *)
Lemma documents_from_spec (urls : list str) :
  forall (total i : nat) (w : world),
    (i + length urls = S total)%nat ->
    documents_from config total i urls w = scrape_many_spec config urls w.
Proof.
  induction urls as [|url rest IH]; intros total i w Hi; [reflexivity|].
  cbn [documents_from scrape_many_spec length] in *. unfold bind.
  destruct (scrape_document config (Some url) w) as [[e|record] w1];
    [reflexivity|].
  destruct rest as [|url2 rest].
  - cbn [length] in Hi.
    rewrite (proj2 (Nat.ltb_ge i total)) by lia. reflexivity.
  - cbn [length] in Hi.
    rewrite (proj2 (Nat.ltb_lt i total)) by lia.
    destruct (time_sleep BetweenDocuments
                (delay_between_requests (ethical config)) w1)
      as [[e|[]] w2]; [reflexivity|].
    rewrite IH by (cbn [length]; lia). reflexivity.
Qed.

Lemma scrape_many_spec_run (urls : list str) :
  sleeps delay ->
  forall w : world,
  exists records w' evs,
    scrape_many_spec config urls w = (Return records, w') /\
    length records = length urls /\
    trace w' = trace w ++ evs /\
    length (List.filter is_between_documents evs) = (length urls - 1)%nat /\
    (forall (i : nat) (url : str),
       urls !! i = Some url ->
       _validate_url config (target_url_of config (Some url)) = false ->
       records !! i =
         Some (ERROR (target_url_of config (Some url)) validation_error
                 URL_no_valida)).
Proof.
  intros Hd. induction urls as [|url rest IH]; intros w.
  - exists [], w, []. rewrite app_nil_r. repeat split. intros i url Hi.
    destruct i; discriminate.
  - cbn [scrape_many_spec]. unfold bind.
    destruct (scrape_document_returns (Some url) w)
      as (record & w1 & evs1 & -> & Ht1 & Hb1 & Hv1).
    destruct rest as [|url2 rest].
    + exists [record], w1, evs1. rewrite Hb1.
      repeat split; [assumption|].
      intros [|i] u Hi Hu; [|destruct i; discriminate].
      injection Hi as <-. cbn. f_equal. now apply Hv1.
    + rewrite time_sleep_ok by assumption.
      destruct (IH (World (requests w1)
                      (trace w1 ++ [Sleep BetweenDocuments
                                      (delay_between_requests (ethical config))])))
        as (records & w' & evs & -> & Hl & Ht & Hb & Hv).
      exists (record :: records), w',
        (evs1 ++ [Sleep BetweenDocuments
                    (delay_between_requests (ethical config))] ++ evs).
      split; [reflexivity|].
      split; [cbn [length] in *; lia|].
      split; [rewrite Ht; cbn [trace]; rewrite Ht1, <- !app_assoc; reflexivity|].
      split.
      * rewrite !List.filter_app, Hb1, !length_app.
        cbn [List.filter is_between_documents length app] in *. lia.
      * intros [|i] u Hi Hu.
        -- injection Hi as <-. cbn. f_equal. now apply Hv1.
        -- apply (Hv i u); assumption.
Qed.

(** C9: [scrape_multiple_documents] is the batch of the specification,
    whatever the delay: each URL is scraped in turn and the wait between
    documents comes after every URL but the last. With a delay that
    [time.sleep] takes (a length that is not negative, that fits the clock,
    and that the operating system does not refuse) it returns one record
    per URL, in order, whatever the records are; the trace holds that wait
    once less than there are URLs; a URL that fails validation has the
    [validation_error] record at its place. For three URLs of which the
    second fails validation there are three records, the second one
    [validation_error], and two waits between documents. *)
Theorem scrape_multiple_documents_batch (urls : list str) (w : world) :
  scrape_multiple_documents config urls w = scrape_many_spec config urls w /\
  (sleeps delay ->
   exists records w' evs,
     scrape_multiple_documents config urls w = (Return records, w') /\
     length records = length urls /\
     trace w' = trace w ++ evs /\
     length (List.filter is_between_documents evs) = (length urls - 1)%nat /\
     (forall (i : nat) (url : str),
        urls !! i = Some url ->
        _validate_url config (target_url_of config (Some url)) = false ->
        records !! i =
          Some (ERROR (target_url_of config (Some url)) validation_error
                  URL_no_valida)) /\
     (forall u1 u2 u3,
        urls = [u1; u2; u3] ->
        _validate_url config (target_url_of config (Some u2)) = false ->
        exists r1 r3,
          records =
            [ r1;
              ERROR (target_url_of config (Some u2)) validation_error
                URL_no_valida;
              r3 ] /\
          length (List.filter is_between_documents evs) = 2%nat)).
Proof.
  assert (Hspec : scrape_multiple_documents config urls w
                  = scrape_many_spec config urls w).
  { unfold scrape_multiple_documents. apply documents_from_spec. lia. }
  split; [exact Hspec|]. intros Hd.
  destruct (scrape_many_spec_run urls Hd w)
    as (records & w' & evs & Hrun & Hl & Ht & Hb & Hv).
  exists records, w', evs. rewrite Hspec.
  repeat (split; [assumption|]).
  intros u1 u2 u3 -> Hu2.
  specialize (Hv 1%nat u2 eq_refl Hu2).
  destruct records as [|r1 [|r2 [|r3 [|r4 records]]]]; try discriminate.
  cbn in Hv. injection Hv as ->.
  exists r1, r3. split; [reflexivity | exact Hb].
Qed.
End ScraperFacts.

(** ** The container resolver *)

Lemma find_selector_first (document : soup) (sel : selector) :
  find_selector document sel = head (find_all_selector document sel).
Proof. unfold find_selector, find_all_selector, find. now destruct (sel_attrs sel). Qed.

Lemma first_container_spec (document : soup) (sels : list selector) :
  match first_container document sels with
  | Some container =>
      exists pre sel post,
        sels = pre ++ sel :: post /\
        Forall (passed_over document) pre /\
        find_selector document sel = Some container /\
        get_text_strip [] container <> []
  | None => Forall (passed_over document) sels
  end.
Proof.
  induction sels as [|sel sels IH]; [constructor|].
  cbn [first_container].
  destruct (find_selector document sel) as [e|] eqn:Hf.
  - destruct (get_text_strip [] e) as [|c t] eqn:Ht; cbn [truthy].
    + assert (Hp : passed_over document sel)
        by (unfold passed_over; now rewrite Hf).
      destruct (first_container document sels) as [container|].
      * destruct IH as (pre & sel' & post & -> & Hpre & Hsel & Htxt).
        exists (sel :: pre), sel', post. repeat split; try assumption.
        now constructor.
      * now constructor.
    + exists [], sel, sels. repeat split; [constructor | assumption |].
      now rewrite Ht.
  - assert (Hp : passed_over document sel)
      by (unfold passed_over; now rewrite Hf).
    destruct (first_container document sels) as [container|].
    + destruct IH as (pre & sel' & post & -> & Hpre & Hsel & Htxt).
      exists (sel :: pre), sel', post. repeat split; try assumption.
      now constructor.
    + now constructor.
Qed.

(** C6 as the code has it: the rules are tried in their order, each through
    the one element that [find] gives for it, the first that matches in
    document order; the container is the element of the first rule whose
    element has text, and [body] when no rule has such an element. A
    document whose first [main] element has text gets that element,
    whatever else it holds. *)
Theorem find_main_container_first_rule (document : soup) :
  (forall sel,
     find_selector document sel = head (find_all_selector document sel)) /\
  match first_container document selectors with
  | Some container =>
      _find_main_container document = Some container /\
      exists pre sel post,
        selectors = pre ++ sel :: post /\
        Forall (passed_over document) pre /\
        find_selector document sel = Some container /\
        get_text_strip [] container <> []
  | None =>
      _find_main_container document = find (py "body") [] document /\
      Forall (passed_over document) selectors
  end /\
  (forall m,
     find (py "main") [] document = Some m ->
     get_text_strip [] m <> [] ->
     _find_main_container document = Some m).
Proof.
  split; [apply find_selector_first|]. split.
  - pose proof (first_container_spec document selectors) as Hspec.
    unfold _find_main_container.
    destruct (first_container document selectors); now split.
  - intros m Hm Ht. unfold _find_main_container, selectors.
    cbn [first_container]. unfold find_selector at 1. cbn [sel_attrs sel_tag].
    rewrite Hm. now destruct (get_text_strip [] m).
Qed.

(** * Further properties *)

(** ** More on strings *)

Lemma contains_iff (p s : str) :
  contains p s = true <-> exists pre post, s = pre ++ p ++ post.
Proof.
  induction s as [|c s IH]; cbn [contains].
  - rewrite orb_false_r, startswith_app. split.
    + intros [post Hp]. now exists [], post.
    + intros (pre & post & Hs). destruct pre; [|discriminate].
      now exists post.
  - rewrite orb_true_iff, startswith_app, IH. split.
    + intros [[post Hp] | (pre & post & ->)].
      * now exists [], post.
      * now exists (c :: pre), post.
    + intros ([|d pre] & post & Hs).
      * left. now exists post.
      * right. injection Hs as -> ->. now exists pre, post.
Qed.

Lemma lstrip_fixed (c : N) (s : str) :
  isspace c = false -> lstrip (c :: s) = c :: s.
Proof. intros Hc. cbn [lstrip]. now rewrite Hc. Qed.

Lemma lstrip_snoc (s : str) (c : N) :
  isspace c = false -> lstrip (s ++ [c]) = lstrip s ++ [c].
Proof.
  intros Hc. induction s as [|d s IH]; cbn [lstrip app].
  - now rewrite Hc.
  - destruct (isspace d); [exact IH | reflexivity].
Qed.

Lemma rstrip_cons (c : N) (s : str) :
  isspace c = false -> rstrip (c :: s) = c :: rstrip s.
Proof.
  intros Hc. unfold rstrip. cbn [rev].
  rewrite lstrip_snoc by assumption. rewrite rev_app_distr. reflexivity.
Qed.

Lemma lstrip_idem (s : str) : lstrip (lstrip s) = lstrip s.
Proof.
  induction s as [|c s IH]; [reflexivity|]. cbn [lstrip].
  destruct (isspace c) eqn:Hc; [exact IH|]. now apply lstrip_fixed.
Qed.

Lemma rstrip_idem (s : str) : rstrip (rstrip s) = rstrip s.
Proof. unfold rstrip. now rewrite rev_involutive, lstrip_idem. Qed.

(** A stripped string is empty or begins and ends with a character that is
    no space. *)
Lemma strip_cases (s : str) :
  strip s = [] \/
  exists c s', strip s = c :: s' /\ isspace c = false /\
               lstrip (strip s) = strip s.
Proof.
  unfold strip. destruct (lstrip s) as [|c s'] eqn:Hl; [now left|].
  right. apply lstrip_cons in Hl as Hc.
  rewrite rstrip_cons by assumption.
  eexists _, _. split; [reflexivity|]. split; [assumption|].
  now apply lstrip_fixed.
Qed.

Lemma strip_idem (s : str) : strip (strip s) = strip s.
Proof.
  destruct (strip_cases s) as [-> | (c & s' & _ & _ & Hl)]; [reflexivity|].
  unfold strip at 1. rewrite Hl. unfold strip. apply rstrip_idem.
Qed.

Lemma lstrip_In (c : N) (s : str) : In c (lstrip s) -> In c s.
Proof.
  induction s as [|d s IH]; [easy|]. cbn [lstrip].
  destruct (isspace d); [|easy]. intros Hc. right. now apply IH.
Qed.

Lemma strip_In (c : N) (s : str) : In c (strip s) -> In c s.
Proof.
  unfold strip, rstrip. intros Hc.
  apply lstrip_In. apply in_rev. apply lstrip_In. now apply in_rev.
Qed.

Lemma rstrip_last (s : str) (c : N) :
  isspace c = false -> rstrip (s ++ [c]) = s ++ [c].
Proof.
  intros Hc. unfold rstrip. rewrite rev_app_distr. cbn [rev app].
  rewrite lstrip_fixed by assumption.
  cbn [rev]. now rewrite rev_involutive.
Qed.

(** A stripped string that is not empty ends with a character that is no
    space. *)
Lemma strip_snoc (s : str) :
  strip s <> [] ->
  exists s' c, strip s = s' ++ [c] /\ isspace c = false.
Proof.
  unfold strip, rstrip. intros Hne.
  destruct (lstrip (rev (lstrip s))) as [|c t] eqn:Hl; [easy|].
  apply lstrip_cons in Hl. cbn [rev]. eauto.
Qed.

Lemma split_on_from_In (sep : N) (s piece : str) :
  ~ In sep piece ->
  Forall (fun p => ~ In sep p) (split_on_from sep piece s).
Proof.
  revert piece. induction s as [|c s IH]; intros piece Hp;
    cbn [split_on_from].
  - constructor; [|constructor]. now rewrite <- in_rev.
  - destruct (N.eqb_spec c sep) as [->|Hc].
    + constructor; [now rewrite <- in_rev | now apply IH].
    + apply IH. intros [-> | Hin]; [now apply Hc | now apply Hp].
Qed.

Lemma split_on_from_app (sep : N) (p rest piece : str) :
  ~ In sep p ->
  split_on_from sep piece (p ++ sep :: rest)
    = (rev piece ++ p) :: split_on_from sep [] rest.
Proof.
  revert piece. induction p as [|c p IH]; intros piece Hp; cbn [app split_on_from].
  - now rewrite N.eqb_refl, app_nil_r.
  - destruct (N.eqb_spec c sep) as [->|Hc]; [exfalso; apply Hp; now left|].
    rewrite IH by (intros Hin; apply Hp; now right).
    cbn [rev]. now rewrite <- app_assoc.
Qed.

Lemma split_on_from_last (sep : N) (p piece : str) :
  ~ In sep p -> split_on_from sep piece p = [rev piece ++ p].
Proof.
  revert piece. induction p as [|c p IH]; intros piece Hp; cbn [split_on_from].
  - now rewrite app_nil_r.
  - destruct (N.eqb_spec c sep) as [->|Hc]; [exfalso; apply Hp; now left|].
    rewrite IH by (intros Hin; apply Hp; now right).
    cbn [rev]. now rewrite <- app_assoc.
Qed.

(** Joining lines and splitting again gives the lines back. *)
Lemma split_on_join (sep : N) (lines : list str) :
  lines <> [] ->
  Forall (fun p => ~ In sep p) lines ->
  split_on sep (join [sep] lines) = lines.
Proof.
  intros Hne Hall. unfold split_on.
  induction Hall as [|p ps Hp Hps IH]; [easy|].
  destruct ps as [|q ps].
  - cbn [join]. now rewrite split_on_from_last.
  - change (join [sep] (p :: q :: ps)) with (p ++ sep :: join [sep] (q :: ps)).
    rewrite split_on_from_app by assumption. cbn [rev app].
    f_equal. now apply IH.
Qed.

Lemma join_head (sep : str) (c : N) (p : str) (ps : list str) :
  exists s, join sep ((c :: p) :: ps) = c :: s.
Proof. destruct ps; cbn [join app]; eauto. Qed.

Lemma join_last (sep : str) (lines : list str) (p : str) (c : N) :
  exists s, join sep (lines ++ [p ++ [c]]) = s ++ [c].
Proof.
  induction lines as [|q qs IH]; cbn [app].
  - exists p. reflexivity.
  - destruct IH as [s Hs].
    destruct (qs ++ [p ++ [c]]) as [|r rs] eqn:Hq.
    + now destruct qs.
    + change (join sep (q :: r :: rs)) with (q ++ sep ++ join sep (r :: rs)).
      rewrite Hs. exists (q ++ sep ++ s). now rewrite <- !app_assoc.
Qed.


(** ** More on the loop of the scraper *)

Section ScrapeLoopFacts.
Context `{UCD} `{Environment} (config : Config).

Let delay := delay_between_requests (ethical config).

(** X1: [scrape_document] never raises: whatever the servers, the parser and
    the configuration do, it returns a record for the URL that it scraped,
    after at most [max_retries + 1] requests, all of them to that URL, and
    after waits of its own only. *)
Theorem scrape_document_never_raises (url : option str) (w : world) :
  let target := target_url_of config url in
  exists record w' evs,
    scrape_document config url w = (Return record, w') /\
    url_original_of record = target /\
    trace w' = trace w ++ evs /\
    Forall (scrape_event target) evs /\
    requests w' = (requests w + length (List.filter is_get evs))%nat /\
    (requests w' <= requests w + Z.to_nat (max_retries (ethical config) + 1))%nat.
Proof.
  cbv zeta.
  destruct (scrape_document_run config url w)
    as (record & evs & Hr & Hu & Hf & Hl).
  eexists record, _, evs. split; [exact Hr|].
  cbn [requests trace]. repeat split; try assumption. lia.
Qed.

(** Turns whose request fails, none of them the last one, lead to the turn
    after them. *)
Lemma attempts_from_failed_turns (target : str) (k : nat) :
  forall (remaining : nat) (attempt : Z) (w : world),
    waits_taken config attempt k ->
    (forall i, (i < k)%nat ->
       fails config (session_get (requests w + i) target)) ->
    attempt + Z.of_nat k <= max_retries (ethical config) ->
    attempts_from config target (k + remaining) attempt w =
      attempts_from config target remaining (attempt + Z.of_nat k)
        (World (requests w + k)
           (trace w ++ attempts_events config target k attempt)).
Proof.
  induction k as [|k IH]; intros remaining attempt w Hw Hall Hle.
  - cbn [attempts_events Nat.add]. rewrite Nat.add_0_r, app_nil_r, Z.add_0_r.
    now destruct w.
  - destruct (waits_taken_head _ _ _ Hw) as [Ha Hd].
    cbn [Nat.add]. rewrite attempts_from_failed_turn; try assumption.
    + rewrite IH.
      * cbn [requests trace attempts_events]. rewrite <- app_assoc.
        f_equal; [lia | f_equal; lia].
      * now apply waits_taken_tail.
      * intros i Hi. cbn [requests].
        replace (S (requests w) + i)%nat with (requests w + S i)%nat by lia.
        apply Hall. lia.
      * lia.
    + specialize (Hall 0%nat ltac:(lia)). now rewrite Nat.add_0_r in Hall.
    + lia.
Qed.

Lemma attempts_events_snoc (target : str) (k : nat) (attempt : Z) :
  attempts_events config target (S k) attempt =
    attempts_events config target k attempt
    ++ attempt_events config target (attempt + Z.of_nat k).
Proof.
  revert attempt. induction k as [|k IH]; intros attempt.
  - cbn [attempts_events]. now rewrite app_nil_r, Z.add_0_r.
  - change (attempts_events config target (S (S k)) attempt)
      with (attempt_events config target attempt
            ++ attempts_events config target (S k) (attempt + 1)).
    rewrite IH. cbn [attempts_events]. rewrite <- app_assoc.
    do 3 f_equal. lia.
Qed.

(** X2: a scrape whose first [k] requests fail, in whatever way, and whose
    next request succeeds, with [k <= max_retries] and waits that
    [time.sleep] takes at these [k + 1] turns (lengths that are not
    negative, that fit the clock, and that the operating system does not
    refuse), returns the processed response with [k + 1] attempts, after
    exactly [k + 1] turns of wait and request. *)
Theorem scrape_document_succeeds_after (url : option str) (w : world)
    (k : nat) (response : Response) :
  let target := target_url_of config url in
  waits_taken config 0 (S k) ->
  _validate_url config target = true ->
  Z.of_nat k <= max_retries (ethical config) ->
  (forall i, (i < k)%nat ->
     fails config (session_get (requests w + i) target)) ->
  succeeds_with config (session_get (requests w + k) target) response ->
  scrape_document config url w =
    (Return (_process_response response target (Z.of_nat k + 1)),
     World (requests w + S k)
       (trace w ++ attempts_events config target (S k) 0)).
Proof.
  cbv zeta. intros Hw Hv Hk Hall Hok. unfold scrape_document.
  rewrite Hv. cbn [negb].
  replace (Z.to_nat (max_retries (ethical config) + 1))
    with (k + S (Z.to_nat (max_retries (ethical config)) - k))%nat by lia.
  destruct (Hw k ltac:(lia)) as [Ha Hd].
  rewrite attempts_from_failed_turns
    by (assumption || lia || (apply (waits_taken_le config 0 (S k)); [lia | assumption])).
  rewrite (attempts_from_success_turn config _ _ _ _ response)
    by assumption.
  cbn [requests trace]. rewrite attempts_events_snoc, <- app_assoc.
  do 2 f_equal. lia.
Qed.

(** X3: when the last request allowed raises an exception that
    [_make_request] does not catch, after requests that failed in whatever
    way and waits that [time.sleep] took at every turn (lengths that are
    not negative, that fit the clock, and that the operating system does
    not refuse), the record is [extraction_error] and carries that
    exception. *)
Theorem scrape_document_extraction_error (url : option str) (w : world)
    (e : exception) :
  let target := target_url_of config url in
  let last := Z.to_nat (max_retries (ethical config)) in
  waits_taken config 0 (S last) ->
  0 <= max_retries (ethical config) ->
  _validate_url config target = true ->
  (forall i, (i < last)%nat ->
     fails config (session_get (requests w + i) target)) ->
  session_get (requests w + last) target = Raise e ->
  escapes e ->
  scrape_document config url w =
    (Return (ERROR target extraction_error
               (Fallo_despues_de (max_retries (ethical config) + 1) e)),
     World (requests w + S last)
       (trace w ++ attempts_events config target last 0
        ++ attempt_events config target (max_retries (ethical config)))).
Proof.
  cbv zeta. intros Hw Hm Hv Hall Hlast [He1 He2]. unfold scrape_document.
  rewrite Hv. cbn [negb].
  replace (Z.to_nat (max_retries (ethical config) + 1))
    with (Z.to_nat (max_retries (ethical config)) + 1)%nat by lia.
  destruct (Hw (Z.to_nat (max_retries (ethical config))) ltac:(lia))
    as [Ha Hd].
  rewrite attempts_from_failed_turns
    by (assumption || lia
        || (apply (waits_taken_le config 0
                     (S (Z.to_nat (max_retries (ethical config)))));
            [lia | assumption])).
  rewrite attempts_from_step by assumption. cbv zeta. cbn [requests trace].
  rewrite Hlast. unfold request_result. rewrite He1, He2. cbn [orb].
  rewrite Z.add_0_l, Z2Nat.id by assumption. rewrite Z.eqb_refl.
  unfold _create_error_response. rewrite <- app_assoc.
  do 2 f_equal. lia.
Qed.

Lemma turn_wait_negative (attempt : Z) :
  (delay < 0)%Q -> 0 <= attempt -> (turn_wait config attempt < 0)%Q.
Proof.
  intros Hd Ha. unfold turn_wait. fold delay.
  destruct (0 <? attempt); [|assumption].
  assert (Hp : (0 < inject_Z (2 ^ attempt))%Q).
  { change 0%Q with (inject_Z 0). rewrite <- Zlt_Qlt.
    now apply Z.pow_pos_nonneg. }
  apply (Qmult_lt_r _ _ _ Hp) in Hd. now rewrite Qmult_0_l in Hd.
Qed.

(** With a negative delay a turn raises before it sends its request. *)
Lemma attempt_body_negative_delay (target : str) (attempt : Z) (w : world) :
  (delay < 0)%Q -> 0 <= attempt ->
  exists e,
    attempt_body config target attempt w = (Raise e, w) /\
    (e = ValueError \/ e = OverflowError) /\
    (attempt < 1024 -> fits_clock (turn_wait config attempt) ->
     e = ValueError).
Proof.
  intros Hd Ha. pose proof (turn_wait_negative attempt Hd Ha) as Hneg.
  unfold attempt_body, bind, lift, backoff. unfold turn_wait in *.
  destruct (0 <? attempt).
  - destruct (Z.leb_spec 1024 attempt) as [Hbig|Hsmall].
    + exists OverflowError.
      split; [reflexivity | split; [now right | intros; lia]].
    + destruct (time_sleep_negative Backoff _ w Hneg) as (e & -> & He & Hfit).
      exists e. split; [reflexivity | split; [exact He | intros _; exact Hfit]].
  - destruct (time_sleep_negative PreRequest _ w Hneg)
      as (e & -> & He & Hfit).
    exists e. split; [reflexivity | split; [exact He | intros _; exact Hfit]].
Qed.

Lemma attempts_from_negative_delay (target : str) (w : world) :
  (delay < 0)%Q ->
  forall (remaining : nat) (attempt : Z),
    0 <= attempt ->
    attempt + Z.of_nat remaining = max_retries (ethical config) ->
    exists e,
      attempts_from config target (S remaining) attempt w =
        (Return (ERROR target extraction_error
                   (Fallo_despues_de (max_retries (ethical config) + 1) e)),
         w) /\
      (e = ValueError \/ e = OverflowError) /\
      (max_retries (ethical config) < 1024 ->
       fits_clock (turn_wait config (max_retries (ethical config))) ->
       e = ValueError).
Proof.
  intros Hd. induction remaining as [|n IH]; intros attempt Ha Hsum;
    cbn [attempts_from];
    destruct (attempt_body_negative_delay target attempt w Hd Ha)
      as (e & -> & He & Hfit).
  - replace (attempt =? max_retries (ethical config)) with true
      by (symmetry; apply Z.eqb_eq; lia).
    exists e. split; [reflexivity | split; [exact He|]].
    replace (max_retries (ethical config)) with attempt by lia. exact Hfit.
  - replace (attempt =? max_retries (ethical config)) with false
      by (symmetry; apply Z.eqb_neq; lia).
    apply IH; lia.
Qed.

(** X4: with a negative delay no request is ever sent and nothing is
    waited: every turn ends in the exception that [time.sleep], or the
    product before it, raises, and the record is [extraction_error] with
    the exception of the last turn. That exception is a [ValueError] or an
    [OverflowError]; it is the [ValueError] of a negative length when
    [max_retries] is below 1024 and the last wait fits the clock. *)
Theorem scrape_document_negative_delay (url : option str) (w : world) :
  let target := target_url_of config url in
  (delay < 0)%Q ->
  0 <= max_retries (ethical config) ->
  _validate_url config target = true ->
  exists e,
    scrape_document config url w =
      (Return (ERROR target extraction_error
                 (Fallo_despues_de (max_retries (ethical config) + 1) e)),
       w) /\
    (e = ValueError \/ e = OverflowError) /\
    (max_retries (ethical config) < 1024 ->
     fits_clock (turn_wait config (max_retries (ethical config))) ->
     e = ValueError).
Proof.
  cbv zeta. intros Hd Hm Hv. unfold scrape_document. rewrite Hv. cbn [negb].
  replace (Z.to_nat (max_retries (ethical config) + 1))
    with (S (Z.to_nat (max_retries (ethical config)))) by lia.
  apply attempts_from_negative_delay; (assumption || lia).
Qed.

(** X5: with [max_retries] below zero the loop has no turn: a URL that passes
    validation is never requested, and the record is [unknown_error]. *)
Theorem scrape_document_no_turn (url : option str) (w : world) :
  let target := target_url_of config url in
  max_retries (ethical config) < 0 ->
  _validate_url config target = true ->
  scrape_document config url w =
    (Return (ERROR target unknown_error Error_desconocido), w).
Proof.
  cbv zeta. intros Hm Hv. unfold scrape_document. rewrite Hv. cbn [negb].
  replace (Z.to_nat (max_retries (ethical config) + 1)) with 0%nat by lia.
  reflexivity.
Qed.

Lemma slept_app (evs1 evs2 : list event) :
  (slept (evs1 ++ evs2) == slept evs1 + slept evs2)%Q.
Proof.
  induction evs1 as [|[site s|u] evs1 IH]; cbn [slept app].
  - ring.
  - rewrite IH. ring.
  - exact IH.
Qed.

Lemma inject_Z_sub (x y : Z) : (inject_Z (x - y) == inject_Z x - inject_Z y)%Q.
Proof. unfold Z.sub. rewrite inject_Z_plus, inject_Z_opp. ring. Qed.

Lemma slept_attempts_events (target : str) (count : nat) :
  forall attempt, 0 <= attempt ->
    (slept (attempts_events config target count attempt)
     == delay * inject_Z (2 ^ (attempt + Z.of_nat count) - 2 ^ attempt))%Q.
Proof.
  induction count as [|n IH]; intros attempt Ha.
  - cbn [attempts_events slept]. rewrite Z.add_0_r, Z.sub_diag. ring.
  - cbn [attempts_events]. rewrite slept_app, IH by lia.
    replace (attempt + 1 + Z.of_nat n) with (attempt + Z.of_nat (S n)) by lia.
    replace (2 ^ (attempt + 1)) with (2 * 2 ^ attempt)
      by (rewrite Z.pow_add_r by lia; lia).
    rewrite !inject_Z_sub, inject_Z_mult.
    unfold attempt_events. fold delay.
    destruct (Z.ltb_spec 0 attempt) as [Hpos|Hzero]; cbn [slept].
    + ring.
    + assert (attempt = 0) as -> by lia.
      change (inject_Z (2 ^ 0)) with 1%Q. ring.
Qed.

Lemma attempts_events_gets (target : str) (count : nat) (attempt : Z) :
  length (List.filter is_get (attempts_events config target count attempt))
    = count.
Proof.
  revert attempt. induction count as [|n IH]; intros attempt; [reflexivity|].
  cbn [attempts_events attempt_events app].
  destruct (0 <? attempt); cbn [List.filter is_get length]; now rewrite IH.
Qed.

(** X6: a scrape whose requests all fail in a way that [_make_request]
    handles, and whose waits [time.sleep] takes at every turn (lengths that
    are not negative, that fit the clock, and that the operating system
    does not refuse), waits [delay * (2 ^ (max_retries + 1) - 1)] seconds
    in all. *)
Theorem exhausted_scrape_wait (url : option str) (w : world) :
  let target := target_url_of config url in
  let turns := Z.to_nat (max_retries (ethical config) + 1) in
  waits_taken config 0 turns ->
  0 <= max_retries (ethical config) ->
  _validate_url config target = true ->
  (forall i, (i < turns)%nat ->
     handled_failure config (session_get (requests w + i) target)) ->
  exists evs,
    scrape_document config url w =
      (Return (ERROR target unknown_error Error_desconocido),
       World (requests w + turns) (trace w ++ evs)) /\
    length (List.filter is_get evs) = turns /\
    (slept evs
     == delay * inject_Z (2 ^ (max_retries (ethical config) + 1) - 1))%Q.
Proof.
  cbv zeta. intros Hd Hm Hv Hall. unfold scrape_document. rewrite Hv.
  cbn [negb]. rewrite attempts_from_all_handled by assumption.
  cbn [requests trace]. eexists. split; [reflexivity|]. split.
  - apply attempts_events_gets.
  - rewrite slept_attempts_events by lia.
    rewrite Z.add_0_l, Z2Nat.id by lia. reflexivity.
Qed.

(** With a negative delay a scrape changes nothing in the world. *)
Lemma scrape_document_negative_delay_world (url : option str) (w : world) :
  (delay < 0)%Q ->
  exists record,
    scrape_document config url w = (Return record, w) /\
    url_original_of record = target_url_of config url.
Proof.
  intros Hd. unfold scrape_document.
  destruct (_validate_url config (target_url_of config url)); cbn [negb].
  - destruct (Z.ltb_spec (max_retries (ethical config)) 0) as [Hm|Hm].
    + replace (Z.to_nat (max_retries (ethical config) + 1)) with 0%nat by lia.
      eexists. split; reflexivity.
    + replace (Z.to_nat (max_retries (ethical config) + 1))
        with (S (Z.to_nat (max_retries (ethical config)))) by lia.
      destruct (attempts_from_negative_delay (target_url_of config url) w Hd
                  (Z.to_nat (max_retries (ethical config))) 0)
        as (e & -> & _); [lia | lia |].
      eexists. split; reflexivity.
  - eexists. split; reflexivity.
Qed.

(** X7: the wait between two documents is outside every [try]: with a
    negative delay a batch of two URLs or more raises the exception of
    [time.sleep] after its first document, and no record is returned; that
    exception is a [ValueError] or an [OverflowError], and it is the
    [ValueError] of a negative length when the delay fits the clock. A
    batch of one URL returns its record, an empty batch the empty list. No
    request is sent. *)
Theorem scrape_multiple_documents_negative_delay (urls : list str) (w : world) :
  (delay < 0)%Q ->
  match urls with
  | [] => scrape_multiple_documents config urls w = (Return [], w)
  | [url] =>
      exists record,
        scrape_multiple_documents config urls w = (Return [record], w) /\
        scrape_document config (Some url) w = (Return record, w)
  | _ :: _ :: _ =>
      exists e,
        scrape_multiple_documents config urls w = (Raise e, w) /\
        (e = ValueError \/ e = OverflowError) /\
        (fits_clock delay -> e = ValueError)
  end.
Proof.
  intros Hd. destruct urls as [|u1 [|u2 rest]]; [reflexivity| |].
  - destruct (scrape_document_negative_delay_world (Some u1) w Hd)
      as (record & Hr & _).
    exists record. split; [|assumption].
    unfold scrape_multiple_documents. cbn [documents_from length].
    unfold bind. rewrite Hr. reflexivity.
  - destruct (scrape_document_negative_delay_world (Some u1) w Hd)
      as (record & Hr & _).
    unfold scrape_multiple_documents.
    change (documents_from config (length (u1 :: u2 :: rest)) 1
              (u1 :: u2 :: rest) w)
      with (bind (scrape_document config (Some u1))
              (fun result =>
                 do _ <- (if (1 <? length (u1 :: u2 :: rest))%nat
                          then time_sleep BetweenDocuments
                                 (delay_between_requests (ethical config))
                          else ret tt);
                 do results <- documents_from config
                                 (length (u1 :: u2 :: rest)) 2 (u2 :: rest);
                 ret (result :: results)) w).
    unfold bind at 1. rewrite Hr. unfold bind at 1.
    cbn [length Nat.ltb Nat.leb]. fold delay.
    destruct (time_sleep_negative BetweenDocuments delay w Hd)
      as (e & -> & He & Hfit).
    exists e. split; [reflexivity | split; [exact He | exact Hfit]].
Qed.

(** What a batch returns and requests, for a delay that is taken. *)
Lemma scrape_many_spec_in_order (urls : list str) :
  sleeps delay ->
  forall w : world,
  exists records w',
    scrape_many_spec config urls w = (Return records, w') /\
    map url_original_of records
      = map (fun url => target_url_of config (Some url)) urls /\
    (requests w <= requests w')%nat /\
    (requests w'
     <= requests w
        + length urls * Z.to_nat (max_retries (ethical config) + 1))%nat.
Proof.
  intros Hd. induction urls as [|url rest IH]; intros w.
  - exists [], w. cbn [scrape_many_spec ret map length]. repeat split; lia.
  - cbn [scrape_many_spec]. unfold bind at 1.
    destruct (scrape_document_run config (Some url) w)
      as (record & evs & -> & Hu & _ & Hl).
    set (w1 := World _ _).
    destruct rest as [|url2 rest].
    + exists [record], w1. subst w1. cbn [ret map requests length].
      rewrite Hu. repeat split; lia.
    + unfold bind at 1. fold delay. rewrite time_sleep_ok by assumption.
      set (w2 := World _ _). unfold bind.
      destruct (IH w2) as (records & w' & -> & Hm & Hlo & Hhi).
      exists (record :: records), w'. cbn [ret map]. rewrite Hu, Hm.
      subst w1 w2. cbn [requests length] in *.
      repeat split; lia.
Qed.

(** X8: for a delay that [time.sleep] takes (a length that is not
    negative, that fits the clock, and that the operating system does not
    refuse), a batch returns its records in the order of the URLs, the
    [i]-th record being the record of the [i]-th URL (of the default
    document where that URL is empty), and it sends at most
    [max_retries + 1] requests a URL. *)
Theorem scrape_multiple_documents_in_order (urls : list str) (w : world) :
  sleeps delay ->
  exists records w',
    scrape_multiple_documents config urls w = (Return records, w') /\
    map url_original_of records
      = map (fun url => target_url_of config (Some url)) urls /\
    (requests w <= requests w')%nat /\
    (requests w'
     <= requests w
        + length urls * Z.to_nat (max_retries (ethical config) + 1))%nat.
Proof.
  intros Hd. unfold scrape_multiple_documents.
  rewrite documents_from_spec by lia.
  now apply scrape_many_spec_in_order.
Qed.

(** X25: a delay that the clock cannot hold ends a batch. When the delay
    does not fit the type in which time is counted, a batch of two URLs or
    more raises the [OverflowError] of [time.sleep] once its first document
    is scraped: the scrape of that document returns its record, and the
    batch returns none. *)
Theorem scrape_multiple_documents_overflow (url1 url2 : str)
    (rest : list str) (w : world) :
  sleep_overflow delay = true ->
  exists record w1,
    scrape_document config (Some url1) w = (Return record, w1) /\
    scrape_multiple_documents config (url1 :: url2 :: rest) w
      = (Raise OverflowError, w1).
Proof.
  intros Ho.
  destruct (scrape_document_run config (Some url1) w)
    as (record & evs & Hr & _).
  eexists record, _. split; [exact Hr|].
  unfold scrape_multiple_documents.
  change (documents_from config (length (url1 :: url2 :: rest)) 1
            (url1 :: url2 :: rest) w)
    with (bind (scrape_document config (Some url1))
            (fun result =>
               do _ <- (if (1 <? length (url1 :: url2 :: rest))%nat
                        then time_sleep BetweenDocuments
                               (delay_between_requests (ethical config))
                        else ret tt);
               do results <- documents_from config
                               (length (url1 :: url2 :: rest)) 2 (url2 :: rest);
               ret (result :: results)) w).
  unfold bind at 1. rewrite Hr. unfold bind at 1.
  cbn [length Nat.ltb Nat.leb]. fold delay.
  unfold time_sleep. rewrite Ho, orb_true_r. reflexivity.
Qed.

End ScrapeLoopFacts.

(** ** More on the scraper *)

Section RequestAndResponse.
Context `{UCD} `{Environment} (config : Config).

(** X9: [_make_request] sends one request and records it. It returns the
    response exactly when the status is outside 400..599 and the body is no
    longer than [max_content_size] (a body of exactly that size passes); it
    raises exactly the exceptions of [session.get] that are neither a
    [RequestException] nor a [ValueError]; everything else is [None]. A
    response that it returns is true: the test [if response] of
    [scrape_document] never sends one away. *)
Theorem make_request_accepts (url : str) (w : world) :
  exists x,
    _make_request config url w
      = (x, World (S (requests w)) (trace w ++ [Get url])) /\
    (forall response,
       x = Return (Some response) <->
       session_get (requests w) url = Return response /\
       ~ (400 <= status_code response < 600) /\
       content_length response <= max_content_size (scraping config)) /\
    (forall e,
       x = Raise e <->
       session_get (requests w) url = Raise e /\
       is_RequestException e = false /\ is_ValueError e = false) /\
    (forall response,
       x = Return (Some response) -> Response_bool response = true).
Proof.
  exists (request_result config (session_get (requests w) url)).
  split; [apply make_request_eq|]. split; [|split].
  - intros response. split.
    + intros Hr. apply request_result_some in Hr as (Ho & Hs & Hl).
      repeat split; try assumption.
      intros Hst. apply raise_for_status_error in Hst. congruence.
    + intros (Ho & Hst & Hl). apply request_result_succeeds.
      repeat split; try assumption.
      destruct (raise_for_status_cases response) as [Hs|Hs]; [assumption|].
      apply raise_for_status_error in Hs. contradiction.
  - intros e. unfold request_result.
    destruct (session_get (requests w) url) as [e'|r].
    + destruct (is_RequestException e') eqn:H1;
        destruct (is_ValueError e') eqn:H2; cbn [orb]; split;
        try discriminate;
        try (intros ([= ->] & Ha & Hb); congruence).
      intros [= ->]. auto.
    + split; [destruct (_ && _); discriminate | intros ([=] & _)].
  - intros response Hr. apply request_result_some in Hr as (_ & Hs & _).
    now apply Response_bool_status.
Qed.

Lemma error_types_differ :
  parsing_error <> processing_error.
Proof. intros E. vm_compute in E. discriminate. Qed.

(** X10: the three outcomes of [_process_response]. The record is
    [processing_error] exactly when the parser raises, [parsing_error]
    exactly when the parsed page has no container at all, and otherwise the
    OK record of the cleaned text of the container, with its length, its
    number of words, the attempts given and the metadata of the response:
    the analyzer never makes it fail. *)
Theorem process_response_outcomes (response : Response) (url : str)
    (attempts : Z) :
  let record := _process_response response url attempts in
  (error_type_of record = Some processing_error <->
   exists e, BeautifulSoup (text response) = Raise e) /\
  (error_type_of record = Some parsing_error <->
   exists document,
     BeautifulSoup (text response) = Return document /\
     _find_main_container document = None) /\
  (forall document container,
     BeautifulSoup (text response) = Return document ->
     _find_main_container document = Some container ->
     exists analysis,
       analyze_content (_extract_clean_text container) url = Return analysis /\
       record =
         OK url (_extract_clean_text container)
           (length (_extract_clean_text container))
           (length (split (_extract_clean_text container)))
           attempts analysis
           {| meta_status_code := status_code response;
              meta_content_type := content_type response;
              meta_server := server response;
              meta_content_length := content_length response |}).
Proof.
  cbv zeta. unfold _process_response.
  destruct (BeautifulSoup (text response)) as [e|document] eqn:Hsoup.
  - cbn [error_type_of _create_error_response]. split; [|split].
    + split; eauto.
    + split.
      * intros E. exfalso. apply error_types_differ. congruence.
      * intros (d & Hd & _). discriminate.
    + intros d c Hd. discriminate.
  - destruct (_find_main_container document) as [container|] eqn:Hmain.
    + destruct (analyze_content_returns (_extract_clean_text container) url)
        as [a Ha].
      rewrite Ha. cbn [error_type_of]. split; [|split].
      * split; [discriminate | intros [e He]; discriminate].
      * split; [discriminate|]. intros (d & Hd & Hn).
        injection Hd as <-. congruence.
      * intros d c Hd Hc. injection Hd as <-.
        rewrite Hmain in Hc. injection Hc as <-. eauto.
    + cbn [error_type_of _create_error_response]. split; [|split].
      * split; [|intros [e He]; discriminate].
        intros E. exfalso. apply error_types_differ. congruence.
      * split; eauto.
      * intros d c Hd Hc. injection Hd as <-. congruence.
Qed.

(** X11: [_validate_url] asks only that one of the allowed domains occurs
    somewhere in the network location: it holds exactly when [urlparse]
    returns a location of the form [pre ++ domain ++ post]. *)
Theorem validate_url_substring (url : str) :
  _validate_url config url = true <->
  exists netloc domain pre post,
    urlparse_netloc url = Return netloc /\
    In domain (allowed_domains (scraping config)) /\
    netloc = pre ++ domain ++ post.
Proof.
  unfold _validate_url. destruct (urlparse_netloc url) as [e|netloc].
  - split; [discriminate | intros (n & d & pre & post & [=] & _)].
  - rewrite existsb_exists. split.
    + intros (domain & Hin & Hc). apply contains_iff in Hc as (pre & post & Hn).
      now exists netloc, domain, pre, post.
    + intros (n & domain & pre & post & [= <-] & Hin & Hn).
      exists domain. split; [assumption|]. apply contains_iff. eauto.
Qed.

End RequestAndResponse.

(** ** More on the container and its text *)

Lemma soup_find_some (name : str) (wanted : list (str * str)) (cs : list node)
    (n : node) :
  find name wanted cs = Some n ->
  In n (descendant_tags cs) /\ tag_matches name wanted n = true.
Proof.
  unfold find, find_all. intros Hh.
  assert (Hin : In n (List.filter (tag_matches name wanted) (descendant_tags cs))).
  { destruct (List.filter _ _); [discriminate|]. injection Hh as ->. now left. }
  now apply filter_In in Hin.
Qed.

Lemma soup_find_none (name : str) (cs : list node) :
  find name [] cs = None ->
  forall name' attrs contents,
    In (Tag name' attrs contents) (descendant_tags cs) -> name' <> name.
Proof.
  unfold find, find_all. intros Hh name' attrs contents Hin ->.
  assert (Hf : In (Tag name attrs contents)
                 (List.filter (tag_matches name []) (descendant_tags cs))).
  { apply filter_In. split; [assumption|].
    cbn [tag_matches forallb]. rewrite bool_decide_eq_true_2 by reflexivity.
    reflexivity. }
  destruct (List.filter _ _); [easy | discriminate].
Qed.

Lemma tag_matches_name (name : str) (wanted : list (str * str)) (n : node) :
  tag_matches name wanted n = true ->
  exists attrs contents, n = Tag name attrs contents.
Proof.
  destruct n as [s|name' attrs contents]; [discriminate|].
  cbn [tag_matches]. intros Hm. apply andb_true_iff in Hm as [Hn _].
  apply bool_decide_eq_true in Hn as ->. eauto.
Qed.

Lemma selectors_names :
  Forall (fun sel => In (sel_tag sel) container_names) selectors.
Proof.
  apply List.Forall_forall. intros sel Hin. unfold selectors in Hin.
  cbn [In] in Hin. unfold container_names. cbn [map In].
  repeat (destruct Hin as [<- | Hin]; [cbn [sel_tag]; auto 10|]).
  contradiction.
Qed.

(** X12: the container is an element of the page: a tag of the document,
    called main, article, div, section or body, and with text unless it is
    the body; there is no container only when the page has no body
    element. *)
Theorem find_main_container_element (document : soup) :
  match _find_main_container document with
  | Some container =>
      In container (descendant_tags document) /\
      exists name attrs contents,
        container = Tag name attrs contents /\
        In name container_names /\
        (name = py "body" \/ get_text_strip [] container <> [])
  | None =>
      forall name attrs contents,
        In (Tag name attrs contents) (descendant_tags document) ->
        name <> py "body"
  end.
Proof.
  unfold _find_main_container.
  pose proof (first_container_spec document selectors) as Hspec.
  destruct (first_container document selectors) as [container|].
  - destruct Hspec as (pre & sel & post & Hsel & _ & Hfind & Htext).
    assert (Hin : In sel selectors) by (rewrite Hsel; apply in_elt).
    pose proof (proj1 (List.Forall_forall _ _) selectors_names sel Hin) as Hname.
    unfold find_selector in Hfind.
    assert (Hfound : In container (descendant_tags document) /\
                     exists wanted,
                       tag_matches (sel_tag sel) wanted container = true).
    { destruct (sel_attrs sel) as [kv|];
        apply soup_find_some in Hfind as [? ?]; eauto. }
    destruct Hfound as (Hd & wanted & Hm).
    apply tag_matches_name in Hm as (attrs & contents & ->).
    split; [assumption|]. eexists _, _, _. eauto.
  - destruct (find (py "body") [] document) as [body|] eqn:Hbody.
    + apply soup_find_some in Hbody as [Hd Hm].
      apply tag_matches_name in Hm as (attrs & contents & ->).
      split; [assumption|]. eexists _, _, _. split; [reflexivity|].
      split; [|now left]. unfold container_names. cbn [map In]. auto 10.
    + now apply soup_find_none.
Qed.

Lemma node_nested_ind (P : node -> Prop) :
  (forall s, P (NavigableString s)) ->
  (forall name attrs contents,
     Forall P contents -> P (Tag name attrs contents)) ->
  forall n, P n.
Proof.
  intros Hs Ht. fix IH 1. intros [s|name attrs contents].
  - apply Hs.
  - apply Ht.
    exact ((fix all (cs : list node) : Forall P cs :=
              match cs with
              | [] => @List.Forall_nil node P
              | c :: cs' => @List.Forall_cons node P c cs' (IH c) (all cs')
              end) contents).
Qed.

Lemma decompose_all_Tag (name name' : str) (attrs : list (str * str))
    (contents : list node) :
  decompose_all name (Tag name' attrs contents)
    = Tag name' attrs (prune name contents).
Proof.
  cbn [decompose_all]. f_equal.
  induction contents as [|c cs IH]; [reflexivity|].
  cbn [prune]. now rewrite IH.
Qed.

(** [decompose] leaves the name and the attributes of what it keeps. *)
Lemma tag_matches_decompose_all (name name' : str)
    (wanted : list (str * str)) (n : node) :
  tag_matches name wanted (decompose_all name' n) = tag_matches name wanted n.
Proof. now destruct n. Qed.

Lemma decompose_all_comm (a b : str) (n : node) :
  decompose_all a (decompose_all b n) = decompose_all b (decompose_all a n).
Proof.
  induction n as [s|name attrs contents IH] using node_nested_ind;
    [reflexivity|].
  rewrite !decompose_all_Tag. f_equal.
  induction IH as [|c cs Hc _ IHcs]; [reflexivity|].
  cbn [prune].
  destruct (tag_matches b [] c) eqn:Hb, (tag_matches a [] c) eqn:Ha;
    cbn [prune]; rewrite ?tag_matches_decompose_all, ?Ha, ?Hb;
    try assumption.
  now rewrite Hc, IHcs.
Qed.

Lemma decompose_all_idem (a : str) (n : node) :
  decompose_all a (decompose_all a n) = decompose_all a n.
Proof.
  induction n as [s|name attrs contents IH] using node_nested_ind;
    [reflexivity|].
  rewrite !decompose_all_Tag. f_equal.
  induction IH as [|c cs Hc _ IHcs]; [reflexivity|].
  cbn [prune]. destruct (tag_matches a [] c) eqn:Ha; [assumption|].
  cbn [prune]. rewrite tag_matches_decompose_all, Ha. now rewrite Hc, IHcs.
Qed.

(** After [decompose] no descendant has the name. *)
Lemma decompose_all_clean (a : str) (n : node) :
  find_all a [] (contents_of (decompose_all a n)) = [].
Proof.
  induction n as [s|name attrs contents IH] using node_nested_ind;
    [reflexivity|].
  rewrite decompose_all_Tag. cbn [contents_of].
  unfold find_all, descendant_tags.
  induction IH as [|c cs Hc _ IHcs]; [reflexivity|].
  cbn [prune]. destruct (tag_matches a [] c) eqn:Ha; [assumption|].
  cbn [flat_map]. rewrite List.filter_app, IHcs, app_nil_r.
  destruct c as [s|name' attrs' contents']; [reflexivity|].
  rewrite decompose_all_Tag in *. cbn [tags contents_of] in *.
  cbn [List.filter]. rewrite <- (decompose_all_Tag a name' attrs' contents').
  rewrite tag_matches_decompose_all, Ha.
  exact Hc.
Qed.

Lemma fold_decompose_comm (a : str) (names : list str) (n : node) :
  fold_left (fun c element_type => decompose_all element_type c) names
    (decompose_all a n)
  = decompose_all a
      (fold_left (fun c element_type => decompose_all element_type c) names n).
Proof.
  revert n. induction names as [|b names IH]; intros n; [reflexivity|].
  cbn [fold_left]. now rewrite decompose_all_comm, IH.
Qed.

Lemma fold_decompose_absorbs (a : str) (names : list str) (n : node) :
  In a names ->
  decompose_all a
    (fold_left (fun c element_type => decompose_all element_type c) names n)
  = fold_left (fun c element_type => decompose_all element_type c) names n.
Proof.
  revert n. induction names as [|b names IH]; intros n; [easy|].
  cbn [fold_left]. intros [-> | Hin].
  - now rewrite <- fold_decompose_comm, decompose_all_idem.
  - now apply IH.
Qed.

(** X13: what stands inside a script, style, nav, header, footer, aside or
    noscript element, at whatever depth, takes no part in the extracted
    text: removing all the elements of one of these names beforehand, after
    which none is left, changes nothing. *)
Theorem extract_clean_text_unwanted (name : str) (container : node) :
  In name unwanted_elements ->
  find_all name [] (contents_of (decompose_all name container)) = [] /\
  _extract_clean_text (decompose_all name container)
    = _extract_clean_text container.
Proof.
  intros Hin. split; [apply decompose_all_clean|].
  unfold _extract_clean_text.
  now rewrite fold_decompose_comm, fold_decompose_absorbs.
Qed.

(** X14: the extracted text has no blank line and no space at either end of
    a line: each of its lines is its own [strip], an empty line occurs only
    when the whole text is empty, and the text is its own [strip]. *)
Theorem extract_clean_text_lines (container : node) :
  let text := _extract_clean_text container in
  Forall (fun line => strip line = line) (split_on 10%N text) /\
  (In [] (split_on 10%N text) -> text = []) /\
  strip text = text.
Proof.
  cbv zeta. unfold _extract_clean_text.
  set (text := get_text_strip [10%N] _).
  set (lines := map strip (List.filter (fun line => truthy (strip line))
                             (split_on 10%N text))).
  assert (Hstripped : Forall (fun p => strip p = p) lines).
  { apply Forall_map. apply List.Forall_forall. intros p _. apply strip_idem. }
  assert (Hfull : Forall (fun p => p <> []) lines).
  { apply Forall_map. apply List.Forall_forall. intros p Hp.
    apply filter_In in Hp as [_ Hp]. now destruct (strip p). }
  assert (Hnl : Forall (fun p => ~ In 10%N p) lines).
  { apply Forall_map. apply List.Forall_forall. intros p Hp Hin.
    apply filter_In in Hp as [Hp _]. apply strip_In in Hin.
    pose proof (split_on_from_In 10%N text [] (fun x => x)) as Hall.
    now apply (proj1 (List.Forall_forall _ _) Hall p Hp). }
  destruct lines as [|l ls] eqn:Hlines.
  - cbn [join split_on split_on_from rev]. repeat split.
    repeat constructor.
  - rewrite split_on_join by (easy || assumption).
    split; [assumption|]. split.
    + intros Hin. now apply (proj1 (List.Forall_forall _ _) Hfull) in Hin.
    + (* the first line begins, and the last line ends, with a character
         that is no space *)
      assert (Hhead : exists c s, join [10%N] (l :: ls) = c :: s /\
                                  isspace c = false).
      { inversion Hstripped as [|? ? Hl _]; subst.
        inversion Hfull as [|? ? Hl0 _]; subst.
        destruct (strip_cases l) as [E | (c & s' & E & Hc & _)];
          [congruence|].
        rewrite Hl in E. subst l.
        destruct (join_head [10%N] c s' ls) as [s Hs]. eauto. }
      assert (Hlast : exists s c, join [10%N] (l :: ls) = s ++ [c] /\
                                  isspace c = false).
      { destruct (exists_last (l := l :: ls) ltac:(easy)) as (qs & q & Hq).
        rewrite Hq in *.
        apply Forall_app in Hstripped as [_ Hs].
        apply Forall_app in Hfull as [_ Hf].
        inversion Hs as [|? ? Hq1 _]; subst.
        inversion Hf as [|? ? Hq2 _]; subst.
        destruct (strip_snoc q) as (q' & c & E & Hc); [congruence|].
        rewrite Hq1 in E. subst q.
        destruct (join_last [10%N] qs q' c) as [s Hs']. eauto. }
      destruct Hhead as (c & s & Hj & Hc).
      destruct Hlast as (s2 & c2 & Hj2 & Hc2).
      unfold strip. rewrite Hj, lstrip_fixed by assumption.
      rewrite <- Hj, Hj2. now apply rstrip_last.
Qed.

(** ** More on patterns *)

Section MorePatternFacts.
Context `{UCD}.

(** A greedy run that succeeds has taken at least one character of its
    class, and only such characters, before the rest of the pattern. *)
Lemma plus_from_run {R} (k : cls) (g : option str) (s : str)
    (cont : mstate -> option R) (x : R) :
  plus_from k g s cont = Some x ->
  exists (n : nat) (c : N),
    (0 < n <= length s)%nat /\
    forallb (in_cls k) (firstn n s) = true /\
    cont (MState (Some c) (skipn n s) g) = Some x.
Proof.
  induction s as [|c s IH]; cbn [plus_from]; [discriminate|].
  destruct (in_cls k c) eqn:Hc; [|discriminate].
  destruct (plus_from k g s cont) as [y|] eqn:Hrun.
  - intros [= ->]. destruct (IH eq_refl) as (n & d & Hn & Hall & Hcont).
    exists (S n), d. cbn [firstn skipn forallb length]. rewrite Hc, Hall.
    repeat split; (lia || assumption).
  - intros Hcont. exists 1%nat, c. cbn [firstn skipn forallb length].
    rewrite Hc. repeat split; (lia || assumption).
Qed.

(** A pattern that matches has called what follows it. *)
Lemma exec_success {R} (r : regex) :
  forall (st : mstate) (cont : mstate -> option R) (x : R),
    exec r st cont = Some x -> exists st', cont st' = Some x.
Proof.
  induction r as [|c| |r1 IH1 r2 IH2|k|r1 IH1|r1 IH1]; intros st cont x;
    cbn [exec].
  - eauto.
  - destruct (rest st) as [|d s']; [discriminate|].
    destruct (c =? d)%N; [eauto | discriminate].
  - destruct (at_boundary st); [eauto | discriminate].
  - intros Hx. apply IH1 in Hx as [st1 Hx]. now apply IH2 in Hx.
  - intros Hx. apply plus_from_run in Hx as (n & c & _ & _ & Hx). eauto.
  - destruct (exec r1 st cont) as [y|] eqn:Hy.
    + intros [= ->]. now apply IH1 in Hy.
    + eauto.
  - intros Hx. apply IH1 in Hx as [st1 Hx]. eauto.
Qed.

(** What the group of a norm pattern captures: at least one digit, and
    digits only. *)
Lemma norm_pattern_group (keyword : str) (prev : option N) (s : str)
    (st : mstate) :
  match_at (norm_pattern keyword) prev s = Some st ->
  exists number,
    group st = Some number /\ number <> [] /\
    forallb is_digit number = true.
Proof.
  unfold match_at, norm_pattern. cbn [exec]. intros Hm.
  apply exec_success in Hm as [st1 Hm].
  apply plus_from_run in Hm as (n1 & c1 & _ & _ & Hm).
  set (st2 := MState _ _ _) in Hm.
  assert (Hgroup : exists st3,
             plus_from ClsDigit (group st3) (rest st3)
               (fun st' =>
                  Some (MState (before st') (rest st')
                          (Some (consumed (rest st3) (rest st')))))
             = Some st).
  { destruct (exec _ st2 _) as [y|] eqn:Hy.
    - injection Hm as ->. apply exec_success in Hy as [st3 Hy].
      apply plus_from_run in Hy as (n2 & c2 & _ & _ & Hy). eauto.
    - eauto. }
  destruct Hgroup as [st3 Hg].
  apply plus_from_run in Hg as (n & c & Hn & Hall & Hst).
  injection Hst as <-. cbn [group].
  assert (Hc : consumed (rest st3) (skipn n (rest st3)) = firstn n (rest st3)).
  { unfold consumed. rewrite length_skipn. f_equal. lia. }
  rewrite Hc. eexists. split; [reflexivity|]. split; [|exact Hall].
  destruct (rest st3); [cbn [length] in Hn; lia|].
  destruct n; [lia | discriminate].
Qed.

(** Every match that the scan reports is a match of the pattern. *)
Lemma scan_found (r : regex) (s : str) :
  forall (skip : nat) (prev : option N) (m : found),
    In m (scan r skip prev s) ->
    exists prev' s' st,
      match_at r prev' s' = Some st /\ captured m = group st.
Proof.
  induction s as [|c s IH]; intros skip prev m.
  - destruct skip as [|n]; cbn [scan]; [|easy].
    destruct (match_at r prev []) as [st|] eqn:Hm; [|easy].
    intros [<- | []]. eauto.
  - destruct skip as [|n]; cbn [scan]; [|apply IH].
    destruct (match_at r prev (c :: s)) as [st|] eqn:Hm; [|apply IH].
    intros [<- | Hin]; [eauto | now apply IH in Hin].
Qed.

Lemma findall_norm_pattern (keyword text : str) (number : str) :
  In number (findall (norm_pattern keyword) text) ->
  number <> [] /\ forallb is_digit number = true.
Proof.
  unfold findall, finditer. intros Hin.
  apply in_map_iff in Hin as (m & <- & Hin).
  apply scan_found in Hin as (prev & s & st & Hm & ->).
  apply norm_pattern_group in Hm as (g & -> & Hne & Hd). auto.
Qed.

End MorePatternFacts.

(** ** More on the analyzer *)

Lemma sum_values_empty : sum_values ∅ = 0%nat.
Proof. apply map_fold_empty. Qed.

Lemma sum_values_insert (found : gmap str nat) (k : str) (count : nat) :
  found !! k = None ->
  sum_values (<[k:=count]> found) = (count + sum_values found)%nat.
Proof.
  intros Hk. unfold sum_values.
  rewrite map_fold_insert_L; [reflexivity | intros; lia | assumption].
Qed.

Lemma adres_keywords_NoDup : NoDup adres_keywords.
Proof. apply (bool_decide_unpack _). vm_compute. exact I. Qed.

Lemma Qgtb_weaken (d x y : Q) :
  (y <= x)%Q -> Qgtb d x = true -> Qgtb d y = true.
Proof.
  rewrite !Qgtb_true. intros Hxy Hd. eapply Qle_lt_trans; eassumption.
Qed.

Section MoreAnalyzerFacts.
Context `{UCD}.

(** The loop of [_find_adres_keywords] keeps the total equal to the sum of
    the counts in the dictionary, when no keyword comes twice. *)
Lemma fold_count_adres_sum (text_lower : str) (kws : list str) :
  NoDup kws ->
  forall (found : gmap str nat) (total : nat),
    (forall k, k ∈ kws -> found !! k = None) ->
    total = sum_values found ->
    let r := fold_left (count_adres text_lower) kws (found, total) in
    r.2 = sum_values r.1.
Proof.
  cbv zeta. induction 1 as [|k0 kws Hk0 Hnd IH]; intros found total Hnew Ht;
    [exact Ht|].
  cbn [fold_left]. rewrite count_adres_step. apply IH.
  - intros k Hk.
    assert (Hne : k <> k0) by (intros ->; contradiction).
    destruct (0 <? count_keyword k0 text_lower)%nat;
      [rewrite lookup_insert_ne by congruence|];
      apply Hnew; now right.
  - destruct (Nat.ltb_spec 0 (count_keyword k0 text_lower)) as [Hpos|Hzero].
    + rewrite sum_values_insert by (apply Hnew; now left). lia.
    + lia.
Qed.

(** X15: the dictionary and the total of [_find_adres_keywords] agree: the
    keys are keywords of the vocabulary, every count in it is positive, and
    [total_coincidencias] is the sum of its values. *)
Theorem find_adres_keywords_total (text : str) :
  let found := _find_adres_keywords text in
  total_coincidencias found = sum_values (palabras_encontradas found) /\
  (forall k count,
     palabras_encontradas found !! k = Some count ->
     k ∈ adres_keywords /\ (0 < count)%nat) /\
  (palabras_encontradas found = ∅ <-> total_coincidencias found = 0%nat).
Proof.
  cbv zeta.
  destruct (find_adres_keywords_fold text) as (Hf & Ht & _).
  destruct (fold_count_adres (lower text) adres_keywords ∅ 0) as [_ Hlook].
  cbv zeta in Hlook.
  pose proof (fold_count_adres_sum (lower text) adres_keywords
                adres_keywords_NoDup ∅ 0%nat
                (fun k _ => lookup_empty k) (eq_sym sum_values_empty)) as Hsum.
  cbv zeta in Hsum.
  assert (Hkeys : forall k count,
             palabras_encontradas (_find_adres_keywords text) !! k = Some count ->
             k ∈ adres_keywords /\ (0 < count)%nat).
  { intros k count. rewrite Hf, Hlook, lookup_empty.
    destruct (bool_decide (k ∈ adres_keywords)) eqn:Hk; [|discriminate].
    apply bool_decide_eq_true in Hk. cbn [andb].
    destruct (Nat.ltb_spec 0 (count_keyword k (lower text))); [|discriminate].
    intros [= <-]. auto. }
  split; [now rewrite Hf, Ht|]. split; [exact Hkeys|].
  rewrite Ht, Hsum, <- Hf.
  set (found := palabras_encontradas (_find_adres_keywords text)) in *.
  clearbody found. clear - Hkeys. split.
  - intros ->. apply sum_values_empty.
  - induction found as [|k count found Hk _ IH] using map_first_key_ind;
      [reflexivity|].
    rewrite sum_values_insert by assumption. intros Hz.
    destruct (Hkeys k count) as [_ Hpos]; [apply lookup_insert_eq | lia].
Qed.

(** X16: how the flags of a classification go with its type. A document
    typed ADRES or normative ADRES is flagged [es_documento_adres]; one
    typed legal or normative ADRES is flagged [es_documento_legal]; one
    with neither flag is typed general; the type is never
    [documento_vacio]; and the criteria recorded are the density and the
    counts that were read. *)
Theorem classify_document_flags (analysis : Analysis) (c : Classification) :
  _classify_document analysis = Return c ->
  (tipo_documento c = documento_normativo_adres ->
   es_documento_adres c = true /\ es_documento_legal c = Some true) /\
  (tipo_documento c = documento_adres -> es_documento_adres c = true) /\
  (tipo_documento c = documento_legal -> es_documento_legal c = Some true) /\
  (es_documento_adres c = false -> es_documento_legal c = Some false ->
   tipo_documento c = documento_general) /\
  tipo_documento c <> documento_vacio /\
  exists criterios,
    criterios_clasificacion c = Some criterios /\
    densidad_keywords (palabras_clave_adres analysis)
      = Some (densidad_adres criterios) /\
    criterio_terminos_legales criterios
      = size (terminos_legales (palabras_clave_legales analysis)) /\
    (tiene_normas criterios = true <->
     normas_identificadas (palabras_clave_legales analysis) <> ∅).
Proof.
  unfold _classify_document.
  destruct (densidad_keywords (palabras_clave_adres analysis)) as [d|];
    [|discriminate].
  set (n := size _). set (norms := normas_identificadas _).
  set (has_norms := bool_decide (norms <> ∅)).
  assert (Hhalf : forall x, (1 <= x)%Q -> (x < d)%Q -> Qgtb d 0.5 = true).
  { intros x Hx Hd. apply Qgtb_true. lra. }
  assert (Hlegal : (1 < n)%nat \/ norms <> ∅ ->
                   Some ((1 <? n)%nat || has_norms) = Some true).
  { intros [Hn | Hn]; f_equal; apply orb_true_iff;
      [left; now apply Nat.ltb_lt | right; now apply bool_decide_eq_true]. }
  assert (Hcrit : exists criterios,
             Some {| densidad_adres := d;
                     criterio_terminos_legales := n;
                     tiene_normas := has_norms |} = Some criterios /\
             Some d = Some (densidad_adres criterios) /\
             criterio_terminos_legales criterios = n /\
             (tiene_normas criterios = true <-> norms <> ∅)).
  { eexists. split; [reflexivity|].
    cbn [densidad_adres criterio_terminos_legales tiene_normas].
    split; [reflexivity|]. split; [reflexivity|]. apply bool_decide_eq_true. }
  pose proof (first_row_iff d n) as R1.
  pose proof (Qgtb_true d 1) as R2.
  pose proof (third_row_iff n norms) as R3. fold has_norms in R3.
  destruct (Qgtb d 2 && (3 <? n)%nat);
    [|destruct (Qgtb d 1); [|destruct ((2 <? n)%nat || has_norms)]];
    intros [= <-];
    cbn [tipo_documento es_documento_adres es_documento_legal
         criterios_clasificacion].
  - destruct (proj1 R1 eq_refl) as [Hd Hn].
    assert (Ha : Qgtb d 0.5 = true) by (apply (Hhalf 2%Q); [discriminate | exact Hd]).
    split; [intros _; split; [exact Ha | apply Hlegal; left; lia]|].
    split; [discriminate|]. split; [discriminate|].
    split; [intros E; congruence|].
    split; [discriminate | exact Hcrit].
  - assert (Ha : Qgtb d 0.5 = true)
      by (apply (Hhalf 1%Q); [discriminate | now apply R2]).
    split; [discriminate|]. split; [intros _; exact Ha|].
    split; [discriminate|].
    split; [intros E; congruence|].
    split; [discriminate | exact Hcrit].
  - assert (Hl : Some ((1 <? n)%nat || has_norms) = Some true).
    { apply Hlegal. destruct (proj1 R3 eq_refl) as [Hn | Hn]; [left; lia | now right]. }
    split; [discriminate|]. split; [discriminate|].
    split; [intros _; exact Hl|].
    split; [intros _ E; congruence|].
    split; [discriminate | exact Hcrit].
  - split; [discriminate|]. split; [discriminate|]. split; [discriminate|].
    split; [reflexivity|].
    split; [discriminate | exact Hcrit].
Qed.

(** X17: what [_classify_document] gives on an analysis that
    [analyze_content] returned. For a text with something in it, it gives
    the classification stored in the analysis again; for an empty text, the
    analysis is the one of [_create_empty_analysis], which has no density,
    and [_classify_document] raises [KeyError]. *)
Theorem classify_document_again (text url : str) (a : Analysis) :
  analyze_content text url = Return a ->
  (strip text = [] -> _classify_document a = Raise KeyError) /\
  (strip text <> [] ->
   exists c, clasificacion a = Some c /\ _classify_document a = Return c).
Proof.
  intros Ha. split.
  - intros Hs. apply strip_nil_iff in Hs.
    rewrite analyze_content_blank_eq in Ha by assumption.
    injection Ha as <-. reflexivity.
  - intros Hs.
    assert (Hb : forallb isspace text = false).
    { destruct (forallb isspace text) eqn:Hb; [|reflexivity].
      now apply strip_nil_iff in Hb. }
    rewrite analyze_content_text_eq in Ha by assumption.
    destruct (_classify_document _) as [e|c] eqn:Hc; [discriminate|].
    injection Ha as <-. exists c. split; [reflexivity|].
    rewrite <- Hc. reflexivity.
Qed.

Lemma norm_patterns_shape :
  Forall (fun entry => exists keyword, snd entry = norm_pattern keyword)
    norm_patterns.
Proof. repeat apply List.Forall_cons; try apply List.Forall_nil; eexists; reflexivity. Qed.

(** The table that the second loop of [_find_legal_keywords] builds. *)
Lemma fold_find_norm (text_lower : str) (patterns : list (str * regex))
    (found : gmap str (gset str)) (k : str) (numbers : gset str) :
  fold_left (find_norm text_lower) patterns found !! k = Some numbers ->
  found !! k = Some numbers \/
  exists pattern,
    In (k, pattern) patterns /\
    findall pattern text_lower <> [] /\
    numbers = list_to_set (findall pattern text_lower).
Proof.
  revert found. induction patterns as [|[k0 p0] patterns IH]; intros found;
    cbn [fold_left]; [now left|].
  intros Hk. apply IH in Hk as [Hk | (pattern & Hin & Hne & Hn)].
  - unfold find_norm in Hk.
    destruct (findall p0 text_lower) as [|m ms] eqn:Hm; [now left|].
    destruct (decide (k = k0)) as [->|Hne].
    + rewrite lookup_insert_eq in Hk. injection Hk as <-.
      right. exists p0. rewrite Hm. repeat split; [now left | discriminate].
    + rewrite lookup_insert_ne in Hk by congruence. now left.
  - right. exists pattern. repeat split; [now right | assumption | assumption].
Qed.

(** X18: the norms that [_find_legal_keywords] identifies. The keys are among
    resoluciones, decretos, leyes and articulos; a key that is present has
    at least one number; and each number is a string of one digit or more,
    of digits only. *)
Theorem find_legal_keywords_norms (text : str) (k : str) (numbers : gset str) :
  normas_identificadas (_find_legal_keywords text) !! k = Some numbers ->
  In k norm_types /\
  numbers <> ∅ /\
  forall number, number ∈ numbers ->
    number <> [] /\ forallb is_digit number = true.
Proof.
  unfold _find_legal_keywords. cbn [normas_identificadas]. intros Hk.
  apply fold_find_norm in Hk as [Hk | (pattern & Hin & Hne & ->)];
    [now rewrite lookup_empty in Hk|].
  split; [apply (in_map fst _ _ Hin : In k (map fst norm_patterns))|]. split.
  - destruct (findall pattern (lower text)) as [|m ms]; [easy|].
    intros Hempty.
    assert (Hm : m ∈ (list_to_set (m :: ms) : gset str))
      by (apply elem_of_list_to_set; now left).
    rewrite Hempty in Hm. now apply elem_of_empty in Hm.
  - intros number Hn. apply elem_of_list_to_set in Hn.
    apply list_elem_of_In in Hn.
    pose proof (proj1 (List.Forall_forall _ _) norm_patterns_shape _ Hin)
      as [keyword Hp].
    cbn [snd] in Hp. subst pattern.
    now apply findall_norm_pattern in Hn.
Qed.

(** X19: a text is flagged ADRES only if a keyword of ADRES occurs in it:
    when [es_documento_adres] holds, at least one keyword was counted. *)
Theorem adres_flag_needs_keyword (text url : str) (a : Analysis)
    (c : Classification) :
  analyze_content text url = Return a ->
  clasificacion a = Some c ->
  es_documento_adres c = true ->
  (0 < total_coincidencias (palabras_clave_adres a))%nat /\
  palabras_encontradas (palabras_clave_adres a) <> ∅.
Proof.
  intros Ha Hc Hflag.
  destruct (forallb isspace text) eqn:Hb.
  { rewrite analyze_content_blank_eq in Ha by assumption.
    injection Ha as <-. cbn in Hc. injection Hc as <-. discriminate. }
  rewrite analyze_content_text_eq in Ha by assumption.
  destruct (_classify_document _) as [e|c'] eqn:Hc'; [discriminate|].
  injection Ha as <-. cbn [clasificacion] in Hc. injection Hc as ->.
  cbn [palabras_clave_adres].
  destruct (find_adres_keywords_fold text) as (Hf & Ht & Hd).
  unfold _classify_document in Hc'. cbn [palabras_clave_adres] in Hc'.
  rewrite Hd in Hc'.
  match type of Hc' with
  | context [Qgtb ?d 0.5] => set (density := d) in Hc'
  end.
  assert (Hdens : Qgtb density 0.5 = true).
  { destruct (Qgtb density 2 && _), (Qgtb density 1), (_ || _);
      injection Hc' as <-; exact Hflag. }
  assert (Hpos : (0 < total_coincidencias (_find_adres_keywords text))%nat).
  { destruct (total_coincidencias (_find_adres_keywords text)) as [|t] eqn:Hz;
      [|lia].
    exfalso. subst density. apply Qgtb_true in Hdens.
    apply Qlt_not_le in Hdens. apply Hdens.
    destruct (length (split text) =? 0)%nat; [discriminate|].
    cbn [Z.of_nat]. unfold Qdiv. rewrite !Qmult_0_l. discriminate. }
  split; [assumption|].
  intros Hempty.
  destruct (fold_count_adres (lower text) adres_keywords ∅ 0) as [_ Hlook].
  cbv zeta in Hlook.
  pose proof (fold_count_adres_sum (lower text) adres_keywords
                adres_keywords_NoDup ∅ 0%nat
                (fun k _ => lookup_empty k) (eq_sym sum_values_empty)) as Hsum.
  cbv zeta in Hsum.
  rewrite Ht, Hsum, <- Hf, Hempty, sum_values_empty in Hpos. lia.
Qed.

End MoreAnalyzerFacts.

(** ** Words, sentences and paragraphs *)

Lemma filter_length_mono {A} (p q : A -> bool) (l : list A) :
  (forall a, p a = true -> q a = true) ->
  (length (List.filter p l) <= length (List.filter q l))%nat.
Proof.
  intros Hpq. induction l as [|a l IH]; [reflexivity|]. cbn [List.filter].
  destruct (p a) eqn:Hp.
  - rewrite (Hpq a Hp). cbn [length]. lia.
  - destruct (q a); cbn [length]; lia.
Qed.

Lemma filter_nonspace_blank (s : str) :
  length (List.filter (fun c => negb (isspace c)) s) = 0%nat <->
  forallb isspace s = true.
Proof.
  induction s as [|c s IH]; [easy|]. cbn [List.filter forallb].
  destruct (isspace c); cbn [negb andb length]; [exact IH | easy].
Qed.

(** The words of [s.split()] are not empty, and together they hold the
    characters of [s] that are no space. *)
Lemma split_from_words (s : str) :
  forall word : str,
    Forall (fun w => w <> []) (split_from word s) /\
    sum_list (map length (split_from word s))
      = (length word + length (List.filter (fun c => negb (isspace c)) s))%nat.
Proof.
  induction s as [|c s IH]; intros word; cbn [split_from List.filter].
  - destruct word as [|d word]; [split; [constructor | reflexivity]|].
    split.
    + constructor; [|constructor]. intros E.
      apply (f_equal (@length N)) in E. rewrite length_rev in E. discriminate.
    + cbn [map sum_list sum_list_with length]. rewrite length_rev.
      cbn [length]. unfold id in *. lia.
  - destruct (isspace c); cbn [negb].
    + destruct word as [|d word]; [apply IH|].
      destruct (IH []) as [Hne Hsum]. split.
      * constructor; [|assumption]. intros E.
        apply (f_equal (@length N)) in E. rewrite length_rev in E.
        discriminate.
      * cbn [map sum_list sum_list_with]. fold (sum_list (map length (split_from [] s))).
        rewrite Hsum, length_rev. cbn [length]. unfold id in *. lia.
    + destruct (IH (c :: word)) as [Hne Hsum]. split; [assumption|].
      rewrite Hsum. cbn [length]. lia.
Qed.

Lemma sum_list_lengths_ge (l : list str) :
  Forall (fun w => w <> []) l ->
  (length l <= sum_list (map length l))%nat.
Proof.
  induction 1 as [|w l Hw _ IH]; [reflexivity|].
  cbn [map sum_list sum_list_with length].
  fold (sum_list (map length l)).
  destruct w; [contradiction|]. cbn [length]. unfold id in *. lia.
Qed.

Lemma stripped_pieces (pieces : list str) :
  Forall (fun p => p <> [] /\ strip p = p)
    (map strip (List.filter (fun p => truthy (strip p)) pieces)).
Proof.
  apply Forall_map. apply List.Forall_forall. intros p Hp.
  apply filter_In in Hp as [_ Hp]. split; [|apply strip_idem].
  now destruct (strip p).
Qed.

Lemma stripped_pieces_nil (pieces : list str) :
  map strip (List.filter (fun p => truthy (strip p)) pieces) = [] <->
  forallb (forallb isspace) pieces = true.
Proof.
  induction pieces as [|p ps IH]; [easy|]. cbn [List.filter forallb].
  destruct (strip p) as [|c t] eqn:Hs; cbn [truthy].
  - apply strip_nil_iff in Hs. now rewrite Hs.
  - cbn [map]. split; [discriminate|]. intros Hb.
    apply andb_true_iff in Hb as [Hb _]. apply strip_nil_iff in Hb.
    congruence.
Qed.

(** The pieces of a text between matches that hold spaces only are blank
    exactly when the text is. *)
Lemma split_matches_blank (match_length : str -> nat) :
  (forall s n, match_length s = S n ->
     forallb isspace (firstn (S n) s) = true) ->
  forall (s : str) (skip : nat) (piece : str),
    forallb isspace (firstn skip s) = true ->
    forallb (forallb isspace) (split_matches match_length skip piece s)
      = forallb isspace piece && forallb isspace s.
Proof.
  intros Hm. induction s as [|c s IH]; intros skip piece Hskip;
    cbn [split_matches].
  - cbn [forallb]. now rewrite forallb_rev.
  - destruct skip as [|n].
    + destruct (match_length (c :: s)) as [|n] eqn:Hl.
      * rewrite IH by reflexivity. cbn [forallb].
        now destruct (isspace c), (forallb isspace piece).
      * apply Hm in Hl. cbn [firstn forallb] in Hl.
        apply andb_true_iff in Hl as [Hc Hn].
        cbn [forallb]. rewrite forallb_rev, IH by assumption.
        cbn [forallb]. now rewrite Hc.
    + cbn [firstn forallb] in Hskip. apply andb_true_iff in Hskip as [Hc Hn].
      rewrite IH by assumption. cbn [forallb]. now rewrite Hc.
Qed.

(** Whatever the matches, the pieces of a blank text are blank. *)
Lemma split_matches_of_blank (match_length : str -> nat) (s : str) :
  forall (skip : nat) (piece : str),
    forallb isspace piece = true -> forallb isspace s = true ->
    forallb (forallb isspace) (split_matches match_length skip piece s) = true.
Proof.
  induction s as [|c s IH]; intros skip piece Hp Hs; cbn [split_matches].
  - cbn [forallb]. now rewrite forallb_rev, Hp.
  - cbn [forallb] in Hs. apply andb_true_iff in Hs as [Hc Hs].
    destruct skip as [|n]; [|now apply IH].
    destruct (match_length (c :: s)) as [|n].
    + apply IH; [|assumption]. cbn [forallb]. now rewrite Hc, Hp.
    + cbn [forallb]. rewrite forallb_rev, Hp. now apply IH.
Qed.

(** Without a match the text is one piece. *)
Lemma split_matches_none (match_length : str -> nat) (s : str) :
  (forall pre post, s = pre ++ post -> match_length post = 0%nat) ->
  forall piece, split_matches match_length 0 piece s = [rev piece ++ s].
Proof.
  induction s as [|c s IH]; intros Hm piece; cbn [split_matches].
  - now rewrite app_nil_r.
  - rewrite (Hm [] (c :: s) eq_refl).
    rewrite IH.
    + cbn [rev]. now rewrite <- app_assoc.
    + intros pre post ->. apply (Hm (c :: pre)). reflexivity.
Qed.

Lemma sentence_end_no_mark (s : str) :
  Forall (fun c => is_terminator c = false) s -> sentence_end s = 0%nat.
Proof.
  intros Hs. unfold sentence_end.
  destruct Hs as [|c s Hc _]; [reflexivity|].
  cbn [run_length]. now rewrite Hc.
Qed.

Lemma run_length_firstn (p : N -> bool) (s : str) :
  forallb p (firstn (run_length p s) s) = true.
Proof.
  induction s as [|c s IH]; [reflexivity|]. cbn [run_length].
  destruct (p c) eqn:Hc; [|reflexivity]. cbn [firstn forallb].
  now rewrite Hc.
Qed.

Lemma split_paragraphs_nil (text : str) :
  _split_paragraphs text = [] <-> strip text = [].
Proof.
  unfold _split_paragraphs.
  rewrite stripped_pieces_nil, strip_nil_iff. unfold split_str.
  rewrite split_matches_blank; [reflexivity | | reflexivity].
  intros s n. destruct (startswith s [10%N; 10%N]) eqn:Hs; [|discriminate].
  intros [= <-]. apply startswith_app in Hs as [post ->]. reflexivity.
Qed.

Lemma split_sentences_blank (text : str) :
  strip text = [] -> _split_sentences text = [].
Proof.
  unfold _split_sentences. intros Hb. apply strip_nil_iff in Hb.
  apply stripped_pieces_nil. now apply split_matches_of_blank.
Qed.

(** X20: the paragraphs of a text. Each one is its own [strip] and is not
    empty; and there is none exactly when the text holds spaces only. *)
Theorem split_paragraphs_spec (text : str) :
  Forall (fun p => p <> [] /\ strip p = p) (_split_paragraphs text) /\
  (_split_paragraphs text = [] <-> strip text = []).
Proof.
  split; [apply stripped_pieces | apply split_paragraphs_nil].
Qed.

(** X21: the sentences of a text. Each one is its own [strip] and is not
    empty; a text of spaces only has none; and a text without any of
    [.], [!] and [?] is one sentence, its [strip]. *)
Theorem split_sentences_spec (text : str) :
  Forall (fun s => s <> [] /\ strip s = s) (_split_sentences text) /\
  (strip text = [] -> _split_sentences text = []) /\
  (Forall (fun c => is_terminator c = false) text -> strip text <> [] ->
   _split_sentences text = [strip text]).
Proof.
  split; [apply stripped_pieces|]. split; [apply split_sentences_blank|].
  unfold _split_sentences. intros Hno Hne. rewrite split_matches_none.
  - cbn [rev app List.filter].
    destruct (strip text) eqn:Hs; [contradiction|].
    cbn [truthy map]. now rewrite Hs.
  - intros pre post ->. apply Forall_app in Hno as [_ Hpost].
    now apply sentence_end_no_mark.
Qed.

Lemma Qdiv_nat_le (a b c : nat) :
  (0 < b)%nat -> (a <= c * b)%nat ->
  (inject_Z (Z.of_nat a) / inject_Z (Z.of_nat b) <= inject_Z (Z.of_nat c))%Q.
Proof.
  intros Hb Hab. apply Qle_shift_div_r.
  - change 0%Q with (inject_Z 0). rewrite <- Zlt_Qlt. lia.
  - rewrite <- inject_Z_mult, <- Zle_Qle. lia.
Qed.

Lemma Qdiv_nat_ge (a b c : nat) :
  (0 < b)%nat -> (c * b <= a)%nat ->
  (inject_Z (Z.of_nat c) <= inject_Z (Z.of_nat a) / inject_Z (Z.of_nat b))%Q.
Proof.
  intros Hb Hab. apply Qle_shift_div_l.
  - change 0%Q with (inject_Z 0). rewrite <- Zlt_Qlt. lia.
  - rewrite <- inject_Z_mult, <- Zle_Qle. lia.
Qed.

(** X22: the basic statistics of a text agree with each other: there are no
    more words than characters that are no blank, and no more of these than
    characters; a text has no word exactly when it holds spaces only, and
    then no sentence and no paragraph either; the mean number of words a
    sentence lies between 0 and the number of words; the mean length of a
    word is at least 1 when there is a word, and at most the number of
    characters that are no blank. Neither mean divides by zero. *)
Theorem analyze_basic_stats_consistent (text : str) :
  let stats := _analyze_basic_stats text in
  (palabras_total stats <= caracteres_sin_espacios stats)%nat /\
  (caracteres_sin_espacios stats <= caracteres_total stats)%nat /\
  (palabras_total stats = 0%nat <-> strip text = []) /\
  (parrafos_total stats = 0%nat <-> strip text = []) /\
  (strip text = [] -> oraciones_total stats = 0%nat) /\
  (0 <= promedio_palabras_por_oracion stats)%Q /\
  (promedio_palabras_por_oracion stats
   <= inject_Z (Z.of_nat (palabras_total stats)))%Q /\
  ((0 < palabras_total stats)%nat ->
   (1 <= promedio_caracteres_por_palabra stats)%Q) /\
  (promedio_caracteres_por_palabra stats
   <= inject_Z (Z.of_nat (caracteres_sin_espacios stats)))%Q.
Proof.
  cbv zeta. unfold _analyze_basic_stats.
  cbn [caracteres_total caracteres_sin_espacios palabras_total oraciones_total
       parrafos_total promedio_palabras_por_oracion
       promedio_caracteres_por_palabra].
  destruct (split_from_words text []) as [Hne Hsum]. fold (split text) in Hne, Hsum.
  cbn [length Nat.add] in Hsum.
  pose proof (sum_list_lengths_ge (split text) Hne) as Hwords.
  assert (Hchars : (length (List.filter (fun c => negb (isspace c)) text)
                    <= length (remove_char 32%N text))%nat).
  { apply filter_length_mono. intros c Hc.
    destruct (N.eqb_spec c 32) as [->|]; [discriminate | reflexivity]. }
  assert (Hzero : length (split text) = 0%nat ->
                  sum_list (map length (split text)) = 0%nat).
  { intros E. apply length_zero_iff_nil in E. now rewrite E. }
  set (words := length (split text)) in *.
  set (letters := sum_list (map length (split text))) in *.
  split; [lia|]. split; [apply List.filter_length_le|].
  assert (Hblank : words = 0%nat <-> strip text = []).
  { rewrite strip_nil_iff, <- filter_nonspace_blank. lia. }
  split; [exact Hblank|].
  split.
  { rewrite length_zero_iff_nil. apply split_paragraphs_nil. }
  split.
  { intros Hb. apply length_zero_iff_nil. now apply split_sentences_blank. }
  split.
  { apply Qle_shift_div_l.
    - change 0%Q with (inject_Z 0). rewrite <- Zlt_Qlt. lia.
    - rewrite Qmult_0_l. change 0%Q with (inject_Z 0). rewrite <- Zle_Qle. lia. }
  split; [apply Qdiv_nat_le; nia|].
  split.
  { intros Hpos. change 1%Q with (inject_Z (Z.of_nat 1)).
    apply Qdiv_nat_ge; lia. }
  apply Qdiv_nat_le; nia.
Qed.

(** ** Key phrases *)

Lemma count_of_counter_add (item k : str) (counts : list (str * nat)) :
  count_of k (counter_add item counts)
    = (count_of k counts + if bool_decide (item = k) then 1 else 0)%nat.
Proof.
  induction counts as [|[k0 n] counts IH]; cbn [counter_add count_of].
  - reflexivity.
  - destruct (decide (k0 = item)) as [->|Hne].
    + rewrite bool_decide_eq_true_2 by reflexivity. cbn [count_of].
      destruct (bool_decide (item = k)); lia.
    + rewrite (bool_decide_eq_false_2 (k0 = item)) by assumption.
      cbn [count_of]. destruct (decide (k0 = k)) as [->|Hk].
      * rewrite bool_decide_eq_true_2 by reflexivity.
        rewrite (bool_decide_eq_false_2 (item = k)) by congruence. lia.
      * rewrite (bool_decide_eq_false_2 (k0 = k)) by assumption. exact IH.
Qed.

Lemma counter_add_keys (item : str) (counts : list (str * nat)) :
  (forall k, In k (map fst (counter_add item counts)) <->
             k = item \/ In k (map fst counts)) /\
  (List.NoDup (map fst counts) -> List.NoDup (map fst (counter_add item counts))).
Proof.
  induction counts as [|[k0 n] counts [IHk IHn]]; cbn [counter_add map fst].
  - split; [intros k; cbn [In]; intuition congruence|].
    intros _. constructor; [easy | constructor].
  - destruct (decide (k0 = item)) as [->|Hne].
    + rewrite bool_decide_eq_true_2 by reflexivity. cbn [map fst In].
      split; [intros k; intuition congruence | easy].
    + rewrite bool_decide_eq_false_2 by assumption. cbn [map fst In].
      split.
      * intros k. rewrite IHk. intuition congruence.
      * intros Hnd. apply NoDup_cons_iff in Hnd as [Hk0 Hnd].
        apply NoDup_cons_iff. split; [|now apply IHn].
        rewrite IHk. intros [E | Hin]; [congruence | contradiction].
Qed.

Lemma count_of_In (k : str) (n : nat) (counts : list (str * nat)) :
  List.NoDup (map fst counts) -> In (k, n) counts -> count_of k counts = n.
Proof.
  induction counts as [|[k0 n0] counts IH]; [easy|].
  cbn [map fst count_of In]. intros Hnd Hin.
  apply NoDup_cons_iff in Hnd as [Hk0 Hnd].
  destruct Hin as [[= -> ->] | Hin].
  - now rewrite bool_decide_eq_true_2.
  - rewrite bool_decide_eq_false_2; [now apply IH|].
    intros ->. apply Hk0. now apply (in_map fst) in Hin.
Qed.

(** What [Counter] holds: each item once, with the number of times that
    it occurs. *)
Lemma Counter_spec (items : list str) :
  List.NoDup (map fst (Counter items)) /\
  forall k n, In (k, n) (Counter items) -> n = occurrences k items.
Proof.
  unfold Counter.
  assert (Hgen : forall counts,
             List.NoDup (map fst counts) ->
             List.NoDup (map fst (fold_left (fun counts item => counter_add item counts)
                               items counts)) /\
             forall k,
               count_of k (fold_left (fun counts item => counter_add item counts)
                             items counts)
               = (count_of k counts + occurrences k items)%nat).
  { induction items as [|item items IH]; intros counts Hnd; cbn [fold_left].
    - split; [assumption|]. intros k. unfold occurrences. cbn. lia.
    - destruct (IH (counter_add item counts)) as [Hn Hc];
        [now apply counter_add_keys|].
      split; [assumption|]. intros k. rewrite Hc, count_of_counter_add.
      unfold occurrences. cbn [List.filter].
      destruct (bool_decide (item = k)); cbn [length]; lia. }
  destruct (Hgen [] (List.NoDup_nil _)) as [Hn Hc]. split; [assumption|].
  intros k n Hin. apply count_of_In in Hin; [|assumption].
  rewrite Hc in Hin. cbn [count_of] in Hin. lia.
Qed.

Lemma insert_by_count_perm (x : str * nat) (l : list (str * nat)) :
  Permutation (insert_by_count x l) (x :: l).
Proof.
  induction l as [|y l IH]; cbn [insert_by_count]; [reflexivity|].
  destruct (snd x <? snd y)%nat; [|reflexivity].
  rewrite IH. apply perm_swap.
Qed.

Lemma sort_by_count_perm (l : list (str * nat)) :
  Permutation (sort_by_count l) l.
Proof.
  induction l as [|x l IH]; [reflexivity|]. cbn [sort_by_count fold_right].
  fold (sort_by_count l). now rewrite insert_by_count_perm, IH.
Qed.

Lemma insert_by_count_sorted (x : str * nat) (l : list (str * nat)) :
  StronglySorted (fun a b => (snd b <= snd a)%nat) l ->
  StronglySorted (fun a b => (snd b <= snd a)%nat) (insert_by_count x l).
Proof.
  induction 1 as [|y l Hs IH Hy]; cbn [insert_by_count].
  - constructor; constructor.
  - destruct (Nat.ltb_spec (snd x) (snd y)) as [Hlt|Hge].
    + constructor; [assumption|].
      rewrite (insert_by_count_perm x l). constructor; [lia | assumption].
    + constructor; [now constructor|].
      constructor; [assumption|].
      eapply List.Forall_impl; [|exact Hy]. cbv beta. intros z Hz. lia.
Qed.

Lemma sort_by_count_sorted (l : list (str * nat)) :
  StronglySorted (fun a b => (snd b <= snd a)%nat) (sort_by_count l).
Proof.
  induction l as [|x l IH]; [constructor|].
  cbn [sort_by_count fold_right]. now apply insert_by_count_sorted.
Qed.

Lemma In_firstn {A} (n : nat) (l : list A) (x : A) :
  In x (firstn n l) -> In x l.
Proof.
  revert n. induction l as [|a l IH]; intros [|n]; cbn [firstn In]; try easy.
  intros [-> | Hin]; [now left | right; now apply (IH n)].
Qed.

Lemma firstn_sorted {A} (R : A -> A -> Prop) (n : nat) (l : list A) :
  StronglySorted R l -> StronglySorted R (firstn n l).
Proof.
  intros Hs. revert n. induction Hs as [|x l Hs IH Hx]; intros [|n];
    cbn [firstn]; try constructor.
  - apply IH.
  - apply List.Forall_forall. intros y Hy.
    apply (proj1 (List.Forall_forall _ _) Hx). eapply In_firstn; eassumption.
Qed.

Lemma firstn_NoDup {A} (n : nat) (l : list A) :
  List.NoDup l -> List.NoDup (firstn n l).
Proof.
  intros Hnd. rewrite <- (firstn_skipn n l) in Hnd.
  now apply NoDup_app_remove_r in Hnd.
Qed.

Lemma slice_to_firstn {A} (stop : Z) (l : list A) :
  exists n, slice_to stop l = firstn n l.
Proof. unfold slice_to. destruct (0 <=? stop); eauto. Qed.

Section KeyPhraseFacts.
Context `{UCD}.

(** X23: the key phrases of a text. They come by count, largest first; no
    phrase comes twice; each has been counted twice or more among the
    bigrams and trigrams of the text, the count being the number of its
    occurrences there, and is longer than five characters; no more than
    [max_phrases] are returned when that number is not negative; and a text
    of fewer than three words has none. *)
Theorem extract_key_phrases_spec (text : str) (max_phrases : Z) :
  let result := extract_key_phrases text max_phrases in
  StronglySorted (fun a b => (snd b <= snd a)%nat) result /\
  List.NoDup (map fst result) /\
  (forall phrase count,
     In (phrase, count) result ->
     (1 < count)%nat /\ (5 < length phrase)%nat /\
     count = occurrences phrase (phrases_of text)) /\
  (0 <= max_phrases -> (length result <= Z.to_nat max_phrases)%nat) /\
  ((length (words_from [] (lower text)) < 3)%nat -> result = []).
Proof.
  cbv zeta. unfold extract_key_phrases.
  destruct (truthy text); cbn [negb].
  2:{ split; [constructor|]. split; [constructor|].
      split; [easy|]. split; [cbn [length]; lia | reflexivity]. }
  set (counts := Counter (phrases_of text)).
  set (filtered := List.filter _ counts).
  destruct (Counter_spec (phrases_of text)) as [Hnd Hocc]. fold counts in Hnd, Hocc.
  destruct (slice_to_firstn max_phrases (sort_by_count filtered)) as [n Hn].
  assert (Hin : forall phrase count,
             In (phrase, count) (slice_to max_phrases (sort_by_count filtered)) ->
             (1 < count)%nat /\ (5 < length phrase)%nat /\
             count = occurrences phrase (phrases_of text)).
  { intros phrase count Hin. rewrite Hn in Hin. apply In_firstn in Hin.
    apply (Permutation_in _ (sort_by_count_perm filtered)) in Hin.
    apply filter_In in Hin as [Hin Hf].
    apply andb_true_iff in Hf as [Hc Hl].
    apply Nat.ltb_lt in Hc, Hl. auto. }
  split; [rewrite Hn; apply firstn_sorted, sort_by_count_sorted|].
  split.
  { rewrite Hn, <- firstn_map. apply firstn_NoDup.
    rewrite (Permutation_map fst (sort_by_count_perm filtered)).
    subst filtered. clear - Hnd.
    induction counts as [|[k c] counts IH]; [constructor|].
    cbn [map fst] in Hnd. apply NoDup_cons_iff in Hnd as [Hk Hnd].
    cbn [List.filter]. destruct (_ && _); [|now apply IH].
    cbn [map fst]. apply NoDup_cons_iff. split; [|now apply IH].
    intros Hin. apply Hk. apply in_map_iff in Hin as ([k' c'] & <- & Hin).
    apply filter_In in Hin as [Hin _]. now apply (in_map fst) in Hin. }
  split; [exact Hin|]. split.
  { intros Hmax. unfold slice_to.
    rewrite (proj2 (Z.leb_le 0 max_phrases) Hmax). apply firstn_le_length. }
  intros Hwords.
  destruct (slice_to max_phrases (sort_by_count filtered))
    as [|[phrase count] rest] eqn:Hres; [reflexivity|].
  destruct (Hin phrase count (or_introl eq_refl)) as (Hc & _ & Ho).
  exfalso.
  assert (Hlen : (occurrences phrase (phrases_of text) <= 1)%nat).
  { unfold occurrences. etransitivity; [apply List.filter_length_le|].
    unfold phrases_of, bigrams, trigrams.
    rewrite length_app, !length_map, !length_seq. lia. }
  lia.
Qed.

End KeyPhraseFacts.


(** ** A page without text *)

Lemma join_nonempty (sep : str) (pieces : list str) :
  pieces <> [] -> Forall (fun p => p <> []) pieces -> join sep pieces <> [].
Proof.
  intros Hne Hall. destruct Hall as [|p ps Hp _]; [contradiction|].
  destruct p as [|c p]; [contradiction|].
  destruct (join_head sep c p ps) as [s ->]. discriminate.
Qed.

(** [get_text(strip=True)] is empty exactly when every string below the
    node is blank, whatever the separator. *)
Lemma get_text_strip_nil (separator : str) (n : node) :
  get_text_strip separator n = [] <->
  List.filter truthy (map strip (strings n)) = [].
Proof.
  unfold get_text_strip. split; [|now intros ->].
  intros Hj. destruct (List.filter truthy (map strip (strings n))) eqn:Hf;
    [reflexivity|].
  exfalso. revert Hj. apply join_nonempty; [discriminate|].
  rewrite <- Hf. apply List.Forall_forall. intros p Hp.
  apply filter_In in Hp as [_ Hp]. now destruct p.
Qed.

(** [decompose] adds no string. *)
Lemma strings_decompose_all (name : str) (n : node) (s : str) :
  In s (strings (decompose_all name n)) -> In s (strings n).
Proof.
  induction n as [s'|name' attrs contents IH] using node_nested_ind;
    [easy|].
  rewrite decompose_all_Tag. cbn [strings].
  induction IH as [|c cs Hc _ IHcs]; [easy|].
  cbn [prune flat_map]. destruct (tag_matches name [] c).
  - intros Hin. apply in_or_app. right. now apply IHcs.
  - cbn [flat_map]. intros Hin. apply in_app_or in Hin as [Hin | Hin];
      apply in_or_app; [left; now apply Hc | right; now apply IHcs].
Qed.

Lemma strings_fold_decompose (names : list str) (n : node) (s : str) :
  In s (strings (fold_left (fun c element_type => decompose_all element_type c)
                   names n)) ->
  In s (strings n).
Proof.
  revert n. induction names as [|name names IH]; intros n; [easy|].
  cbn [fold_left]. intros Hin. apply IH in Hin.
  now apply strings_decompose_all in Hin.
Qed.

Lemma filter_truthy_nil (l : list str) :
  List.filter truthy (map strip l) = [] <->
  forall s, In s l -> strip s = [].
Proof.
  induction l as [|a l IH]; [easy|]. cbn [map List.filter In].
  destruct (strip a) eqn:Ha; cbn [truthy].
  - rewrite IH. split; [intros Hl s [<- | Hs]; auto | auto].
  - split; [discriminate|]. intros Hl.
    specialize (Hl a (or_introl eq_refl)). congruence.
Qed.

(** A container without text gives the empty text. *)
Lemma extract_clean_text_nil (container : node) :
  get_text_strip [] container = [] -> _extract_clean_text container = [].
Proof.
  intros Hc. apply get_text_strip_nil in Hc.
  unfold _extract_clean_text.
  set (cleaned := fold_left _ unwanted_elements container).
  assert (Ht : get_text_strip [10%N] cleaned = []).
  { apply get_text_strip_nil. apply filter_truthy_nil. intros s Hs.
    apply strings_fold_decompose in Hs.
    now apply (proj1 (filter_truthy_nil _) Hc). }
  rewrite Ht. reflexivity.
Qed.

Section EmptyPage.
Context `{UCD} `{Environment}.

(** X24: a page without text is no error. When the container has no text,
    which can only be the body taken as fallback, [_process_response]
    returns the OK record with the empty text, lengths 0, and the analysis
    of [_create_empty_analysis], whose type is [documento_vacio]. *)
Theorem process_response_empty_page (response : Response) (url : str)
    (attempts : Z) (document : soup) (container : node) :
  BeautifulSoup (text response) = Return document ->
  _find_main_container document = Some container ->
  get_text_strip [] container = [] ->
  find (py "body") [] document = Some container /\
  _process_response response url attempts =
    OK url [] 0 0 attempts _create_empty_analysis
      {| meta_status_code := status_code response;
         meta_content_type := content_type response;
         meta_server := server response;
         meta_content_length := content_length response |}.
Proof.
  intros Hdoc Hmain Hempty. split.
  - unfold _find_main_container in Hmain.
    pose proof (first_container_spec document selectors) as Hspec.
    destruct (first_container document selectors) as [c|]; [|exact Hmain].
    injection Hmain as ->.
    destruct Hspec as (pre & sel & post & _ & _ & _ & Htext). contradiction.
  - unfold _process_response. rewrite Hdoc, Hmain.
    rewrite (extract_clean_text_nil container Hempty).
    rewrite analyze_content_blank_eq by reflexivity. reflexivity.
Qed.

End EmptyPage.

(** ** The statements at sample inputs *)


Lemma float_max_large : (9223372036 <= float_max)%Q.
Proof. vm_compute. discriminate. Qed.

Lemma float_max_opp_small : (- float_max <= -9223372036)%Q.
Proof. vm_compute. discriminate. Qed.

(** The sample servers take every wait from nothing to 9223372036
    seconds. *)
Lemma served_sleeps (script : nat -> result Response) (seconds : Q) :
  (0 <= seconds)%Q -> (seconds <= 9223372036)%Q ->
  @sleeps (served script) seconds.
Proof.
  intros Hlo Hhi. split; [exact Hlo|]. split; [|reflexivity].
  split; [|split].
  - apply Qle_trans with (y := 0%Q); [|exact Hlo].
    apply Qle_trans with (y := (-9223372036)%Q); [|discriminate].
    exact float_max_opp_small.
  - apply Qle_trans with (y := 9223372036%Q); [exact Hhi|].
    exact float_max_large.
  - cbn [sleep_overflow served]. unfold sample_overflow, Qgtb.
    rewrite (proj2 (Qle_bool_iff _ _) Hhi).
    assert (Hneg : (- 9223372036 <= seconds)%Q)
      by (apply Qle_trans with (y := 0%Q); [discriminate | exact Hlo]).
    now rewrite (proj2 (Qle_bool_iff _ _) Hneg).
Qed.

(** They refuse no negative wait down to -9223372036 seconds for another
    reason than its sign. *)
Lemma served_fits_clock (script : nat -> result Response) (seconds : Q) :
  (- 9223372036 <= seconds)%Q -> (seconds <= 0)%Q ->
  @fits_clock (served script) seconds.
Proof.
  intros Hlo Hhi. split; [|split].
  - apply Qle_trans with (y := (-9223372036)%Q); [|exact Hlo].
    exact float_max_opp_small.
  - apply Qle_trans with (y := 0%Q); [exact Hhi|].
    apply Qle_trans with (y := 9223372036%Q); [discriminate|].
    exact float_max_large.
  - cbn [sleep_overflow served]. unfold sample_overflow, Qgtb.
    rewrite (proj2 (Qle_bool_iff _ _) Hlo).
    assert (Hpos : (seconds <= 9223372036)%Q)
      by (apply Qle_trans with (y := 0%Q); [exact Hhi | discriminate]).
    now rewrite (proj2 (Qle_bool_iff _ _) Hpos).
Qed.

Lemma sample_delay_taken (script : nat -> result Response) :
  @sleeps (served script) (delay_between_requests (ethical default_config)).
Proof. apply served_sleeps; discriminate. Qed.

(** The waits of the four turns of the default configuration are 3, 6, 12
    and 24 seconds. *)
Lemma sample_waits_taken (script : nat -> result Response) (count : nat) :
  (count <= 4)%nat -> @waits_taken (served script) default_config 0 count.
Proof.
  intros Hc i Hi.
  destruct i as [|[|[|[|i]]]]; [| | | |lia];
    (split; [reflexivity | apply served_sleeps; discriminate]).
Qed.

Lemma scrape_document_foreign_domain_witness :
  0 < max_retries (ethical default_config) /\
  @scrape_document latin1_only healthy_server default_config (Some evil_url)
    initial
  = (Return (ERROR evil_url validation_error URL_no_valida), initial).
Proof.
  split; [reflexivity|].
  assert (Hforeign : forall netloc,
            @urlparse_netloc healthy_server
              (target_url_of default_config (Some evil_url)) = Return netloc ->
            forall domain,
              In domain (allowed_domains (scraping default_config)) ->
              contains domain netloc = false).
  { intros netloc Hn domain Hin. vm_compute in Hn. injection Hn as <-.
    vm_compute in Hin. destruct Hin as [<- | [<- | []]]; vm_compute; reflexivity. }
  rewrite (proj1 (@scrape_document_foreign_domain latin1_only healthy_server
                    default_config (Some evil_url) initial Hforeign)).
  reflexivity.
Defined.

Lemma retry_twice_then_succeed_witness :
  exists w',
    @scrape_document latin1_only flaky_server default_config (Some adres_url)
      initial
    = (Return (@_process_response latin1_only flaky_server
                 (response_of 200 2048) adres_url 3), w') /\
    requests w' = 3%nat /\
    trace w' =
      [ Sleep PreRequest 3.0; Get adres_url;
        Sleep Backoff (3.0 * inject_Z (2 ^ 1)); Get adres_url;
        Sleep Backoff (3.0 * inject_Z (2 ^ 2)); Get adres_url ] /\
    intentos_realizados_of
      (@_process_response latin1_only flaky_server (response_of 200 2048)
         adres_url 3) = Some 3.
Proof.
  assert (Hvalid : @_validate_url flaky_server default_config
                     (target_url_of default_config (Some adres_url)) = true)
    by (vm_compute; reflexivity).
  assert (Hf0 : fails default_config
                  (@session_get flaky_server (requests initial)
                     (target_url_of default_config (Some adres_url)))).
  { intros r (Ho & _). discriminate. }
  assert (Hf1 : fails default_config
                  (@session_get flaky_server (S (requests initial))
                     (target_url_of default_config (Some adres_url)))).
  { intros r (Ho & Hs & _). injection Ho as <-. discriminate. }
  assert (Hok : succeeds_with default_config
                  (@session_get flaky_server (S (S (requests initial)))
                     (target_url_of default_config (Some adres_url)))
                  (response_of 200 2048)).
  { repeat split. discriminate. }
  assert (Hd0 : @sleeps flaky_server
                  (delay_between_requests (ethical default_config)))
    by (apply served_sleeps; discriminate).
  assert (Hd1 : @sleeps flaky_server
                  (delay_between_requests (ethical default_config)
                   * inject_Z (2 ^ 1)))
    by (apply served_sleeps; discriminate).
  assert (Hd2 : @sleeps flaky_server
                  (delay_between_requests (ethical default_config)
                   * inject_Z (2 ^ 2)))
    by (apply served_sleeps; discriminate).
  destruct (@retry_twice_then_succeed latin1_only flaky_server default_config
              (Some adres_url) initial (response_of 200 2048)
              eq_refl Hd0 Hd1 Hd2 Hvalid Hf0 Hf1 Hok)
    as (w' & Hrun & Hreq & Htrace & _ & Hok3).
  assert (Hpage : @BeautifulSoup flaky_server (text (response_of 200 2048))
                  = Return page) by reflexivity.
  assert (Hmain : _find_main_container page
                  = Some (Tag (py "main") []
                            [NavigableString (py "Resolución 123 de la ADRES")]))
    by (vm_compute; reflexivity).
  pose proof (Hok3 _ _ Hpage Hmain) as Hthree.
  assert (Htarget : target_url_of default_config (Some adres_url) = adres_url)
    by reflexivity.
  rewrite Htarget in Hrun, Htrace, Hthree.
  exists w'. rewrite Hrun, Hreq, Htrace, Hthree.
  split; [reflexivity|]. split; [reflexivity|]. split; reflexivity.
Defined.

(** C2 fails here: every answer is above the limit, and the scrape makes
    four requests, where the claim allows one, before it returns
    [unknown_error]. *)
Lemma oversized_not_retried_counterexample :
  oversized default_config (@session_get oversized_server 0 adres_url) /\
  0 <= max_retries (ethical default_config) /\
  (let run := @scrape_document latin1_only oversized_server default_config
                (Some adres_url) initial in
   fst run = Return (ERROR adres_url unknown_error Error_desconocido) /\
   requests (snd run) = 4%nat /\
   length (List.filter is_get (trace (snd run))) = 4%nat /\
   requests (snd run) <> 1%nat).
Proof.
  split.
  { exists (response_of 200 (10 * 1024 * 1024 + 1)). repeat split. }
  split; [discriminate|].
  vm_compute. repeat split. discriminate.
Qed.

Lemma oversized_response_is_retried_witness :
  @scrape_document latin1_only oversized_server default_config (Some adres_url)
    initial
  = (Return (ERROR adres_url unknown_error Error_desconocido),
     World 4 (attempts_events default_config adres_url 4 0)).
Proof.
  assert (Hvalid : @_validate_url oversized_server default_config
                     (target_url_of default_config (Some adres_url)) = true)
    by (vm_compute; reflexivity).
  assert (Hall : forall i,
            (i < Z.to_nat (max_retries (ethical default_config) + 1))%nat ->
            oversized default_config
              (@session_get oversized_server (requests initial + i)
                 (target_url_of default_config (Some adres_url)))).
  { intros i _. exists (response_of 200 (10 * 1024 * 1024 + 1)).
    repeat split. }
  rewrite (proj1 (@oversized_response_is_retried latin1_only oversized_server
                    default_config (Some adres_url) initial
                    (sample_waits_taken _ 4 (le_n 4)) Hvalid Hall)).
  reflexivity.
Defined.

(** C3 fails here: after four answers 503, and after four requests that
    reach no server, the record is the same, with [error_type]
    [unknown_error], neither [http_error] nor [network_error]. *)
Lemma exhausted_retries_counterexample :
  http_status_failure (@session_get unavailable_server 3 adres_url) /\
  transport_failure (@session_get unreachable_server 3 adres_url) /\
  fst (@scrape_document latin1_only unavailable_server default_config
         (Some adres_url) initial)
    = Return (ERROR adres_url (py "unknown_error") Error_desconocido) /\
  fst (@scrape_document latin1_only unreachable_server default_config
         (Some adres_url) initial)
    = Return (ERROR adres_url (py "unknown_error") Error_desconocido) /\
  py "unknown_error" <> py "http_error" /\
  py "unknown_error" <> py "network_error".
Proof.
  split.
  { right. exists (response_of 503 512). split; [reflexivity|].
    cbn [status_code response_of]. lia. }
  split; [reflexivity|].
  split; [vm_compute; reflexivity|].
  split; [vm_compute; reflexivity|].
  split; vm_compute; discriminate.
Qed.

Lemma exhausted_retries_unknown_error_witness :
  @scrape_document latin1_only unavailable_server default_config
    (Some adres_url) initial
  = (Return (ERROR adres_url unknown_error Error_desconocido),
     World 4 (attempts_events default_config adres_url 4 0)).
Proof.
  assert (Hvalid : @_validate_url unavailable_server default_config
                     (target_url_of default_config (Some adres_url)) = true)
    by (vm_compute; reflexivity).
  assert (Hall : forall i,
            (i < Z.to_nat (max_retries (ethical default_config) + 1))%nat ->
            http_status_failure
              (@session_get unavailable_server (requests initial + i)
                 (target_url_of default_config (Some adres_url))) \/
            transport_failure
              (@session_get unavailable_server (requests initial + i)
                 (target_url_of default_config (Some adres_url)))).
  { intros i _. left. right. exists (response_of 503 512).
    split; [reflexivity|]. cbn [status_code response_of]. lia. }
  rewrite (proj1 (@exhausted_retries_unknown_error latin1_only
                    unavailable_server default_config (Some adres_url) initial)
             (sample_waits_taken _ 4 (le_n 4)) Hvalid Hall).
  reflexivity.
Defined.

Lemma scrape_multiple_documents_batch_witness :
  exists r1 r3 w' evs,
    @scrape_multiple_documents latin1_only healthy_server default_config
      [adres_url; evil_url; other_adres_url] initial
    = (Return [r1; ERROR evil_url validation_error URL_no_valida; r3], w') /\
    trace w' = evs /\
    length (List.filter is_between_documents evs) = 2%nat.
Proof.
  destruct (proj2 (@scrape_multiple_documents_batch latin1_only healthy_server
                     default_config [adres_url; evil_url; other_adres_url]
                     initial)
              (sample_delay_taken _))
    as (records & w' & evs & Hrun & _ & Ht & _ & _ & Hthree).
  destruct (Hthree adres_url evil_url other_adres_url eq_refl)
    as (r1 & r3 & -> & Hb); [vm_compute; reflexivity|].
  exists r1, r3, w', evs. rewrite Hrun, Ht, Hb. repeat split.
Defined.

(** C6 fails here: the page has a [main] element with text and a
    [div class="content"] with text, and the element chosen is the [div],
    because the first [main] of the page is empty. *)
Lemma container_first_match_counterexample :
  let main2 := Tag (py "main") [] [ NavigableString (py "Texto principal") ] in
  let content :=
    Tag (py "div") [ (py "class", py "content") ]
      [ NavigableString (py "Otro texto") ] in
  In main2 (find_all (py "main") [] page_two_mains) /\
  get_text_strip [] main2 <> [] /\
  In content (find_all (py "div") [ (py "class", py "content") ] page_two_mains) /\
  get_text_strip [] content <> [] /\
  _find_main_container page_two_mains = Some content /\
  resolve_any_match page_two_mains = Some main2 /\
  _find_main_container page_two_mains <> resolve_any_match page_two_mains.
Proof.
  cbv zeta. repeat split; try (vm_compute; (reflexivity || discriminate)).
  - vm_compute. right. now left.
  - vm_compute. now left.
Qed.

(** ** The further properties at sample inputs *)

Lemma adres_url_target (config : Config) :
  target_url_of config (Some adres_url) = adres_url.
Proof. reflexivity. Qed.

Lemma scrape_document_succeeds_after_witness :
  @scrape_document latin1_only flaky_server default_config (Some adres_url)
    initial
  = (Return (@_process_response latin1_only flaky_server
               (response_of 200 2048) adres_url 3),
     World 3 (attempts_events default_config adres_url 3 0)).
Proof.
  assert (Hvalid : @_validate_url flaky_server default_config
                     (target_url_of default_config (Some adres_url)) = true)
    by (vm_compute; reflexivity).
  assert (Hfail : forall i, (i < 2)%nat ->
            fails default_config
              (@session_get flaky_server (requests initial + i)
                 (target_url_of default_config (Some adres_url)))).
  { intros [|[|i]] Hi; [| |lia].
    - intros r (Ho & _). discriminate.
    - intros r (Ho & Hs & _). injection Ho as <-. discriminate. }
  assert (Hok : succeeds_with default_config
                  (@session_get flaky_server (requests initial + 2)
                     (target_url_of default_config (Some adres_url)))
                  (response_of 200 2048)).
  { repeat split. discriminate. }
  rewrite (@scrape_document_succeeds_after latin1_only flaky_server
             default_config (Some adres_url) initial 2 (response_of 200 2048)
             (sample_waits_taken _ 3 ltac:(lia)) Hvalid ltac:(discriminate)
             Hfail Hok).
  rewrite adres_url_target. reflexivity.
Defined.

Lemma scrape_document_extraction_error_witness :
  @scrape_document latin1_only broken_server default_config (Some adres_url)
    initial
  = (Return (ERROR adres_url extraction_error
               (Fallo_despues_de 4 OtherException)),
     World 4 (attempts_events default_config adres_url 4 0)).
Proof.
  assert (Hvalid : @_validate_url broken_server default_config
                     (target_url_of default_config (Some adres_url)) = true)
    by (vm_compute; reflexivity).
  assert (Hfail : forall i,
            (i < Z.to_nat (max_retries (ethical default_config)))%nat ->
            fails default_config
              (@session_get broken_server (requests initial + i)
                 (target_url_of default_config (Some adres_url)))).
  { intros i _ r (Ho & _). discriminate. }
  rewrite (@scrape_document_extraction_error latin1_only broken_server
             default_config (Some adres_url) initial OtherException
             (sample_waits_taken _ 4 (le_n 4)) ltac:(discriminate) Hvalid
             Hfail eq_refl
             (conj eq_refl eq_refl)).
  rewrite adres_url_target. reflexivity.
Defined.

Lemma scrape_document_negative_delay_witness :
  @scrape_document latin1_only healthy_server (with_delay (-1)) (Some adres_url)
    initial
  = (Return (ERROR adres_url extraction_error (Fallo_despues_de 4 ValueError)),
     initial).
Proof.
  assert (Hvalid : @_validate_url healthy_server (with_delay (-1))
                     (target_url_of (with_delay (-1)) (Some adres_url)) = true)
    by (vm_compute; reflexivity).
  assert (Hfits : @fits_clock healthy_server
                    (turn_wait (with_delay (-1))
                       (max_retries (ethical (with_delay (-1))))))
    by (apply served_fits_clock; discriminate).
  destruct (@scrape_document_negative_delay latin1_only healthy_server
              (with_delay (-1)) (Some adres_url) initial
              eq_refl ltac:(discriminate) Hvalid)
    as (e & Hrun & _ & He).
  rewrite Hrun, (He eq_refl Hfits).
  rewrite adres_url_target. reflexivity.
Defined.

Lemma scrape_document_no_turn_witness :
  @scrape_document latin1_only healthy_server (with_max_retries (-1))
    (Some adres_url) initial
  = (Return (ERROR adres_url unknown_error Error_desconocido), initial).
Proof.
  assert (Hvalid : @_validate_url healthy_server (with_max_retries (-1))
                     (target_url_of (with_max_retries (-1)) (Some adres_url))
                   = true)
    by (vm_compute; reflexivity).
  rewrite (@scrape_document_no_turn latin1_only healthy_server
             (with_max_retries (-1)) (Some adres_url) initial eq_refl Hvalid).
  rewrite adres_url_target. reflexivity.
Defined.

Lemma exhausted_scrape_wait_witness :
  exists evs,
    @scrape_document latin1_only unavailable_server default_config
      (Some adres_url) initial
    = (Return (ERROR adres_url unknown_error Error_desconocido), World 4 evs) /\
    length (List.filter is_get evs) = 4%nat /\
    (slept evs == 45)%Q.
Proof.
  assert (Hvalid : @_validate_url unavailable_server default_config
                     (target_url_of default_config (Some adres_url)) = true)
    by (vm_compute; reflexivity).
  assert (Hall : forall i,
            (i < Z.to_nat (max_retries (ethical default_config) + 1))%nat ->
            handled_failure default_config
              (@session_get unavailable_server (requests initial + i)
                 (target_url_of default_config (Some adres_url)))).
  { intros i _. left. right. exists (response_of 503 512).
    split; [reflexivity|]. cbn [status_code response_of]. lia. }
  destruct (@exhausted_scrape_wait latin1_only unavailable_server
              default_config (Some adres_url) initial
              (sample_waits_taken _ 4 (le_n 4)) ltac:(discriminate) Hvalid
              Hall)
    as (evs & Hrun & Hgets & Hslept).
  exists evs. rewrite Hrun, adres_url_target.
  split; [reflexivity|]. split; [exact Hgets|].
  rewrite Hslept. reflexivity.
Defined.

Lemma scrape_multiple_documents_negative_delay_witness :
  @scrape_multiple_documents latin1_only healthy_server (with_delay (-1))
    [adres_url; other_adres_url] initial
  = (Raise ValueError, initial).
Proof.
  assert (Hfits : @fits_clock healthy_server
                    (delay_between_requests (ethical (with_delay (-1)))))
    by (apply served_fits_clock; discriminate).
  destruct (@scrape_multiple_documents_negative_delay latin1_only
              healthy_server (with_delay (-1)) [adres_url; other_adres_url]
              initial eq_refl)
    as (e & Hrun & _ & He).
  rewrite Hrun, (He Hfits). reflexivity.
Defined.

Lemma scrape_multiple_documents_in_order_witness :
  exists records w',
    @scrape_multiple_documents latin1_only healthy_server default_config
      [adres_url; evil_url] initial
    = (Return records, w') /\
    map url_original_of records = [adres_url; evil_url] /\
    (requests w' <= 8)%nat.
Proof.
  destruct (@scrape_multiple_documents_in_order latin1_only healthy_server
              default_config [adres_url; evil_url] initial
              (sample_delay_taken _))
    as (records & w' & Hrun & Hurls & _ & Hmax).
  exists records, w'. rewrite Hrun, Hurls.
  split; [reflexivity|]. split; [reflexivity | exact Hmax].
Defined.

Lemma scrape_multiple_documents_overflow_witness :
  @scrape_multiple_documents latin1_only healthy_server
    (with_delay 10000000000) [adres_url; other_adres_url] initial
  = (Raise OverflowError, initial).
Proof.
  assert (Hdoc : @scrape_document latin1_only healthy_server
                   (with_delay 10000000000) (Some adres_url) initial
                 = (Return (ERROR adres_url extraction_error
                              (Fallo_despues_de 4 OverflowError)), initial))
    by (vm_compute; reflexivity).
  destruct (@scrape_multiple_documents_overflow latin1_only healthy_server
              (with_delay 10000000000) adres_url other_adres_url [] initial
              eq_refl)
    as (record & w1 & Hr & Hrun).
  rewrite Hrun. rewrite Hdoc in Hr. injection Hr as _ <-. reflexivity.
Defined.

Lemma extract_clean_text_unwanted_witness :
  find_all (py "script") []
    (contents_of (decompose_all (py "script") main_with_script)) = [] /\
  _extract_clean_text (decompose_all (py "script") main_with_script)
    = _extract_clean_text main_with_script.
Proof.
  apply extract_clean_text_unwanted. vm_compute. now left.
Defined.

Lemma classify_document_flags_witness :
  _classify_document sample_analysis = Return sample_classification /\
  es_documento_adres sample_classification = true.
Proof.
  assert (Hc : _classify_document sample_analysis = Return sample_classification)
    by (vm_compute; reflexivity).
  split; [exact Hc|].
  apply (proj1 (proj2 (classify_document_flags sample_analysis
                         sample_classification Hc))).
  reflexivity.
Defined.

Lemma classify_document_again_witness :
  exists a c,
    @analyze_content latin1_only normative_text (py "https://adres.gov.co/")
      = Return a /\
    clasificacion a = Some c /\
    _classify_document a = Return c.
Proof.
  destruct (@analyze_content_returns latin1_only normative_text
              (py "https://adres.gov.co/")) as [a Ha].
  destruct (proj2 (@classify_document_again latin1_only normative_text
                     (py "https://adres.gov.co/") a Ha))
    as (c & Hc & Hagain); [vm_compute; discriminate|].
  exists a, c. split; [exact Ha|]. split; [exact Hc | exact Hagain].
Defined.

Lemma find_legal_keywords_norms_witness :
  exists numbers,
    normas_identificadas (@_find_legal_keywords latin1_only law_text)
      !! py "leyes" = Some numbers /\
    numbers <> ∅ /\
    forall number, number ∈ numbers ->
      number <> [] /\ forallb (@is_digit latin1_only) number = true.
Proof.
  destruct (normas_identificadas (@_find_legal_keywords latin1_only law_text)
              !! py "leyes") as [numbers|] eqn:Hk;
    [|vm_compute in Hk; discriminate].
  exists numbers. split; [reflexivity|].
  apply (@find_legal_keywords_norms latin1_only law_text (py "leyes") numbers Hk).
Defined.

Lemma adres_flag_needs_keyword_witness :
  exists a c,
    @analyze_content latin1_only normative_text (py "https://adres.gov.co/")
      = Return a /\
    clasificacion a = Some c /\
    es_documento_adres c = true /\
    (0 < total_coincidencias (palabras_clave_adres a))%nat.
Proof.
  assert (Hflag :
            match @analyze_content latin1_only normative_text
                    (py "https://adres.gov.co/") with
            | inr a =>
                match clasificacion a with
                | Some c => es_documento_adres c
                | None => false
                end
            | inl _ => false
            end = true) by (vm_compute; reflexivity).
  destruct (@analyze_content latin1_only normative_text
              (py "https://adres.gov.co/")) as [e|a] eqn:Ha; [discriminate|].
  destruct (clasificacion a) as [c|] eqn:Hc; [|discriminate].
  exists a, c. split; [reflexivity|]. split; [exact Hc|]. split; [exact Hflag|].
  apply (@adres_flag_needs_keyword latin1_only normative_text
           (py "https://adres.gov.co/") a c Ha Hc Hflag).
Defined.

Lemma process_response_empty_page_witness :
  @_process_response latin1_only blank_server (response_of 200 2048)
    adres_url 1
  = OK adres_url [] 0 0 1 _create_empty_analysis
      {| meta_status_code := 200;
         meta_content_type := py "text/html";
         meta_server := py "nginx";
         meta_content_length := 2048 |}.
Proof.
  assert (Hmain : _find_main_container blank_page
                  = Some (Tag (py "body") [] [ NavigableString (py "   ") ]))
    by (vm_compute; reflexivity).
  assert (Hempty : get_text_strip []
                     (Tag (py "body") [] [ NavigableString (py "   ") ]) = [])
    by (vm_compute; reflexivity).
  rewrite (proj2 (@process_response_empty_page latin1_only blank_server
                    (response_of 200 2048) adres_url 1 blank_page _
                    eq_refl Hmain Hempty)).
  reflexivity.
Defined.
